(** * tavily-rag-pipeline: a shallow embedding of the retrieval pipeline

    The development follows the four Python modules of the repository:

    - [agent/tavily_search.py]: the retried retrieval call [tavily_search]
      and the evidence filter [format_context_from_tavily];
    - [agent/llm_response.py]: [generate_answer] and [generate_subqueries];
    - [agent/langraph_pipeline.py]: the five nodes, the routing predicate
      [_critique_condition] and the topology of [_build_graph];
    - [util.py]: [pretty_print], the framed header of the console output.

    Conventions of the embedding.

    - A Python [str] is a [string]; one [ascii] stands for one character, so
      the texts covered are those whose characters have a code point below
      256.  [len], [lower], [split], [strip] are given on that alphabet.
    - A Python [float] is a binary64 [float] of the kernel, with the IEEE
      operations the interpreter uses.
    - A raised exception is a value of [exn]; a call that may raise returns a
      [result].
    - The two remote providers and the JSON decoder of the standard library
      are parameters: the providers are deterministic functions of an
      explicit world state that every call threads through.
    - The retry decorator (tenacity) and the graph engine (langgraph) are
      libraries; what the repository calls of them is given here as
      definitions, next to the code that calls it.
    - Console output ([print], [pretty_print]) has no effect on any value:
      the nodes are given without it, and what the publish node prints is
      given on its own ([publish_console]). *)

From Stdlib Require Import ZArith String Ascii List Bool Lia Floats.
From Stdlib Require Import DecimalString Sorted Permutation.
From stdpp Require Import base gmap strings.
Import ListNotations.

Local Open Scope string_scope.
Local Open Scope list_scope.

(** ** Python text *)

Module Py.

Definition chr (n : nat) : string := String (ascii_of_nat n) "".

(** The newline and the double quote of the source's literals. *)
Definition nl : string := chr 10.
Definition dq : string := chr 34.

(** [str.isspace] on one character (code points below 256). *)
Definition isspace (c : ascii) : bool :=
  let n := nat_of_ascii c in
  (((9 <=? n) && (n <=? 13)) || ((28 <=? n) && (n <=? 32))
   || (n =? 133) || (n =? 160))%nat.

(** [str.lower] on one character: A-Z, and the upper-case letters of the
    Latin-1 block (U+00C0 to U+00DE without the multiplication sign). *)
Definition lower_char (c : ascii) : ascii :=
  let n := nat_of_ascii c in
  if (((65 <=? n) && (n <=? 90))
      || ((192 <=? n) && (n <=? 222) && negb (n =? 215)))%nat
  then ascii_of_nat (n + 32) else c.

Fixpoint lower (s : string) : string :=
  match s with
  | EmptyString => EmptyString
  | String c s' => String (lower_char c) (lower s')
  end.

(** [needle in hay] for two strings. *)
Fixpoint contains (needle hay : string) : bool :=
  String.prefix needle hay
  || match hay with
     | EmptyString => false
     | String _ hay' => contains needle hay'
     end.

(** [sep.join(parts)]. *)
Fixpoint join (sep : string) (parts : list string) : string :=
  match parts with
  | [] => ""
  | [p] => p
  | p :: rest => p +:+ sep +:+ join sep rest
  end.

(** [s[-1]], when there is one. *)
Fixpoint last_char (s : string) : option ascii :=
  match s with
  | EmptyString => None
  | String c EmptyString => Some c
  | String _ s' => last_char s'
  end.

(** [s * n]. *)
Fixpoint times (s : string) (n : nat) : string :=
  match n with
  | O => EmptyString
  | S n' => s +:+ times s n'
  end.

(** A literal that spans several lines, given line by line. *)
Definition text (lines : list string) : string := join nl lines.

(** [str(n)] for an [int]. *)
Definition str_int (n : Z) : string :=
  DecimalString.NilZero.string_of_int (Z.to_int n).

(** [s[n:]]. *)
Fixpoint drop (n : nat) (s : string) : string :=
  match n, s with
  | O, _ => s
  | _, EmptyString => EmptyString
  | S n', String _ s' => drop n' s'
  end.

(** [s.split()]: the maximal runs of non-space characters, in order.
    [word] is the run being read, most recent character last. *)
Fixpoint split_from (word : string) (s : string) : list string :=
  match s with
  | EmptyString => if String.eqb word "" then [] else [word]
  | String c s' =>
      if isspace c
      then if String.eqb word "" then split_from "" s'
           else word :: split_from "" s'
      else split_from (word +:+ String c "") s'
  end.

Definition split (s : string) : list string := split_from "" s.

Fixpoint lstrip_by (drop : ascii -> bool) (s : string) : string :=
  match s with
  | EmptyString => EmptyString
  | String c s' => if drop c then lstrip_by drop s' else s
  end.

Definition rev_string (s : string) : string :=
  string_of_list_ascii (rev (list_ascii_of_string s)).

Definition rstrip_by (drop : ascii -> bool) (s : string) : string :=
  rev_string (lstrip_by drop (rev_string s)).

(** [s.strip()] and [s.rstrip(chars)] for a one-character [chars]. *)
Definition strip (s : string) : string :=
  rstrip_by isspace (lstrip_by isspace s).

Definition rstrip_char (c : ascii) (s : string) : string :=
  rstrip_by (Ascii.eqb c) s.

End Py.

(** ** Exceptions and results *)

(** The exceptions the modelled code raises or lets through.  [PyException]
    is any other subclass of [Exception] (what a provider SDK raises);
    [PyBaseException] is one outside [Exception] (a cancellation, a keyboard
    interrupt), which [except Exception] does not catch. *)
Inductive exn : Type :=
| TavilySearchError (msg : string)
| KeyError (key : string)
| PyException (msg : string)
| PyBaseException (msg : string)
| RetryError (last : exn)
| ValueError (msg : string)
| InvalidUpdateError (key : string)
| GraphRecursionError.

Inductive result (A : Type) : Type :=
| Ok (a : A)
| Raise (e : exn).
Arguments Ok {A} a.
Arguments Raise {A} e.

(** [isinstance(e, Exception)]. *)
Definition is_Exception (e : exn) : bool :=
  match e with
  | PyBaseException _ => false
  | _ => true
  end.

(** [str(e)], as an f-string formats an exception: the message, and for a
    [KeyError] the [repr] of its key. *)
Fixpoint str_exn (e : exn) : string :=
  match e with
  | TavilySearchError m | PyException m | PyBaseException m | ValueError m => m
  | InvalidUpdateError k => "Can receive only one value per step: " +:+ k
  | KeyError k => "'" +:+ k +:+ "'"
  | RetryError last => "RetryError[" +:+ str_exn last +:+ "]"
  | GraphRecursionError => "Recursion limit reached"
  end.

(** ** agent/tavily_search.py: the evidence filter *)

(** One entry of the provider's ["results"] list.  It is a dict; the filter
    reads the keys ["score"], ["title"] and ["content"] only, and a key that
    is absent is [None] here. *)
Record tavily_result : Type := {
  title : option string;
  content : option string;
  score : option float;
}.

(** The provider's response dict, of which only ["results"] is read. *)
Record tavily_response : Type := {
  results : option (list tavily_result);
}.

(** [l[:n]] for a Python [int] [n]: a negative [n] counts from the end. *)
Definition slice_to {A : Type} (n : Z) (l : list A) : list A :=
  if (0 <=? n)%Z then firstn (Z.to_nat n) l
  else firstn (length l - Z.to_nat (- n)) l.

(** [sorted] is stable and compares keys with [<] only.  On keys that are
    numbers [<] is a strict weak order, and the list a stable sort leaves is
    then fixed by the input: it is what insertion, the simplest stable sort,
    leaves.  That is the domain of the definitions below.  With a NaN among
    the keys [<] is no order; the list that the interpreter's sort leaves
    then depends on how that sort looks for runs, which differs between
    releases of the interpreter, and is not given here.  The theorems on
    the filter either assume scores that are numbers or hold for the
    entries in any order.

    [insert_by] puts [x], which stood before every element of [l], in
    front of the first element whose key is not below its own. *)
Fixpoint insert_by {A : Type} (key : A -> float) (x : A) (l : list A)
  : list A :=
  match l with
  | [] => [x]
  | y :: l' =>
      if PrimFloat.ltb (key y) (key x) then y :: insert_by key x l'
      else x :: y :: l'
  end.

Definition sort_by {A : Type} (key : A -> float) (l : list A) : list A :=
  fold_right (insert_by key) [] l.

(** [sorted(l, key=key, reverse=True)]: the list is reversed, sorted in
    ascending order and reversed again, which keeps equal keys in their
    original order. *)
Definition sorted_reverse {A : Type} (key : A -> float) (l : list A)
  : list A :=
  rev (sort_by key (rev l)).

(** [r.get("score", 0)]. *)
Definition get_score (r : tavily_result) : float :=
  match score r with
  | Some x => x
  | None => 0%float
  end.

(** The f-string ["{r['title']}:\n{r['content']}\n\n"]; the title is looked
    up first. *)
Definition format_part (r : tavily_result) : result string :=
  match title r with
  | None => Raise (KeyError "title")
  | Some t =>
      match content r with
      | None => Raise (KeyError "content")
      | Some c => Ok (t +:+ ":" +:+ Py.nl +:+ c +:+ Py.nl +:+ Py.nl)
      end
  end.

(** The list comprehension over [filtered]: the first lookup that fails
    ends it. *)
Fixpoint format_parts (l : list tavily_result) : result (list string) :=
  match l with
  | [] => Ok []
  | r :: l' =>
      match format_part r with
      | Raise e => Raise e
      | Ok p =>
          match format_parts l' with
          | Raise e => Raise e
          | Ok ps => Ok (p :: ps)
          end
      end
  end.

(** The kept entries: [filtered] of the source. *)
Definition filtered_results (rs : list tavily_result)
    (score_max_diff : float) (max_results : Z) : list tavily_result :=
  let sorted_results := sorted_reverse get_score rs in
  match sorted_results with
  | [] => []
  | first :: _ =>
      let top_score := get_score first in
      slice_to max_results
        (List.filter (fun r => PrimFloat.leb
                            (PrimFloat.sub top_score (get_score r))
                            score_max_diff)
                sorted_results)
  end.

Definition format_context_from_tavily (response : tavily_response)
    (score_max_diff : float) (max_results : Z) : result string :=
  let rs := match results response with Some l => l | None => [] end in
  match rs with
  | [] => Ok "No relevant information found."
  | _ :: _ =>
      let filtered := filtered_results rs score_max_diff max_results in
      match filtered with
      | [] => Ok "No high-confidence sources available."
      | _ :: _ =>
          match format_parts filtered with
          | Raise e => Raise e
          | Ok context_parts => Ok (Py.join (Py.nl +:+ Py.nl) context_parts)
          end
      end
  end.

(** The defaults of the signature. *)
#[local] Set Warnings "-inexact-float".
Definition default_score_max_diff : float := 0.08%float.
#[local] Set Warnings "inexact-float".
Definition default_max_results : Z := 4%Z.

(** ** The collaborators *)

(** A value decoded by [json.loads]; a number keeps its lexeme. *)
#[local] Set Warnings "-register-all".
Inductive json : Type :=
| JNull
| JBool (b : bool)
| JNumber (lexeme : string)
| JString (s : string)
| JArray (items : list json)
| JObject (members : list (string * json)).

(** What the pipeline takes from outside: the environment variable read at
    import, the search call of the retrieval SDK (key, query, depth), the
    chat call of the generation SDK (prompt), and the JSON decoder.  Each
    remote call maps the state of the world to its outcome and the next
    state, so successive calls may answer differently. *)
Class Providers : Type := {
  world : Type;
  TAVILY_API_KEY : option string;
  tavily_client_search :
    string -> string -> string -> world -> result tavily_response * world;
  cohere_invoke : string -> world -> result string * world;
  json_loads : string -> result json;
}.

(** ** tenacity's retry loop *)

(** The arguments of [retry(...)]: what [reraise], [stop], [wait] and
    [retry] are called with is the number of the attempt just made (from
    1) and, for [retry], the exception it raised. *)
Record Retrying : Type := {
  reraise : bool;
  stop : nat -> bool;
  wait : nat -> Z;
  retry : exn -> bool;
}.

(** [stop_after_attempt(n)]. *)
Definition stop_after_attempt (max_attempt_number attempt_number : nat)
  : bool :=
  (max_attempt_number <=? attempt_number)%nat.

(** [wait_exponential(multiplier, min, max)], with [exp_base] 2:
    [max(max(0, min), min(multiplier * 2 ** (attempt_number - 1), max))]. *)
Definition wait_exponential (multiplier min max : Z) (attempt_number : nat)
  : Z :=
  let exp := (2 ^ (Z.of_nat attempt_number - 1))%Z in
  let result := (multiplier * exp)%Z in
  Z.max (Z.max 0 min) (Z.min result max).

(** [retry_if_exception_type(TavilySearchError)]. *)
Definition is_TavilySearchError (e : exn) : bool :=
  match e with
  | TavilySearchError _ => true
  | _ => false
  end.

(** What the loop does, in order. *)
Inductive event (A : Type) : Type :=
| Attempt (attempt_number : nat) (outcome : result A)
| Sleep (seconds : Z).
Arguments Attempt {A} attempt_number outcome.
Arguments Sleep {A} seconds.

(** The loop of [Retrying.__call__]: call; a result, or an exception that
    [retry] does not select, goes to the caller as it is; otherwise, when
    [stop] says so, the last exception is raised again ([reraise]) or a
    [RetryError] around it; otherwise sleep and call again.  The source
    loops with [while True]; [fuel] bounds the number of calls, and [None]
    is a loop that has not ended within it. *)
Fixpoint retry_loop {S A : Type} (fuel : nat) (r : Retrying)
    (fn : S -> result A * S) (attempt_number : nat) (w : S)
  : option (result A * list (event A) * S) :=
  match fuel with
  | O => None
  | Datatypes.S fuel' =>
      let '(outcome, w1) := fn w in
      let ev := Attempt attempt_number outcome in
      match outcome with
      | Ok _ => Some (outcome, [ev], w1)
      | Raise e =>
          if negb (retry r e) then Some (outcome, [ev], w1)
          else if stop r attempt_number
          then Some (Raise (if reraise r then e else RetryError e), [ev], w1)
          else
            match retry_loop fuel' r fn (Datatypes.S attempt_number) w1 with
            | None => None
            | Some (res, evs, w2) =>
                Some (res, ev :: Sleep (wait r attempt_number) :: evs, w2)
            end
      end
  end.

(** The traces the loop can leave from attempt [n] on, with what the caller
    gets. *)
Inductive retry_trace {A : Type} (r : Retrying)
  : nat -> list (event A) -> result A -> Prop :=
| trace_returned (n : nat) (a : A) :
    retry_trace r n [Attempt n (Ok a)] (Ok a)
| trace_not_selected (n : nat) (e : exn) :
    retry r e = false ->
    retry_trace r n [Attempt n (Raise e)] (Raise e)
| trace_stopped (n : nat) (e : exn) :
    retry r e = true -> stop r n = true ->
    retry_trace r n [Attempt n (Raise e)]
      (Raise (if reraise r then e else RetryError e))
| trace_again (n : nat) (e : exn) (evs : list (event A)) (res : result A) :
    retry r e = true -> stop r n = false ->
    retry_trace r (S n) evs res ->
    retry_trace r n (Attempt n (Raise e) :: Sleep (wait r n) :: evs) res.

(** The number of calls in a trace, and the sleeps in order. *)
Fixpoint attempts {A : Type} (evs : list (event A)) : nat :=
  match evs with
  | [] => 0
  | Attempt _ _ :: evs' => S (attempts evs')
  | Sleep _ :: evs' => attempts evs'
  end.

Fixpoint sleeps {A : Type} (evs : list (event A)) : list Z :=
  match evs with
  | [] => []
  | Attempt _ _ :: evs' => sleeps evs'
  | Sleep t :: evs' => t :: sleeps evs'
  end.

(** ** agent/tavily_search.py: the retried search *)

(** The decorator's arguments. *)
Definition tavily_retrying : Retrying := {|
  reraise := true;
  stop := stop_after_attempt 3;
  wait := wait_exponential 1 2 10;
  retry := is_TavilySearchError;
|}.

Section TavilySearch.
Context `{Providers}.

(** The [try] block with its handler: whatever [Exception] the SDK or the
    filter raises comes out as a [TavilySearchError]. *)
Definition search_and_format (key query search_depth : string) (w : world)
  : result string * world :=
  let '(r, w1) := tavily_client_search key query search_depth w in
  let formatted :=
    match r with
    | Ok response =>
        format_context_from_tavily response
          default_score_max_diff default_max_results
    | Raise e => Raise e
    end in
  match formatted with
  | Ok context => (Ok context, w1)
  | Raise e =>
      if is_Exception e
      then (Raise (TavilySearchError ("[Tavily SDK Error] " +:+ str_exn e)), w1)
      else (Raise e, w1)
  end.

(** The body of [tavily_search], one attempt.  [not TAVILY_API_KEY] holds
    when the variable is unset or set to the empty string. *)
Definition tavily_search_body (query search_depth : string) (w : world)
  : result string * world :=
  if (400 <? String.length query)%nat
  then (Raise (TavilySearchError
                 "Query is too long. Max query length is 400 characters."), w)
  else
    match TAVILY_API_KEY with
    | Some key =>
        if String.eqb key ""
        then (Raise (TavilySearchError "Tavily API key not found."), w)
        else search_and_format key query search_depth w
    | None => (Raise (TavilySearchError "Tavily API key not found."), w)
    end.

(** The decorated function, with the calls it made and the sleeps between
    them. *)
Definition tavily_search_trace (fuel : nat) (query search_depth : string)
    (w : world) : option (result string * list (event string) * world) :=
  retry_loop fuel tavily_retrying (tavily_search_body query search_depth) 1 w.

End TavilySearch.

(** ** agent/llm_response.py *)

(** [re.sub(r"```(?:json)?\s*", "", s)]: every fence, with the word json
    after it when it is there and the white space that follows, is removed;
    the scan goes on after the removed text.  Each step consumes a
    character, so [String.length s] steps are enough. *)
Fixpoint remove_fences (fuel : nat) (s : string) : string :=
  match fuel, s with
  | O, _ => s
  | _, EmptyString => EmptyString
  | S fuel', String c s' =>
      if String.prefix "```" s
      then
        let after_fence := Py.drop 3 s in
        let after_word :=
          if String.prefix "json" after_fence then Py.drop 4 after_fence
          else after_fence in
        remove_fences fuel' (Py.lstrip_by Py.isspace after_word)
      else String c (remove_fences fuel' s')
  end.

Definition re_sub_fences (s : string) : string :=
  remove_fences (String.length s) s.

(** [isinstance(parsed, list) and all(isinstance(q, str) for q in parsed)],
    with the strings when it holds. *)
Fixpoint all_strings (items : list json) : option (list string) :=
  match items with
  | [] => Some []
  | JString s :: items' =>
      match all_strings items' with
      | Some l => Some (s :: l)
      | None => None
      end
  | _ :: _ => None
  end.

Definition list_of_strings (parsed : json) : option (list string) :=
  match parsed with
  | JArray items => all_strings items
  | _ => None
  end.

Definition default_max_subqueries : Z := 15%Z.

Section LLM.
Context `{Providers}.

(** [LLM.__call__] without streaming: [client(messages).content]. *)
Definition llm_call (prompt : string) (w : world) : result string * world :=
  cohere_invoke prompt w.

Definition answer_prompt (question context : string) : string :=
  Py.text [
    "";
    "                Answer the prompt based on the context.";
    "Context:";
    ""
  ] +:+ context +:+ Py.text [
    "";
    "";
    "Prompt: "
  ] +:+ question +:+ Py.text [
    "";
    "            "
  ].

(** [generate_answer]; the [stream] argument is not read. *)
Definition generate_answer (question context : string) (w : world)
  : result string * world :=
  let '(r, w1) := llm_call (answer_prompt question context) w in
  match r with
  | Ok answer => (Ok answer, w1)
  | Raise e =>
      if is_Exception e
      then (Raise (PyException ("[Error calling Cohere: " +:+ str_exn e +:+ "]")),
            w1)
      else (Raise e, w1)
  end.

Definition subqueries_prompt (query : string) (max_subqueries : Z) : string :=
  Py.text [
    "";
    "        You are a helpful assistant that splits a complex user query into multiple simpler sub-queries.";
    "        Only split the query if it contains multiple distinct questions or requests.";
    "        Don't split into more than "
  ] +:+ Py.str_int max_subqueries +:+ Py.text [
    " sub-queries.";
    "";
    "        Return your result as a Python list of strings in JSON format.";
    "        Do not include explanations or formatting.";
    "";
    "        Example 1:";
    "        Input: " +:+ Py.dq +:+ "What is LangGraph?" +:+ Py.dq;
    "        Output: [" +:+ Py.dq +:+ "What is LangGraph?" +:+ Py.dq +:+ "]";
    "";
    "        Example 2:";
    "        Input: " +:+ Py.dq +:+ "Tell me the revenue, total workers, culture and location of company X" +:+ Py.dq;
    "        Output: [" +:+ Py.dq +:+ "Tell me the revenue of company X" +:+ Py.dq +:+ ", " +:+ Py.dq +:+ "Tell me the total workers of company X" +:+ Py.dq +:+ ", " +:+ Py.dq +:+ "Tell me the culture of company X" +:+ Py.dq +:+ ", " +:+ Py.dq +:+ "Tell me the location of company X" +:+ Py.dq +:+ "]";
    "";
    "        Now, split this query:";
    "        " +:+ Py.dq
  ] +:+ query +:+ Py.text [
    Py.dq;
    "        "
  ].

(** The [try] block of [generate_subqueries] up to [json.loads]. *)
Definition clean_response (raw_response : string) : string :=
  Py.rstrip_char "`" (re_sub_fences (Py.strip raw_response)).

(** [generate_subqueries]: an [Exception] raised by the call or by the
    decoder is caught, and the function then returns [[query]], as it does
    when the decoded value is not a list of strings. *)
Definition generate_subqueries (query : string) (max_subqueries : Z)
    (w : world) : result (list string) * world :=
  let '(r, w1) := llm_call (subqueries_prompt query max_subqueries) w in
  match r with
  | Raise e => if is_Exception e then (Ok [query], w1) else (Raise e, w1)
  | Ok raw_response =>
      match json_loads (clean_response raw_response) with
      | Raise e => if is_Exception e then (Ok [query], w1) else (Raise e, w1)
      | Ok parsed =>
          match list_of_strings parsed with
          | Some l => (Ok (slice_to max_subqueries l), w1)
          | None => (Ok [query], w1)
          end
      end
  end.

(** What the decoder finds in the outcome of the provider call: a list of
    strings, or nothing. *)
Definition decoded_strings (r : result string) : option (list string) :=
  match r with
  | Ok raw_response =>
      match json_loads (clean_response raw_response) with
      | Ok parsed => list_of_strings parsed
      | Raise _ => None
      end
  | Raise _ => None
  end.

End LLM.

(** ** agent/langraph_pipeline.py: state, nodes and routing *)

(** [AgentState].  The engine hands a node the keys written so far, so a key
    that no node has written yet is absent ([None]) and reading it raises
    [KeyError].  The dict a node returns has the same shape: [None] is a key
    the node does not write. *)
Record AgentState : Type := {
  query : option string;
  subqueries : option (list string);
  combined_context : option string;
  response : option string;
  revised_response : option string;
}.

(** [state[key]]. *)
Definition getitem {A : Type} (key : string) (field : option A) : result A :=
  match field with
  | Some v => Ok v
  | None => Raise (KeyError key)
  end.

(** Sequencing of steps that may raise: [x ← r; k] goes on with the value
    of [r] and stops at its exception. *)
#[export] Instance result_bind : MBind result :=
  fun A B (k : A -> result B) (r : result A) =>
    match r with
    | Ok a => k a
    | Raise e => Raise e
    end.

(** The test of [_search_and_context_node] on one sub-query. *)
Definition use_advanced (subquery : string) (subqueries : list string) : bool :=
  ((8 <? length (Py.split subquery)) || (3 <? length subqueries))%nat.

Definition search_depth (subquery : string) (subqueries : list string)
  : string :=
  if use_advanced subquery subqueries then "advanced" else "basic".

(** [_critique_condition]. *)
Definition _critique_condition (state : AgentState) : result string :=
  response ← getitem "response" (response state);
  Ok (if Py.contains "inaccurate" (Py.lower response)
      then "search_context" else "publish").

Section Nodes.
Context `{Providers}.

(** [await tavily_search(...)] as the nodes see it: the outcome of the
    retried call.  Three calls end the loop of [tavily_retrying]
    ([tavily_search_total] below), so the last branch is never taken. *)
Definition tavily_search (query search_depth : string) (w : world)
  : result string * world :=
  match tavily_search_trace 3 query search_depth w with
  | Some (r, _, w1) => (r, w1)
  | None => (Raise (PyBaseException "the retry loop did not end"), w)
  end.

Definition _query_parser_node (state : AgentState) (w : world)
  : result AgentState * world :=
  match getitem "query" (query state) with
  | Raise e => (Raise e, w)
  | Ok query =>
      let '(r, w1) := generate_subqueries query default_max_subqueries w in
      (l ← r;
       Ok {| query := None; subqueries := Some l; combined_context := None;
             response := None; revised_response := None |}, w1)
  end.

(** The loop of [_search_and_context_node] over the sub-queries that are
    left; [all_subqueries] is [state["subqueries"]], whose length decides
    the depth.  The first search that raises ends the node. *)
Fixpoint search_each (all_subqueries todo : list string) (w : world)
  : result (list string) * world :=
  match todo with
  | [] => (Ok [], w)
  | subquery :: todo' =>
      let depth := search_depth subquery all_subqueries in
      let '(r, w1) := tavily_search subquery depth w in
      match r with
      | Raise e => (Raise e, w1)
      | Ok context =>
          let '(rest, w2) := search_each all_subqueries todo' w1 in
          (snippets ← rest; Ok (context :: snippets), w2)
      end
  end.

Definition _search_and_context_node (state : AgentState) (w : world)
  : result AgentState * world :=
  match getitem "subqueries" (subqueries state) with
  | Raise e => (Raise e, w)
  | Ok subqueries =>
      let '(r, w1) := search_each subqueries subqueries w in
      (snippets ← r;
       Ok {| query := None; subqueries := None;
             combined_context := Some (Py.join (Py.nl +:+ Py.nl) snippets);
             response := None; revised_response := None |}, w1)
  end.

Definition _llm_node (state : AgentState) (w : world)
  : result AgentState * world :=
  match (question ← getitem "query" (query state);
         context ← getitem "combined_context" (combined_context state);
         Ok (question, context)) with
  | Raise e => (Raise e, w)
  | Ok (question, context) =>
      let '(r, w1) := generate_answer question context w in
      (response ← r;
       Ok {| query := None; subqueries := None; combined_context := None;
             response := Some response; revised_response := None |}, w1)
  end.

Definition critique_prompt (query context response : string) : string :=
  Py.text [
    "";
    "        You are a helpful assistant tasked with reviewing and improving an AI-generated response.";
    "        Here is the original query:";
    "        "
  ] +:+ query +:+ Py.text [
    "";
    "";
    "        Here is the context provided for answering:";
    "        "
  ] +:+ context +:+ Py.text [
    "";
    "";
    "        And here is the response to review:";
    "        "
  ] +:+ response +:+ Py.text [
    "";
    "";
    "        Please check the response for accuracy, clarity, and completeness. If the original response is already excellent, return the word ok.";
    "        Otherwise, return the word inaccurate.";
    "        "
  ].

Definition _critique_and_revise_node (state : AgentState) (w : world)
  : result AgentState * world :=
  match (query ← getitem "query" (query state);
         context ← getitem "combined_context" (combined_context state);
         response ← getitem "response" (response state);
         Ok (critique_prompt query context response, context)) with
  | Raise e => (Raise e, w)
  | Ok (prompt, context) =>
      let '(r, w1) := generate_answer prompt context w in
      (revised_response ← r;
       Ok {| query := None; subqueries := None; combined_context := None;
             response := None; revised_response := Some revised_response |},
       w1)
  end.

(** [_publish_node]: the response is printed and written back unchanged. *)
Definition _publish_node (state : AgentState) (w : world)
  : result AgentState * world :=
  (response ← getitem "response" (response state);
   Ok {| query := None; subqueries := None; combined_context := None;
         response := Some response; revised_response := None |}, w).

End Nodes.

(** ** The graph engine *)

(** [_build_graph] drives langgraph's [StateGraph]: [add_node], [add_edge],
    [add_conditional_edges], [compile].  The engine is a library, not code of
    the repository; this section gives it as the pipeline uses it.

    - The builder keeps the nodes in the order they were added, the
      unconditional edges as a set of pairs, and the conditional edges by
      source node.
    - [compile] validates the topology: every edge starts at a declared node
      or at [START] and ends at a declared node or at [END], and some edge
      leaves [START].
    - A run proceeds in supersteps.  The nodes of one superstep read the same
      state and call the providers in the order the nodes were added; their
      updates are merged and written; the nodes of the next
      superstep are the targets of every unconditional edge leaving a node
      that just ran, together with the target each of its conditional edges
      selects on the state that node has written to.
    - Before each superstep the engine looks at the step limit first and at
      the triggered nodes second: once [recursion_limit] supersteps have
      run it raises [GraphRecursionError], whether or not a node is still
      triggered; otherwise the run ends when no node is triggered.  A run
      of [n] supersteps therefore returns only under a limit above [n].
    - A [recursion_limit] below 1 is refused with a [ValueError] before
      anything runs. *)

Definition START : string := "__start__".
Definition END : string := "__end__".

(** [a | b] on the dicts of [AgentState]: the keys of [update] win. *)
Definition apply_update (state update : AgentState) : AgentState :=
  let pick {A : Type} (new old : option A) : option A :=
    match new with Some _ => new | None => old end in
  {| query := pick (query update) (query state);
     subqueries := pick (subqueries update) (subqueries state);
     combined_context :=
       pick (combined_context update) (combined_context state);
     response := pick (response update) (response state);
     revised_response :=
       pick (revised_response update) (revised_response state) |}.

(** The keys a returned dict writes. *)
Definition key_if_set {A : Type} (key : string) (field : option A)
  : list string :=
  match field with
  | Some _ => [key]
  | None => []
  end.

Definition written_keys (update : AgentState) : list string :=
  key_if_set "query" (query update)
  ++ key_if_set "subqueries" (subqueries update)
  ++ key_if_set "combined_context" (combined_context update)
  ++ key_if_set "response" (response update)
  ++ key_if_set "revised_response" (revised_response update).

(** The updates of one superstep, written in order; a key may receive one
    value per superstep. *)
Fixpoint write_updates (state : AgentState) (seen : list string)
    (updates : list AgentState) : result AgentState :=
  match updates with
  | [] => Ok state
  | u :: updates' =>
      match List.filter (fun k => bool_decide (k ∈ seen)) (written_keys u)
      with
      | k :: _ => Raise (InvalidUpdateError k)
      | [] =>
          write_updates (apply_update state u) (written_keys u ++ seen)
            updates'
      end
  end.

(** A conditional edge: the routing function and its [path_map]. *)
Record Branch : Type := {
  path : AgentState -> result string;
  ends : gmap string string;
}.

Section Engine.
Context `{Providers}.

Definition node_action : Type :=
  AgentState -> world -> result AgentState * world.

Record StateGraph : Type := {
  nodes : list (string * node_action);
  edges : gset (string * string);
  branches : list (string * Branch);
}.

Definition new_StateGraph : StateGraph :=
  {| nodes := []; edges := ∅; branches := [] |}.

Definition node_names (g : StateGraph) : list string := map fst (nodes g).

Definition add_node (name : string) (action : node_action) (g : StateGraph)
  : result StateGraph :=
  if bool_decide (name ∈ node_names g)
  then Raise (ValueError ("Node `" +:+ name +:+ "` already present."))
  else if bool_decide (name = END ∨ name = START)
  then Raise (ValueError ("Node `" +:+ name +:+ "` is reserved."))
  else Ok {| nodes := nodes g ++ [(name, action)];
             edges := edges g; branches := branches g |}.

Definition add_edge (start_key end_key : string) (g : StateGraph)
  : result StateGraph :=
  if bool_decide (start_key = END)
  then Raise (ValueError "END cannot be a start node")
  else if bool_decide (end_key = START)
  then Raise (ValueError "START cannot be an end node")
  else Ok {| nodes := nodes g;
             edges := {[ (start_key, end_key) ]} ∪ edges g;
             branches := branches g |}.

Definition add_conditional_edges (source : string)
    (path : AgentState -> result string) (path_map : gmap string string)
    (g : StateGraph) : result StateGraph :=
  Ok {| nodes := nodes g; edges := edges g;
        branches := branches g ++ [(source, {| path := path;
                                               ends := path_map |})] |}.

(** The sources and the targets that [validate] collects. *)
Definition all_sources (g : StateGraph) : gset string :=
  set_map fst (edges g) ∪ list_to_set (map fst (branches g)).

Definition branch_targets (g : StateGraph) : gset string :=
  list_to_set
    (flat_map (fun sb => map snd (map_to_list (ends (snd sb)))) (branches g)).

Definition all_targets (g : StateGraph) : gset string :=
  set_map snd (edges g) ∪ branch_targets g.

Definition known_source (g : StateGraph) (n : string) : Prop :=
  n ∈ node_names g ∨ n = START.

Definition known_target (g : StateGraph) (n : string) : Prop :=
  n ∈ node_names g ∨ n = END.

(** [validate], called by [compile]. *)
Definition validate (g : StateGraph) : result StateGraph :=
  if negb (forallb (fun n => bool_decide (known_source g n))
             (elements (all_sources g)))
  then Raise (ValueError "Found edge starting at unknown node")
  else if negb (bool_decide (START ∈ all_sources g))
  then Raise (ValueError "Graph must have an entrypoint")
  else if negb (forallb (fun n => bool_decide (known_target g n))
                  (elements (all_targets g)))
  then Raise (ValueError "Found edge ending at unknown node")
  else Ok g.

(** [compile(checkpointer=memory)].  The checkpointer stores the state after
    each superstep under the run's thread id; it does not change what a run
    computes and is not part of the compiled value here. *)
Definition compile (g : StateGraph) : result StateGraph := validate g.

(** The targets triggered by node [n], whose update is [u], in a superstep
    that started from [state]. *)
Definition edge_targets (g : StateGraph) (n : string) : gset string :=
  set_map snd (filter (fun e => e.1 = n) (edges g)).

Fixpoint branch_choices (bs : list (string * Branch)) (n : string)
    (written : AgentState) : result (gset string) :=
  match bs with
  | [] => Ok ∅
  | (source, b) :: bs' =>
      if bool_decide (source = n)
      then
        label ← path b written;
        target ← getitem label (ends b !! label);
        rest ← branch_choices bs' n written;
        Ok ({[ target ]} ∪ rest)
      else branch_choices bs' n written
  end.

Fixpoint triggered (g : StateGraph) (state : AgentState)
    (ran : list (string * AgentState)) : result (gset string) :=
  match ran with
  | [] => Ok ∅
  | (n, u) :: ran' =>
      chosen ← branch_choices (branches g) n (apply_update state u);
      rest ← triggered g state ran';
      Ok (edge_targets g n ∪ chosen ∪ rest)
  end.

(** The nodes of the next superstep, in the order they were added. *)
Definition next_tasks (g : StateGraph) (targets : gset string)
  : list string :=
  List.filter (fun n => bool_decide (n ∈ targets)) (node_names g).

Fixpoint lookup_action (ns : list (string * node_action)) (n : string)
  : option node_action :=
  match ns with
  | [] => None
  | (m, action) :: ns' =>
      if bool_decide (m = n) then Some action else lookup_action ns' n
  end.

Definition lookup_node (g : StateGraph) (n : string) : option node_action :=
  lookup_action (nodes g) n.

(** The nodes of one superstep run on the state the superstep started
    from; the first exception ends the run. *)
Fixpoint run_tasks (g : StateGraph) (tasks : list string)
    (state : AgentState) (w : world)
  : result (list (string * AgentState)) * world :=
  match tasks with
  | [] => (Ok [], w)
  | n :: tasks' =>
      match lookup_node g n with
      | None => (Raise (KeyError n), w)
      | Some action =>
          let '(r, w1) := action state w in
          match r with
          | Raise e => (Raise e, w1)
          | Ok u =>
              let '(rest, w2) := run_tasks g tasks' state w1 in
              (ran ← rest; Ok ((n, u) :: ran), w2)
          end
      end
  end.

(** What a run leaves: its value or exception, and the nodes of each
    superstep that ran, first superstep first. *)
Record run_result : Type := {
  outcome : result AgentState;
  supersteps : list (list string);
  final_world : world;
}.

Definition ended (r : result AgentState) (w : world) : run_result :=
  {| outcome := r; supersteps := []; final_world := w |}.

Definition after_step (tasks : list string) (r : run_result) : run_result :=
  {| outcome := outcome r; supersteps := tasks :: supersteps r;
     final_world := final_world r |}.

(** The loop of the engine; [recursion_limit] is the number of supersteps
    that may still run. *)
Fixpoint run_supersteps (g : StateGraph) (recursion_limit : nat)
    (tasks : list string) (state : AgentState) (w : world) : run_result :=
  match recursion_limit with
  | O => ended (Raise GraphRecursionError) w
  | S limit' =>
      match tasks with
      | [] => ended (Ok state) w
      | _ :: _ =>
          let '(r, w1) := run_tasks g tasks state w in
          after_step tasks
            match r with
            | Raise e => ended (Raise e) w1
            | Ok ran =>
                match (state' ← write_updates state [] (map snd ran);
                       targets ← triggered g state ran;
                       Ok (state', targets)) with
                | Raise e => ended (Raise e) w1
                | Ok (state', targets) =>
                    run_supersteps g limit' (next_tasks g targets) state' w1
                end
            end
      end
  end.

(** [graph.invoke(input, {"recursion_limit": n})]: a limit below 1 is
    refused; otherwise the input is written and the targets of the edges
    leaving [START] run first. *)
Definition invoke (g : StateGraph) (input : AgentState)
    (recursion_limit : nat) (w : world) : run_result :=
  if (recursion_limit <? 1)%nat
  then ended (Raise (ValueError "recursion_limit must be at least 1")) w
  else run_supersteps g recursion_limit
         (next_tasks g (edge_targets g START)) input w.

(** [_build_graph].  The keyword [is_async] given with the retrieval node
    goes to the library and has no part in the topology. *)
Definition _build_graph : result StateGraph :=
  builder ← add_node "parse" _query_parser_node new_StateGraph;
  builder ← add_node "search_context" _search_and_context_node builder;
  builder ← add_node "llm" _llm_node builder;
  builder ← add_node "critique_and_revise" _critique_and_revise_node builder;
  builder ← add_node "publish" _publish_node builder;
  builder ← add_edge START "parse" builder;
  builder ← add_edge "parse" "search_context" builder;
  builder ← add_edge "search_context" "llm" builder;
  builder ← add_edge "llm" "critique_and_revise" builder;
  builder ← add_edge "critique_and_revise" "publish" builder;
  builder ← add_edge "publish" END builder;
  builder ← add_conditional_edges "critique_and_revise" _critique_condition
              {[ "search_context" := "search_context";
                 "publish" := "publish" ]} builder;
  compile builder.

(** A node with an unconditional edge and a conditional edge leaving it. *)
Definition has_both_edges (g : StateGraph) (n : string) : Prop :=
  (exists target, (n, target) ∈ edges g) /\ n ∈ map fst (branches g).

(** What [validate] asks of a topology. *)
Definition valid_topology (g : StateGraph) : Prop :=
  (forall n, n ∈ all_sources g -> known_source g n)
  /\ START ∈ all_sources g
  /\ (forall n, n ∈ all_targets g -> known_target g n).

(** The supersteps of a run in which the retrieval node ran. *)
Definition retrieval_passes (r : run_result) : nat :=
  length (List.filter (fun tasks => bool_decide ("search_context" ∈ tasks))
            (supersteps r)).

(** The topology that [_build_graph] hands to [compile]. *)
Definition pipeline_graph : StateGraph := {|
  nodes := [("parse", _query_parser_node);
            ("search_context", _search_and_context_node);
            ("llm", _llm_node);
            ("critique_and_revise", _critique_and_revise_node);
            ("publish", _publish_node)];
  edges := list_to_set [(START, "parse"); ("parse", "search_context");
                        ("search_context", "llm");
                        ("llm", "critique_and_revise");
                        ("critique_and_revise", "publish");
                        ("publish", END)];
  branches := [("critique_and_revise",
                {| path := _critique_condition;
                   ends := {[ "search_context" := "search_context";
                              "publish" := "publish" ]} |})];
|}.

End Engine.

(** ** Stand-ins for the collaborators *)

(** A decoder for the texts the examples feed it: a JSON array of string
    literals without escapes decodes to that list, white space allowed
    around the brackets, the commas and the literals; any other text is
    refused with the [ValueError] that [json.loads] raises on text that is
    not JSON. *)
Inductive array_state : Type :=
| BeforeArray
| AfterOpen
| InLiteral (chars : string)
| AfterLiteral
| AfterComma
| AfterClose.

Definition json_space (c : ascii) : bool :=
  let n := nat_of_ascii c in
  ((n =? 32) || (n =? 9) || (n =? 10) || (n =? 13))%nat.

Fixpoint decode_array (st : array_state) (items : list json) (s : string)
  : option (list json) :=
  match s with
  | EmptyString =>
      match st with
      | AfterClose => Some (rev items)
      | _ => None
      end
  | String c s' =>
      let n := nat_of_ascii c in
      match st with
      | InLiteral chars =>
          if (n =? 34)%nat
          then decode_array AfterLiteral (JString chars :: items) s'
          else if ((n =? 92) || (n <? 32))%nat then None
          else decode_array (InLiteral (chars +:+ String c "")) items s'
      | _ =>
          if json_space c then decode_array st items s'
          else
            match st with
            | BeforeArray =>
                if (n =? 91)%nat then decode_array AfterOpen items s'
                else None
            | AfterOpen =>
                if (n =? 93)%nat then decode_array AfterClose items s'
                else if (n =? 34)%nat
                then decode_array (InLiteral "") items s'
                else None
            | AfterLiteral =>
                if (n =? 93)%nat then decode_array AfterClose items s'
                else if (n =? 44)%nat then decode_array AfterComma items s'
                else None
            | AfterComma =>
                if (n =? 34)%nat then decode_array (InLiteral "") items s'
                else None
            | _ => None
            end
      end
  end.

Definition decode_string_array (s : string) : result json :=
  match decode_array BeforeArray [] s with
  | Some items => Ok (JArray items)
  | None => Raise (ValueError "Expecting value")
  end.

(** Providers for the examples.  The world counts the calls made to each
    remote provider; the generation provider answers every prompt with
    [answer], the retrieval provider every search with [found]. *)
Record calls : Type := {
  generation_calls : nat;
  retrieval_calls : nat;
}.

Definition stub (key : option string) (answer : result string)
    (found : result tavily_response) : Providers := {|
  world := calls;
  TAVILY_API_KEY := key;
  tavily_client_search := fun _ _ _ w =>
    (found, {| generation_calls := generation_calls w;
               retrieval_calls := S (retrieval_calls w) |});
  cohere_invoke := fun _ w =>
    (answer, {| generation_calls := S (generation_calls w);
                retrieval_calls := retrieval_calls w |});
  json_loads := decode_string_array;
|}.

Definition no_calls : calls :=
  {| generation_calls := 0; retrieval_calls := 0 |}.

(** A retrieval provider that fails its first [failures] calls with a
    server error and answers with [found] from then on. *)
Definition flaky_stub (failures : nat) (found : tavily_response)
  : Providers := {|
  world := calls;
  TAVILY_API_KEY := Some "tvly-key";
  tavily_client_search := fun _ _ _ w =>
    (if (retrieval_calls w <? failures)%nat
     then Raise (PyException "503 Service Unavailable") else Ok found,
     {| generation_calls := generation_calls w;
        retrieval_calls := S (retrieval_calls w) |});
  cohere_invoke := fun _ w =>
    (Ok "ok", {| generation_calls := S (generation_calls w);
                 retrieval_calls := retrieval_calls w |});
  json_loads := fun _ => Raise (ValueError "Expecting value");
|}.

(** A generation provider that plays both roles of a run: it answers the
    critique prompt with [verdict] and every other prompt with [answer]. *)
Definition is_critique_prompt (prompt : string) : bool :=
  Py.contains "Please check the response for accuracy" prompt.

Definition critic_stub (answer verdict : string) (found : tavily_response)
  : Providers := {|
  world := calls;
  TAVILY_API_KEY := Some "tvly-key";
  tavily_client_search := fun _ _ _ w =>
    (Ok found, {| generation_calls := generation_calls w;
                  retrieval_calls := S (retrieval_calls w) |});
  cohere_invoke := fun prompt w =>
    (Ok (if is_critique_prompt prompt then verdict else answer),
     {| generation_calls := S (generation_calls w);
        retrieval_calls := retrieval_calls w |});
  json_loads := decode_string_array;
|}.

(** The state a run starts from: the query alone. *)
Definition input (q : string) : AgentState :=
  {| query := Some q; subqueries := None; combined_context := None;
     response := None; revised_response := None |}.

Definition one_source : tavily_response :=
  {| results := Some [ {| title := Some "Paris";
                          content := Some "Paris is the capital of France.";
                          score := Some 0.5%float |} ] |}.

(** A sub-query of 401 characters. *)
Definition long_query : string := Py.times "a" 401.

(** ** The statements of the specification *)

(** An entry as the specification has it: the three fields are there. *)
Record Evidence : Type := {
  ev_title : string;
  ev_content : string;
  ev_score : float;
}.

Definition as_result (e : Evidence) : tavily_result :=
  {| title := Some (ev_title e); content := Some (ev_content e);
     score := Some (ev_score e) |}.

(** Sorting by score, descending, as the specification words it: the
    entries are taken in order, and each goes behind the entries whose score
    is not below its own. *)
Fixpoint insert_descending {A : Type} (key : A -> float) (x : A)
    (l : list A) : list A :=
  match l with
  | [] => [x]
  | y :: l' =>
      if PrimFloat.ltb (key y) (key x) then x :: y :: l'
      else y :: insert_descending key x l'
  end.

Definition sort_descending {A : Type} (key : A -> float) (l : list A)
  : list A :=
  fold_left (fun sorted x => insert_descending key x sorted) l [].

Definition format_evidence (e : Evidence) : string :=
  ev_title e +:+ ":" +:+ Py.nl +:+ ev_content e +:+ Py.nl +:+ Py.nl.

(** The filter as the specification words it. *)
Definition reference_filter (rs : list Evidence) (scoreMaxDiff : float)
    (maxResults : nat) : string :=
  match sort_descending ev_score rs with
  | [] => "No relevant information found."
  | (first :: _) as sorted =>
      let topScore := ev_score first in
      let kept :=
        firstn maxResults
          (List.filter (fun r => PrimFloat.leb
                              (PrimFloat.sub topScore (ev_score r))
                              scoreMaxDiff)
                  sorted) in
      Py.join (Py.nl +:+ Py.nl) (map format_evidence kept)
  end.

(** The entry with its score written out. *)
Definition with_score (r : tavily_result) : tavily_result :=
  {| title := title r; content := content r; score := Some (get_score r) |}.

(** The scores of the specification's example, with titles to tell the
    entries apart. *)
#[local] Set Warnings "-inexact-float".
Definition example_results : list Evidence :=
  [ {| ev_title := "A"; ev_content := "a"; ev_score := 0.9 |};
    {| ev_title := "B"; ev_content := "b"; ev_score := 0.85 |};
    {| ev_title := "C"; ev_content := "c"; ev_score := 0.83 |};
    {| ev_title := "D"; ev_content := "d"; ev_score := 0.5 |};
    {| ev_title := "E"; ev_content := "e"; ev_score := 0.4 |} ].
#[local] Set Warnings "inexact-float".

(** Routing as the specification words it, on the critic's verdict text. *)
Definition route (verdictText : string) : string :=
  if Py.contains "inaccurate" (Py.lower verdictText)
  then "search_context" else "publish".

(** The depth rule as the specification words it, on the two counts. *)
Definition depth_rule (wordCount totalSubqueryCount : nat) : string :=
  if ((8 <? wordCount) || (3 <? totalSubqueryCount))%nat
  then "advanced" else "basic".

(** A word: not empty, no white space in it. *)
Definition is_word (s : string) : Prop :=
  s <> "" /\ forallb (fun c => negb (Py.isspace c)) (list_ascii_of_string s)
             = true.

(** ** util.py and the console output of the publish node *)

(** What follows gives the text that [pretty_print], [_print_wrapped_under_bar]
    and [_publish_node] send to the console: one string for each call of
    [print], in order.  The width of a line is a natural number here (the
    source passes 80). *)

(** [s.center(width, fill)] for a one-character [fill]: when the padding is
    odd, the extra character goes to the left if the width is odd too, and
    to the right otherwise. *)
Definition center (s : string) (width : nat) (fill : string) : string :=
  let len := String.length s in
  if (width <=? len)%nat then s
  else
    let marg := width - len in
    let left := marg / 2 + (if Nat.odd marg && Nat.odd width then 1 else 0) in
    Py.times fill left +:+ s +:+ Py.times fill (marg - left).

(** [s[:n]]. *)
Fixpoint take (n : nat) (s : string) : string :=
  match n, s with
  | O, _ => EmptyString
  | _, EmptyString => EmptyString
  | S n', String c s' => String c (take n' s')
  end.

(** [s.rfind(" ", 0, stop)]: the last blank among the first [stop]
    characters; [None] stands for -1. *)
Fixpoint rfind_space (s : string) (stop : nat) : option nat :=
  match stop, s with
  | O, _ => None
  | _, EmptyString => None
  | S stop', String c s' =>
      match rfind_space s' stop' with
      | Some i => Some (S i)
      | None => if Ascii.eqb c " " then Some 0 else None
      end
  end.

(** [pretty_print]. *)
Definition pretty_print (text subtext color : string) : list string :=
  let bar := Py.times "=" 80 in
  let spaced_subtext := " " +:+ subtext +:+ " " in
  [bar;
   Py.chr 27 +:+ "[" +:+ color +:+ "m"
   +:+ center spaced_subtext (String.length bar) "=" +:+ Py.chr 27 +:+ "[0m";
   bar]
  ++ (if String.eqb text "" then [] else [Py.nl +:+ text +:+ Py.nl]).

(** The [while] loop of [_print_wrapped_under_bar] on the buffer: the lines
    printed and the buffer left.  [fuel] bounds the number of rounds, and
    [None] is a loop that has not ended within it. *)
Fixpoint wrap_loop (fuel max_width : nat) (buffer : string)
  : option (list string * string) :=
  if (String.length buffer <? max_width)%nat then Some ([], buffer)
  else
    match fuel with
    | O => None
    | S fuel' =>
        let break_idx :=
          match rfind_space buffer max_width with
          | Some i => i
          | None => max_width
          end in
        let line := Py.rstrip_by Py.isspace (take break_idx buffer) in
        match wrap_loop fuel' max_width
                (Py.lstrip_by Py.isspace (Py.drop break_idx buffer)) with
        | Some (lines, rest) => Some (line :: lines, rest)
        | None => None
        end
    end.

(** [_print_wrapped_under_bar].  [char_buffer] is the attribute
    [_char_buffer] of the pipeline object, [None] when the object has no
    such attribute; the function always leaves it set. *)
Definition _print_wrapped_under_bar (fuel : nat) (char_buffer : option string)
    (text : string) (max_width : nat) : option (list string * string) :=
  let buffer := match char_buffer with Some b => b | None => "" end in
  wrap_loop fuel max_width (buffer +:+ text).

(** What [_publish_node] prints for a response, and the attribute it
    leaves: the header, the wrapped lines, and the rest of the buffer if it
    holds more than white space, in which case the attribute is deleted. *)
Definition publish_console (fuel : nat) (char_buffer : option string)
    (response : string) : option (list string * option string) :=
  match _print_wrapped_under_bar fuel char_buffer response 80 with
  | None => None
  | Some (lines, buffer) =>
      let header := pretty_print "" "AI Response" "96" in
      if String.eqb (Py.strip buffer) ""
      then Some (header ++ lines, Some buffer)
      else Some (header ++ lines ++ [Py.strip buffer +:+ Py.nl], None)
  end.

(** A text without its white space. *)
Fixpoint squeeze (s : string) : string :=
  match s with
  | EmptyString => EmptyString
  | String c s' =>
      if Py.isspace c then squeeze s' else String c (squeeze s')
  end.

(** The lines of a console output, one after the other. *)
Definition concat_lines (lines : list string) : string :=
  fold_right String.append "" lines.

(** ** Statements about texts and runs *)

(** A text made of characters that [p] selects, as a strip drops them. *)
Definition all_chars (p : ascii -> bool) (s : string) : bool :=
  forallb p (list_ascii_of_string s).

(** The searches of the retrieval node, one after the other: every
    sub-query of [todo] is searched once, in the order of the list, at the
    depth of the rule, each search from the world that the search before it
    left; [snippets] are the texts returned, and the last search leaves the
    world [w']. *)
Inductive searched_in_turn `{Providers} (all_subqueries : list string)
  : list string -> world -> list string -> world -> Prop :=
| searched_none (w : world) :
    searched_in_turn all_subqueries [] w [] w
| searched_next (subquery : string) (todo : list string) (snippet : string)
    (snippets : list string) (w w1 w' : world) :
    tavily_search subquery (search_depth subquery all_subqueries) w
    = (Ok snippet, w1) ->
    searched_in_turn all_subqueries todo w1 snippets w' ->
    searched_in_turn all_subqueries (subquery :: todo) w
      (snippet :: snippets) w'.

(** The exceptions that end a run of the pipeline: the error of the
    retried search, the error that [generate_answer] raises, an exception
    outside [Exception] that a provider let through, and the engine's step
    limit. *)
Definition ends_a_run (e : exn) : Prop :=
  (exists msg, e = TavilySearchError msg)
  \/ (exists msg, e = PyException msg)
  \/ (exists msg, e = PyBaseException msg)
  \/ e = GraphRecursionError.

(** A run on the query [q] that has ended as the pipeline means it to: with
    one of these exceptions, or after a superstep of the publish node alone,
    in a state that has every key and a response the routing predicate lets
    through. *)
Definition ends_as_meant `{Providers} (q : string) (r : run_result) : Prop :=
  match outcome r with
  | Ok state =>
      (exists before, supersteps r = before ++ [["publish"]])
      /\ exists sqs context answer verdict,
           state = {| query := Some q; subqueries := Some sqs;
                      combined_context := Some context;
                      response := Some answer;
                      revised_response := Some verdict |}
           /\ Py.contains "inaccurate" (Py.lower answer) = false
  | Raise e => ends_a_run e
  end.

(** * Routing after the critique *)

Lemma critique_condition_route (st : AgentState) (text : string) :
  response st = Some text -> _critique_condition st = Ok (route text).
Proof. intros E. unfold _critique_condition, route. rewrite E. reflexivity. Qed.

(** The routing predicate never reads the critic's verdict. *)
Lemma critique_condition_ignores_verdict (st : AgentState) (v : option string) :
  _critique_condition
    {| query := query st; subqueries := subqueries st;
       combined_context := combined_context st; response := response st;
       revised_response := v |}
  = _critique_condition st.
Proof. reflexivity. Qed.

(** [_build_graph] succeeds, with the topology written out above. *)
Lemma build_graph_pipeline `{Providers} : _build_graph = Ok pipeline_graph.
Proof.
  unfold _build_graph, pipeline_graph.
  generalize _query_parser_node _search_and_context_node _llm_node
    _critique_and_revise_node _publish_node _critique_condition.
  intros parse search llm critique publish condition.
  vm_compute. reflexivity.
Qed.

(** C1.  The claim routes on the critic's verdict text: retry exactly when
    the verdict contains "inaccurate".  The code routes on the synthesized
    answer instead.  In the run below the generation provider answers the
    question with a sentence that does not contain the word and answers the
    critique prompt with "inaccurate": the state after the critique node
    holds that verdict, the specified route of that verdict is the retry
    label, and the run still goes from the critique node to publish and
    ends there after one retrieval pass. *)
Theorem critique_verdict_inaccurate_still_publishes :
  let P := critic_stub "Paris is the capital of France." "inaccurate"
             one_source in
  let run := @invoke P pipeline_graph
               (input "What is the capital of France?") 25 no_calls in
  let final :=
    {| query := Some "What is the capital of France?";
       subqueries := Some ["What is the capital of France?"];
       combined_context :=
         Some ("Paris:" +:+ Py.nl +:+ "Paris is the capital of France."
               +:+ Py.nl +:+ Py.nl);
       response := Some "Paris is the capital of France.";
       revised_response := Some "inaccurate" |} in
  outcome run = Ok final
  /\ route "inaccurate" = "search_context"
  /\ _critique_condition final = Ok "publish"
  /\ supersteps run
     = [["parse"]; ["search_context"]; ["llm"]; ["critique_and_revise"];
        ["publish"]].
Proof. vm_compute. repeat split; reflexivity. Qed.

(** The other way round: an answer that contains the word is retried although
    the critic answers "ok", until the engine stops the run. *)
Example critique_verdict_ok_still_retries :
  let P := critic_stub "It would be inaccurate to say Lyon." "ok"
             one_source in
  let run := @invoke P pipeline_graph
               (input "What is the capital of France?") 25 no_calls in
  route "ok" = "publish"
  /\ outcome run = Raise GraphRecursionError
  /\ retrieval_passes run = 8.
Proof. vm_compute. repeat split; reflexivity. Qed.

Example route_examples :
  route "The response is OK." = "publish"
  /\ route "This is inaccurate and misses X." = "search_context"
  /\ route "INACCURATE." = "search_context".
Proof. repeat split; reflexivity. Qed.

(** * Depth selection *)

(** [String.append] does not unfold under [simpl]; its two equations. *)
Lemma append_nil (b : string) : "" +:+ b = b.
Proof. reflexivity. Qed.

Lemma append_cons (c : ascii) (a b : string) :
  String c a +:+ b = String c (a +:+ b).
Proof. reflexivity. Qed.

Create Rewrite HintDb pystr.
#[export] Hint Rewrite append_nil append_cons : pystr.

Lemma append_assoc_char (a : string) (c : ascii) (b : string) :
  (a +:+ String c "") +:+ b = a +:+ String c b.
Proof.
  induction a as [|x a IH]; autorewrite with pystr; congruence.
Qed.

Lemma append_empty_r (a : string) : a +:+ "" = a.
Proof.
  induction a as [|x a IH]; autorewrite with pystr; congruence.
Qed.

(** Reading a run of non-space characters only extends the current word. *)
Lemma split_from_run (w acc rest : string) :
  forallb (fun c => negb (Py.isspace c)) (list_ascii_of_string w) = true ->
  Py.split_from acc (w +:+ rest) = Py.split_from (acc +:+ w) rest.
Proof.
  revert acc. induction w as [|c w IH]; intros acc Hw.
  - now rewrite append_nil, append_empty_r.
  - simpl in Hw. apply andb_prop in Hw as [Hc Hw].
    apply negb_true_iff in Hc.
    rewrite append_cons. simpl. rewrite Hc.
    rewrite IH by assumption. now rewrite append_assoc_char.
Qed.

(** [split] undoes a join of words with one blank. *)
Lemma split_join_words (ws : list string) :
  Forall is_word ws -> Py.split (Py.join " " ws) = ws.
Proof.
  unfold Py.split.
  induction 1 as [|w ws [Hne Hw] Hws IH]; [reflexivity|].
  destruct ws as [|w2 ws].
  - simpl. rewrite <- (append_empty_r w) at 1.
    rewrite split_from_run by assumption. rewrite append_nil. simpl.
    destruct (String.eqb_spec w ""); [contradiction | reflexivity].
  - change (Py.join " " (w :: w2 :: ws))
      with (w +:+ String " " (Py.join " " (w2 :: ws))).
    rewrite split_from_run by assumption.
    rewrite append_nil.
    change (Py.split_from w (String " " (Py.join " " (w2 :: ws))))
      with (if String.eqb w "" then Py.split_from "" (Py.join " " (w2 :: ws))
            else w :: Py.split_from "" (Py.join " " (w2 :: ws))).
    destruct (String.eqb_spec w ""); [contradiction|].
    now rewrite IH.
Qed.

Lemma depth_rule_advanced (w t : nat) :
  depth_rule w t = "advanced" <-> 8 < w \/ 3 < t.
Proof.
  unfold depth_rule.
  destruct (Nat.ltb_spec 8 w), (Nat.ltb_spec 3 t); simpl;
    split; intros; try lia; try reflexivity; try discriminate; auto.
Qed.

(** C8.  The depth handed to the search is a function of the number of
    words of the sub-query and of the number of sub-queries alone: it is
    "advanced" when the first exceeds 8 or the second exceeds 3, and "basic"
    otherwise.  A sub-query made of n words separated by blanks has word
    count n; 8 words give basic and 9 advanced, 3 sub-queries give basic and
    4 advanced. *)
Theorem depth_selection_rule :
  (forall subquery subqueries,
      search_depth subquery subqueries
      = depth_rule (length (Py.split subquery)) (length subqueries))
  /\ (forall s1 s2 l1 l2,
         length (Py.split s1) = length (Py.split s2) ->
         length l1 = length l2 ->
         search_depth s1 l1 = search_depth s2 l2)
  /\ (forall w t, depth_rule w t = "advanced" <-> 8 < w \/ 3 < t)
  /\ (forall w t, depth_rule w t = "basic" <-> w <= 8 /\ t <= 3)
  /\ (forall ws subqueries,
         Forall is_word ws ->
         search_depth (Py.join " " ws) subqueries
         = depth_rule (length ws) (length subqueries))
  /\ depth_rule 8 1 = "basic" /\ depth_rule 9 1 = "advanced"
  /\ depth_rule 1 3 = "basic" /\ depth_rule 1 4 = "advanced"
  /\ search_depth "who founded the company and when was it founded"
       ["a"; "b"; "c"] = "advanced"
  /\ search_depth "who founded the company and when was it"
       ["a"; "b"; "c"] = "basic"
  /\ search_depth "who founded it" ["a"; "b"; "c"; "d"] = "advanced".
Proof.
  assert (Hdef : forall subquery subqueries,
             search_depth subquery subqueries
             = depth_rule (length (Py.split subquery)) (length subqueries))
    by reflexivity.
  split; [exact Hdef|].
  split; [intros s1 s2 l1 l2 E1 E2; rewrite !Hdef, E1, E2; reflexivity|].
  split; [exact depth_rule_advanced|].
  split.
  { intros w t. unfold depth_rule.
    destruct (Nat.ltb_spec 8 w), (Nat.ltb_spec 3 t); simpl;
      split; intros; try lia; try reflexivity; try discriminate. }
  split.
  { intros ws subqueries Hws. rewrite Hdef, split_join_words by assumption.
    reflexivity. }
  repeat split; reflexivity.
Qed.

(** * The retry loop *)

Section RetryLoop.
Context {S A : Type} (r : Retrying) (fn : S -> result A * S).

(** Whatever the loop returns is a trace of the policy. *)
Lemma retry_loop_trace (fuel n : nat) (w w' : S) (res : result A)
    (evs : list (event A)) :
  retry_loop fuel r fn n w = Some (res, evs, w') -> retry_trace r n evs res.
Proof.
  revert n w res evs w'.
  induction fuel as [|fuel IH]; intros n w res evs w' E; [discriminate|].
  simpl in E. destruct (fn w) as [[a|e] w1].
  - injection E as <- <- <-. constructor.
  - destruct (retry r e) eqn:Hretry; simpl in E.
    + destruct (stop r n) eqn:Hstop.
      * injection E as <- <- <-. now constructor.
      * destruct (retry_loop fuel r fn (Datatypes.S n) w1)
          as [[[res1 evs1] w2]|] eqn:Erec; [|discriminate].
        injection E as <- <- <-.
        constructor; eauto.
    + injection E as <- <- <-. now constructor.
Qed.

(** With [stop_after_attempt k] the loop ends: calls [n], [n+1], ... reach
    [k] within the fuel. *)
Lemma retry_loop_ends (k fuel n : nat) (w : S) :
  stop r = stop_after_attempt k -> 0 < fuel -> k < n + fuel ->
  exists res evs w', retry_loop fuel r fn n w = Some (res, evs, w').
Proof.
  intros Hstop. revert n w.
  induction fuel as [|fuel IH]; intros n w Hpos Hk.
  - lia.
  - simpl. destruct (fn w) as [[a|e] w1]; [eauto|].
    destruct (retry r e); simpl; [|eauto].
    rewrite Hstop. unfold stop_after_attempt.
    destruct (Nat.leb_spec k n); [eauto|].
    destruct (IH (Datatypes.S n) w1) as (res & evs & w' & E); [lia..|].
    rewrite E. eauto.
Qed.

(** A trace under [stop_after_attempt k] that starts at attempt [n <= k]
    has at most [k + 1 - n] calls. *)
Lemma retry_trace_attempts (k n : nat) (evs : list (event A))
    (res : result A) :
  stop r = stop_after_attempt k -> retry_trace r n evs res ->
  n <= k -> attempts evs + n <= k + 1.
Proof.
  intros Hstop T. induction T as [n a|n e Hr|n e Hr Hs|n e evs res Hr Hs T IH];
    intros Hn; simpl; try lia.
  rewrite Hstop in Hs. unfold stop_after_attempt in Hs.
  apply Nat.leb_gt in Hs. specialize (IH ltac:(lia)). lia.
Qed.

(** More fuel does not change a result. *)
Lemma retry_loop_fuel (fuel fuel' n : nat) (w : S) x :
  retry_loop fuel r fn n w = Some x -> fuel <= fuel' ->
  retry_loop fuel' r fn n w = Some x.
Proof.
  revert fuel' n w x.
  induction fuel as [|fuel IH]; intros fuel' n w x E Hle; [discriminate|].
  destruct fuel' as [|fuel']; [lia|].
  simpl in *. destruct (fn w) as [[a|e] w1]; [assumption|].
  destruct (retry r e); simpl in *; [|assumption].
  destruct (stop r n); [assumption|].
  destruct (retry_loop fuel r fn (Datatypes.S n) w1) as [y|] eqn:Erec;
    [|destruct x as [[? ?] ?]; discriminate].
  rewrite (IH fuel' _ _ y Erec) by lia. assumption.
Qed.

End RetryLoop.

(** * The retried search *)

Lemma wait_exponential_bounds (n : nat) :
  (2 <= wait_exponential 1 2 10 n <= 10)%Z.
Proof. unfold wait_exponential. lia. Qed.

Lemma wait_exponential_first : wait_exponential 1 2 10 1 = 2%Z.
Proof. reflexivity. Qed.

Section SearchRetry.
Context `{Providers}.

(** The two checks at the head of the body fail without a call to the
    provider. *)
Lemma body_rejects_long_query (query depth : string) (w : world) :
  400 < String.length query ->
  tavily_search_body query depth w
  = (Raise (TavilySearchError
              "Query is too long. Max query length is 400 characters."), w).
Proof.
  intros Hlen. unfold tavily_search_body.
  destruct (Nat.ltb_spec 400 (String.length query)); [reflexivity | lia].
Qed.

Lemma body_rejects_missing_key (query depth : string) (w : world) :
  String.length query <= 400 ->
  TAVILY_API_KEY = None \/ TAVILY_API_KEY = Some "" ->
  tavily_search_body query depth w
  = (Raise (TavilySearchError "Tavily API key not found."), w).
Proof.
  intros Hlen Hkey. unfold tavily_search_body.
  destruct (Nat.ltb_spec 400 (String.length query)); [lia|].
  destruct Hkey as [-> | ->]; reflexivity.
Qed.

(** An attempt that always raises the same [TavilySearchError] is made
    three times, with the two sleeps of the policy in between. *)
Lemma constant_search_error (fuel : nat) (query depth msg : string)
    (w : world) :
  3 <= fuel ->
  (forall w0, tavily_search_body query depth w0
              = (Raise (TavilySearchError msg), w0)) ->
  tavily_search_trace fuel query depth w
  = Some (Raise (TavilySearchError msg),
          [Attempt 1 (Raise (TavilySearchError msg)); Sleep 2;
           Attempt 2 (Raise (TavilySearchError msg)); Sleep 2;
           Attempt 3 (Raise (TavilySearchError msg))],
          w).
Proof.
  intros Hfuel Hbody.
  apply (retry_loop_fuel _ _ 3); [|assumption].
  unfold tavily_search_trace. simpl. rewrite !Hbody. reflexivity.
Qed.

(** Three calls always end the loop, so [tavily_search] is the outcome of
    the retried call. *)
Lemma tavily_search_total (query depth : string) (w : world) :
  exists res evs w1,
    tavily_search_trace 3 query depth w = Some (res, evs, w1)
    /\ tavily_search query depth w = (res, w1).
Proof.
  destruct (retry_loop_ends tavily_retrying
              (tavily_search_body query depth) 3 3 1 w)
    as (res & evs & w1 & E); [reflexivity | lia | lia |].
  exists res, evs, w1. split; [exact E|].
  unfold tavily_search, tavily_search_trace. now rewrite E.
Qed.

End SearchRetry.

(** C2 (as the code has it).  A sub-query longer than 400 characters, and a
    credential that is unset or empty, make every attempt fail before the
    provider is called, with a [TavilySearchError]: the type the policy
    retries.  The call is therefore made three times, with a sleep of 2
    after the first and after the second attempt, the world is left as it
    was, and the caller gets that error. *)
Theorem validation_errors_are_retried `{Providers} (fuel : nat)
    (query depth : string) (w : world) :
  3 <= fuel ->
  400 < String.length query
  \/ TAVILY_API_KEY = None \/ TAVILY_API_KEY = Some "" ->
  exists msg,
    (msg = "Query is too long. Max query length is 400 characters."
     \/ msg = "Tavily API key not found.")
    /\ tavily_search_trace fuel query depth w
       = Some (Raise (TavilySearchError msg),
               [Attempt 1 (Raise (TavilySearchError msg)); Sleep 2;
                Attempt 2 (Raise (TavilySearchError msg)); Sleep 2;
                Attempt 3 (Raise (TavilySearchError msg))],
               w).
Proof.
  intros Hfuel Hbad.
  destruct (Nat.ltb_spec 400 (String.length query)) as [Hlong|Hshort].
  - eexists. split; [left; reflexivity|].
    apply constant_search_error; [assumption|].
    intros w0. now apply body_rejects_long_query.
  - destruct Hbad as [Hlong|Hkey]; [lia|].
    eexists. split; [right; reflexivity|].
    apply constant_search_error; [assumption|].
    intros w0. now apply body_rejects_missing_key.
Qed.

Lemma validation_errors_are_retried_witness :
  3 <= 3
  /\ (400 < String.length long_query
      \/ @TAVILY_API_KEY (stub (Some "tvly-key") (Ok "ok") (Ok one_source))
         = None
      \/ @TAVILY_API_KEY (stub (Some "tvly-key") (Ok "ok") (Ok one_source))
         = Some "")
  /\ exists msg,
      (msg = "Query is too long. Max query length is 400 characters."
       \/ msg = "Tavily API key not found.")
      /\ @tavily_search_trace
           (stub (Some "tvly-key") (Ok "ok") (Ok one_source))
           3 long_query "basic" no_calls
         = Some (Raise (TavilySearchError msg),
                 [Attempt 1 (Raise (TavilySearchError msg)); Sleep 2;
                  Attempt 2 (Raise (TavilySearchError msg)); Sleep 2;
                  Attempt 3 (Raise (TavilySearchError msg))],
                 no_calls).
Proof.
  assert (Hlen : 400 < String.length long_query) by (vm_compute; lia).
  split; [lia|]. split; [left; exact Hlen|].
  apply (@validation_errors_are_retried
           (stub (Some "tvly-key") (Ok "ok") (Ok one_source))
           3 long_query "basic" no_calls); [lia | left; exact Hlen].
Defined.

(** C2 (as stated) fails: a sub-query of 401 characters is attempted three
    times, not once, and the loop sleeps twice before the error reaches the
    caller. *)
Lemma long_query_is_attempted_three_times :
  exists res evs w,
    @tavily_search_trace (stub (Some "tvly-key") (Ok "ok") (Ok one_source))
      3 long_query "basic" no_calls
    = Some (res, evs, w)
    /\ attempts evs = 3 /\ attempts evs <> 1 /\ sleeps evs = [2; 2]%Z.
Proof.
  do 3 eexists. split; [vm_compute; reflexivity|].
  repeat split; [discriminate].
Qed.

(** C5.  The retried search makes at most three calls.  It calls again
    only after a call that raised [TavilySearchError], and sleeps
    [wait_exponential 1 2 10] of that call's number in between: 2 after the
    first call, and never less than 2 nor more than 10.  What the caller
    gets is the outcome of the last call itself: after a third
    [TavilySearchError] that very exception, and any other exception at
    once, with no other error put in its place. *)
Theorem retry_policy_of_tavily_search `{Providers} (fuel : nat)
    (query depth : string) (w : world) :
  3 <= fuel ->
  let body := tavily_search_body query depth in
  let pause := wait_exponential 1 2 10 in
  pause 1 = 2%Z
  /\ (forall n, (2 <= pause n <= 10)%Z)
  /\ exists res evs w',
      tavily_search_trace fuel query depth w = Some (res, evs, w')
      /\ attempts evs <= 3
      /\ ((body w = (res, w')
           /\ (forall m, res <> Raise (TavilySearchError m))
           /\ evs = [Attempt 1 res])
          \/ (exists m1 w1,
                 body w = (Raise (TavilySearchError m1), w1)
                 /\ body w1 = (res, w')
                 /\ (forall m, res <> Raise (TavilySearchError m))
                 /\ evs = [Attempt 1 (Raise (TavilySearchError m1));
                           Sleep (pause 1); Attempt 2 res])
          \/ (exists m1 w1 m2 w2,
                 body w = (Raise (TavilySearchError m1), w1)
                 /\ body w1 = (Raise (TavilySearchError m2), w2)
                 /\ body w2 = (res, w')
                 /\ evs = [Attempt 1 (Raise (TavilySearchError m1));
                           Sleep (pause 1);
                           Attempt 2 (Raise (TavilySearchError m2));
                           Sleep (pause 2); Attempt 3 res])).
Proof.
  intros Hfuel body pause.
  split; [exact wait_exponential_first|].
  split; [apply wait_exponential_bounds|].
  destruct (retry_loop_ends tavily_retrying body 3 fuel 1 w)
    as (res & evs & w' & E); [reflexivity | lia | lia |].
  exists res, evs, w'. split; [exact E|].
  split.
  { pose proof (retry_trace_attempts tavily_retrying 3 1 evs res eq_refl
                  (retry_loop_trace _ _ _ _ _ _ _ _ E)). lia. }
  unfold tavily_search_trace in E. fold body in E.
  destruct fuel as [|[|[|fuel]]]; try lia.
  clearbody body. simpl in E.
  destruct (body w) as [[a|e1] w1] eqn:E1.
  { injection E as <- <- <-. left. repeat split. discriminate. }
  destruct e1 as [m1| | | | | | |]; simpl in E;
    try (injection E as <- <- <-; left; repeat split; discriminate).
  destruct (body w1) as [[a|e2] w2] eqn:E2.
  { injection E as <- <- <-. right. left. exists m1, w1.
    repeat split; try assumption. discriminate. }
  destruct e2 as [m2| | | | | | |]; simpl in E;
    try (injection E as <- <- <-; right; left; exists m1, w1;
         repeat split; try assumption; discriminate).
  right. right. exists m1, w1, m2, w2.
  destruct (body w2) as [[a|e3] w3] eqn:E3.
  { injection E as <- <- <-. repeat split; assumption. }
  destruct e3; simpl in E; injection E as <- <- <-;
    repeat split; assumption.
Qed.

(** A provider that recovers at the third call is called three times; one
    that does not recover leaves its third error, as the handler words it,
    to the caller. *)
Example search_recovers_at_third_attempt :
  @tavily_search_trace (flaky_stub 2 one_source) 3 "capital of France"
    "basic" no_calls
  = Some (Ok ("Paris:" +:+ Py.nl +:+ "Paris is the capital of France."
              +:+ Py.nl +:+ Py.nl),
          [Attempt 1 (Raise (TavilySearchError
                               "[Tavily SDK Error] 503 Service Unavailable"));
           Sleep 2;
           Attempt 2 (Raise (TavilySearchError
                               "[Tavily SDK Error] 503 Service Unavailable"));
           Sleep 2;
           Attempt 3 (Ok ("Paris:" +:+ Py.nl
                          +:+ "Paris is the capital of France."
                          +:+ Py.nl +:+ Py.nl))],
          {| generation_calls := 0; retrieval_calls := 3 |}).
Proof. vm_compute. reflexivity. Qed.

Example search_gives_up_after_third_attempt :
  exists evs,
    @tavily_search_trace (flaky_stub 5 one_source) 3 "capital of France"
      "basic" no_calls
    = Some (Raise (TavilySearchError
                     "[Tavily SDK Error] 503 Service Unavailable"),
            evs, {| generation_calls := 0; retrieval_calls := 3 |})
    /\ attempts evs = 3 /\ sleeps evs = [2; 2]%Z.
Proof. eexists. split; [vm_compute; reflexivity|]. split; reflexivity. Qed.

(** An exception outside [Exception] is neither wrapped nor retried. *)
Example cancellation_is_not_retried :
  @tavily_search_trace
    (stub (Some "tvly-key") (Ok "ok")
       (Raise (PyBaseException "CancelledError")))
    3 "capital of France" "basic" no_calls
  = Some (Raise (PyBaseException "CancelledError"),
          [Attempt 1 (Raise (PyBaseException "CancelledError"))],
          {| generation_calls := 0; retrieval_calls := 1 |}).
Proof. vm_compute. reflexivity. Qed.

Lemma retry_policy_of_tavily_search_witness :
  3 <= 3
  /\ exists res evs w',
      @tavily_search_trace
        (stub (Some "tvly-key") (Ok "ok") (Raise (PyException "503")))
        3 "what is a graph" "basic" no_calls
      = Some (res, evs, w')
      /\ attempts evs <= 3.
Proof.
  split; [lia|].
  destruct (@retry_policy_of_tavily_search
              (stub (Some "tvly-key") (Ok "ok") (Raise (PyException "503")))
              3 "what is a graph" "basic" no_calls)
    as (_ & _ & res & evs & w' & E & Hn & _); [lia|].
  exists res, evs, w'. split; assumption.
Defined.

(** * Scores *)

(** Comparison of binary64 values through their specification. *)
Lemma SFltb_asym (a b : spec_float) : SFltb a b = true -> SFltb b a = false.
Proof.
  unfold SFltb.
  destruct a as [sa|sa| |sa ma ea], b as [sb|sb| |sb mb eb]; simpl;
    try destruct sa; try destruct sb; simpl;
    try discriminate; try reflexivity.
  all: rewrite (Z.compare_antisym ea eb);
    change (Pos.compare_cont Eq ?p ?q) with (Pos.compare p q);
    rewrite (Pos.compare_antisym ma mb);
    destruct (ea ?= eb)%Z, (ma ?= mb)%positive; simpl;
    try discriminate; try reflexivity.
Qed.

Lemma SFltb_negtrans (a b c : spec_float) :
  a <> S754_nan -> b <> S754_nan -> c <> S754_nan ->
  SFltb c b = false -> SFltb b a = false -> SFltb c a = false.
Proof.
  unfold SFltb. intros Ha Hb Hc.
  destruct a as [sa|sa| |sa ma ea], b as [sb|sb| |sb mb eb],
    c as [sc|sc| |sc mc ec];
    try contradiction; simpl;
    try destruct sa; try destruct sb; try destruct sc; simpl;
    try discriminate; try reflexivity.
  all: change (Pos.compare_cont Eq ?p ?q) with (Pos.compare p q).
  all: repeat match goal with
         | |- context [(?x ?= ?y)%Z] => destruct (Z.compare_spec x y)
         | |- context [(?x ?= ?y)%positive] =>
             destruct (Pos.compare_spec x y)
         end; simpl; try discriminate; try reflexivity; try lia.
Qed.

Lemma not_nan_spec (x : float) : is_nan x = false -> Prim2SF x <> S754_nan.
Proof.
  unfold is_nan. intros Hx E. apply negb_false_iff in Hx.
  rewrite FloatAxioms.eqb_spec, E in Hx. discriminate.
Qed.

Lemma finite_not_nan (x : float) : is_finite x = true -> is_nan x = false.
Proof.
  unfold is_finite. intros Hf.
  now apply negb_true_iff, orb_false_iff in Hf as [Hnan _].
Qed.

Lemma ltb_asym (x y : float) :
  PrimFloat.ltb x y = true -> PrimFloat.ltb y x = false.
Proof. rewrite !ltb_spec. apply SFltb_asym. Qed.

Lemma ltb_negtrans (x y z : float) :
  is_nan x = false -> is_nan y = false -> is_nan z = false ->
  PrimFloat.ltb z y = false -> PrimFloat.ltb y x = false ->
  PrimFloat.ltb z x = false.
Proof.
  intros Hx Hy Hz. rewrite !ltb_spec.
  apply SFltb_negtrans; now apply not_nan_spec.
Qed.

Lemma finite_shape (x : float) :
  is_finite x = true ->
  (exists s, Prim2SF x = S754_zero s)
  \/ (exists s m e, Prim2SF x = S754_finite s m e).
Proof.
  unfold is_finite, is_nan, is_infinity. intros Hf.
  apply negb_true_iff, orb_false_iff in Hf as [Hnan Hinf].
  apply negb_false_iff in Hnan.
  rewrite FloatAxioms.eqb_spec in Hnan, Hinf.
  rewrite FloatAxioms.abs_spec in Hinf.
  destruct (Prim2SF x) as [s|s| |s m e] eqn:E; eauto.
  - exfalso. vm_compute in Hinf. discriminate.
  - discriminate.
Qed.

(** A finite score minus itself is zero, exactly. *)
Lemma sub_diag_finite (x : float) :
  is_finite x = true -> PrimFloat.sub x x = 0%float.
Proof.
  intros Hf. apply Prim2SF_inj. rewrite FloatAxioms.sub_spec.
  destruct (finite_shape x Hf) as [[s E]|(s & m & e & E)]; rewrite E.
  - destruct s; reflexivity.
  - unfold SF64sub, SFsub. rewrite Z.sub_diag. reflexivity.
Qed.

(** * Sorting by score *)

Section Sorting.
Context {A : Type} (key : A -> float).

Local Abbreviation below x y := (PrimFloat.ltb (key x) (key y)).
Local Abbreviation numbers l := (Forall (fun x => is_nan (key x) = false) l).
Local Abbreviation ascending :=
  (StronglySorted (fun a b => below b a = false)).
Local Abbreviation descending :=
  (StronglySorted (fun a b => below a b = false)).

Lemma insert_by_perm (x : A) (l : list A) :
  Permutation (insert_by key x l) (x :: l).
Proof.
  induction l as [|y l IH]; simpl; [reflexivity|].
  destruct (below y x); [|reflexivity].
  rewrite IH. apply perm_swap.
Qed.

Lemma sort_by_perm (l : list A) : Permutation (sort_by key l) l.
Proof.
  induction l as [|x l IH]; simpl; [reflexivity|].
  rewrite insert_by_perm. now constructor.
Qed.

(** [sorted] rearranges its input. *)
Lemma sorted_reverse_perm (l : list A) : Permutation (sorted_reverse key l) l.
Proof.
  unfold sorted_reverse.
  rewrite <- Permutation_rev, sort_by_perm. symmetry. apply Permutation_rev.
Qed.

Lemma insert_by_ascending (x : A) (l : list A) :
  is_nan (key x) = false -> numbers l ->
  ascending l -> ascending (insert_by key x l).
Proof.
  intros Hx Hl Hs. induction Hs as [|y l Hs IH Hy]; simpl.
  - repeat constructor.
  - apply Forall_cons in Hl as [Hny Hl].
    destruct (below y x) eqn:Hyx.
    + constructor; [now apply IH|].
      rewrite (insert_by_perm x l). constructor; [|assumption].
      now apply ltb_asym.
    + constructor; [now constructor|].
      constructor; [assumption|].
      rewrite Forall_forall in Hy, Hl |- *. intros z Hz.
      apply (ltb_negtrans _ (key y)); auto.
Qed.

Lemma sort_by_ascending (l : list A) : numbers l -> ascending (sort_by key l).
Proof.
  induction 1 as [|x l Hx Hl IH]; simpl; [constructor|].
  apply insert_by_ascending; [assumption| |assumption].
  now rewrite sort_by_perm.
Qed.

Lemma insert_descending_snoc (x y : A) (l : list A) :
  below y x = true ->
  insert_descending key x (l ++ [y]) = insert_descending key x l ++ [y].
Proof.
  intros Hyx. induction l as [|z l IH]; simpl.
  - now rewrite Hyx.
  - destruct (below z x); [reflexivity | now rewrite IH].
Qed.

Lemma insert_descending_last (x : A) (l : list A) :
  Forall (fun z => below z x = false) l ->
  insert_descending key x l = l ++ [x].
Proof.
  induction 1 as [|z l Hz Hl IH]; simpl; [reflexivity|].
  now rewrite Hz, IH.
Qed.

(** Inserting into the ascending list and reversing is inserting into the
    reversed list from its front. *)
Lemma rev_insert_by (x : A) (l : list A) :
  is_nan (key x) = false -> numbers l -> ascending l ->
  rev (insert_by key x l) = insert_descending key x (rev l).
Proof.
  intros Hx Hl Hs. induction Hs as [|y l Hs IH Hy]; [reflexivity|].
  apply Forall_cons in Hl as [Hny Hl]. simpl.
  destruct (below y x) eqn:Hyx; simpl.
  - rewrite IH by assumption. now rewrite insert_descending_snoc.
  - symmetry. apply (insert_descending_last x (rev l ++ [y])).
    apply Forall_app. split; [|now repeat constructor].
    apply Forall_rev.
    rewrite Forall_forall in Hy, Hl |- *. intros z Hz.
    apply (ltb_negtrans _ (key y)); auto.
Qed.

(** On scores that are numbers, [sorted(..., reverse=True)] is the
    descending sort of the specification. *)
Lemma sorted_reverse_is_sort_descending (l : list A) :
  numbers l -> sorted_reverse key l = sort_descending key l.
Proof.
  unfold sorted_reverse, sort_descending.
  induction l as [|x l IH] using rev_ind; intros Hl; [reflexivity|].
  apply Forall_app in Hl as [Hl Hx]. apply Forall_cons in Hx as [Hx _].
  rewrite rev_app_distr, fold_left_app. simpl.
  rewrite <- IH by assumption.
  apply rev_insert_by; [assumption| |].
  - rewrite sort_by_perm. now apply Forall_rev.
  - apply sort_by_ascending. now apply Forall_rev.
Qed.

Lemma StronglySorted_snoc (R : A -> A -> Prop) (l : list A) (y : A) :
  StronglySorted R l -> Forall (fun z => R z y) l ->
  StronglySorted R (l ++ [y]).
Proof.
  induction 1 as [|z l Hs IH Hz]; intros Hy; simpl.
  - repeat constructor.
  - apply Forall_cons in Hy as [Hzy Hy].
    constructor; [now apply IH|].
    apply Forall_app. split; [assumption | now repeat constructor].
Qed.

(** No entry of the sorted list has a score below that of a later one. *)
Lemma sorted_reverse_descending (l : list A) :
  numbers l -> descending (sorted_reverse key l).
Proof.
  intros Hl. unfold sorted_reverse.
  assert (Hs : ascending (sort_by key (rev l)))
    by (apply sort_by_ascending; now apply Forall_rev).
  induction Hs as [|y l' Hs IH Hy]; simpl; [constructor|].
  apply StronglySorted_snoc; [assumption|].
  now apply Forall_rev.
Qed.

Lemma sorted_reverse_nil (l : list A) : sorted_reverse key l = [] -> l = [].
Proof.
  intros E. apply Permutation_nil. rewrite <- E.
  apply sorted_reverse_perm.
Qed.

End Sorting.

(** Equal scores keep the order of the input. *)
Example sorted_reverse_is_stable :
  map fst
    (sorted_reverse snd
       [("a", 0.5); ("b", 1); ("c", 0.5); ("d", 2); ("e", 1)]%float)
  = ["d"; "b"; "e"; "a"; "c"].
Proof. vm_compute. reflexivity. Qed.

(** * The evidence filter *)

Lemma append_assoc (a b c : string) : (a +:+ b) +:+ c = a +:+ b +:+ c.
Proof.
  induction a as [|x a IH]; autorewrite with pystr; congruence.
Qed.

Lemma last_char_append (a : string) (c : ascii) :
  Py.last_char (a +:+ String c "") = Some c.
Proof.
  induction a as [|x a IH]; [reflexivity|].
  rewrite append_cons. simpl. rewrite IH.
  destruct a; reflexivity.
Qed.

(** A join of parts that all end in a newline ends in a newline. *)
Lemma join_ends_with_newline (sep : string) (parts : list string) :
  parts <> [] ->
  Forall (fun p => exists x, p = x +:+ Py.nl) parts ->
  exists x, Py.join sep parts = x +:+ Py.nl.
Proof.
  intros Hne Hparts. induction Hparts as [|p ps [x ->] Hps IH]; [easy|].
  destruct ps as [|q ps]; [now exists x|].
  destruct IH as [y Hy]; [discriminate|].
  exists ((x +:+ Py.nl) +:+ sep +:+ y).
  change (Py.join sep ((x +:+ Py.nl) :: q :: ps))
    with ((x +:+ Py.nl) +:+ sep +:+ Py.join sep (q :: ps)).
  rewrite Hy. now rewrite !append_assoc.
Qed.

Lemma format_part_ends_with_newline (r : tavily_result) (p : string) :
  format_part r = Ok p -> exists x, p = x +:+ Py.nl.
Proof.
  unfold format_part. destruct (title r) as [t|]; [|discriminate].
  destruct (content r) as [c|]; [|discriminate].
  intros [= <-]. exists (t +:+ ":" +:+ Py.nl +:+ c +:+ Py.nl).
  now rewrite !append_assoc.
Qed.

Lemma format_parts_end_with_newline (l : list tavily_result)
    (ps : list string) :
  format_parts l = Ok ps ->
  Forall (fun p => exists x, p = x +:+ Py.nl) ps /\ length ps = length l.
Proof.
  revert ps. induction l as [|r l IH]; simpl; intros ps E.
  - injection E as <-. split; [constructor | reflexivity].
  - destruct (format_part r) as [p|] eqn:Ep; [|discriminate].
    destruct (format_parts l) as [ps'|]; [|discriminate].
    injection E as <-. destruct (IH ps' eq_refl) as [Hall Hlen].
    split; [|simpl; congruence].
    constructor; [|assumption]. now apply (format_part_ends_with_newline r).
Qed.

(** An entry without title or content makes the formatting raise. *)
Lemma format_parts_incomplete (l : list tavily_result) (r : tavily_result) :
  In r l -> title r = None \/ content r = None ->
  exists k, (k = "title" \/ k = "content")
            /\ format_parts l = Raise (KeyError k).
Proof.
  intros Hin Hr. induction l as [|x l IH]; [destruct Hin|]. simpl.
  destruct (format_part x) as [p|e] eqn:Ep.
  - destruct Hin as [->|Hin].
    + exfalso. unfold format_part in Ep.
      destruct Hr as [Hr|Hr]; rewrite Hr in Ep;
        [|destruct (title r)]; discriminate.
    + destruct (IH Hin) as (k & Hk & ->). eauto.
  - unfold format_part in Ep.
    destruct (title x); [destruct (content x)|]; try discriminate;
      injection Ep as <-; eauto.
Qed.

Lemma format_parts_complete (es : list Evidence) :
  format_parts (map as_result es) = Ok (map format_evidence es).
Proof.
  induction es as [|e es IH]; [reflexivity|].
  simpl. now rewrite IH.
Qed.

(** Sorting, filtering and slicing go through a relabelling of the entries
    that keeps the key. *)
Lemma insert_by_map {A B : Type} (f : B -> A) (key : A -> float) (x : B)
    (l : list B) :
  insert_by key (f x) (map f l)
  = map f (insert_by (fun y => key (f y)) x l).
Proof.
  induction l as [|y l IH]; [reflexivity|]. simpl.
  destruct (PrimFloat.ltb (key (f y)) (key (f x))); simpl; congruence.
Qed.

Lemma sorted_reverse_map {A B : Type} (f : B -> A) (key : A -> float)
    (l : list B) :
  sorted_reverse key (map f l)
  = map f (sorted_reverse (fun y => key (f y)) l).
Proof.
  unfold sorted_reverse.
  rewrite (map_rev f (sort_by (fun y => key (f y)) (rev l))).
  rewrite <- map_rev.
  f_equal. induction (rev l) as [|y l' IH]; [reflexivity|].
  simpl. now rewrite IH, insert_by_map.
Qed.

Lemma filter_map {A B : Type} (f : B -> A) (p : A -> bool) (l : list B) :
  List.filter p (map f l) = map f (List.filter (fun y => p (f y)) l).
Proof.
  induction l as [|y l IH]; [reflexivity|]. simpl.
  destruct (p (f y)); simpl; congruence.
Qed.

Lemma slice_to_map {A B : Type} (f : B -> A) (n : Z) (l : list B) :
  slice_to n (map f l) = map f (slice_to n l).
Proof.
  unfold slice_to. rewrite length_map.
  destruct (0 <=? n)%Z; apply firstn_map.
Qed.

Lemma filtered_results_map {B : Type} (f : B -> tavily_result)
    (l : list B) (d : float) (n : Z) :
  filtered_results (map f l) d n
  = map f
      (match sorted_reverse (fun y => get_score (f y)) l with
       | [] => []
       | (first :: _) as sorted =>
           slice_to n
             (List.filter
                (fun r => PrimFloat.leb
                            (PrimFloat.sub (get_score (f first))
                               (get_score (f r))) d)
                sorted)
       end).
Proof.
  unfold filtered_results. rewrite sorted_reverse_map.
  destruct (sorted_reverse (fun y => get_score (f y)) l) as [|first rest];
    [reflexivity|].
  cbn [map]. rewrite <- slice_to_map. f_equal.
  apply (filter_map f
           (fun r => PrimFloat.leb
                       (PrimFloat.sub (get_score (f first)) (get_score r))
                       d)
           (first :: rest)).
Qed.

Lemma slice_to_of_nat {A : Type} (n : nat) (l : list A) :
  slice_to (Z.of_nat n) l = firstn n l.
Proof.
  unfold slice_to. destruct (Z.leb_spec 0 (Z.of_nat n)); [|lia].
  now rewrite Nat2Z.id.
Qed.

(** The top-ranked entry passes the score test and survives the slice. *)
Lemma top_result_is_kept {B : Type} (key : B -> float) (first : B)
    (rest : list B) (d : float) (n : Z) :
  is_finite (key first) = true -> PrimFloat.leb 0 d = true -> (1 <= n)%Z ->
  exists kept,
    slice_to n
      (List.filter
         (fun r => PrimFloat.leb (PrimFloat.sub (key first) (key r)) d)
         (first :: rest))
    = first :: kept.
Proof.
  intros Hfin Hd Hn. simpl.
  rewrite (sub_diag_finite _ Hfin), Hd.
  unfold slice_to. destruct (Z.leb_spec 0 n); [|lia].
  destruct (Z.to_nat n) as [|k] eqn:Ek; [lia|].
  simpl. eauto.
Qed.

Lemma filtered_results_top (r : tavily_result) (rs : list tavily_result)
    (d : float) (n : Z) :
  Forall (fun x => is_finite (get_score x) = true) (r :: rs) ->
  PrimFloat.leb 0 d = true -> (1 <= n)%Z ->
  exists first rest kept,
    sorted_reverse get_score (r :: rs) = first :: rest
    /\ filtered_results (r :: rs) d n = first :: kept.
Proof.
  intros Hfin Hd Hn. unfold filtered_results.
  destruct (sorted_reverse get_score (r :: rs)) as [|first rest] eqn:Es.
  - apply sorted_reverse_nil in Es. discriminate.
  - assert (Hfirst : is_finite (get_score first) = true).
    { rewrite List.Forall_forall in Hfin. apply Hfin.
      apply (Permutation_in first (sorted_reverse_perm get_score (r :: rs))).
      rewrite Es. now left. }
    destruct (top_result_is_kept get_score first rest d n Hfirst Hd Hn)
      as [kept Hkept].
    exists first, rest, kept. split; [reflexivity | exact Hkept].
Qed.

(** C9.  On a non-empty list of results whose scores are finite numbers (a
    missing score counts as 0), with a non-negative [score_max_diff] and a
    [max_results] of at least 1 -- the defaults 0.08 and 4 in particular --
    the top-ranked entry is kept, so the kept list is not empty and the
    filter does not return "No high-confidence sources available.". *)
Theorem no_high_confidence_branch_is_dead (r : tavily_result)
    (rs : list tavily_result) (d : float) (n : Z) :
  Forall (fun x => is_finite (get_score x) = true) (r :: rs) ->
  PrimFloat.leb 0 d = true -> (1 <= n)%Z ->
  filtered_results (r :: rs) d n <> []
  /\ head (filtered_results (r :: rs) d n)
     = head (sorted_reverse get_score (r :: rs))
  /\ format_context_from_tavily {| results := Some (r :: rs) |} d n
     <> Ok "No high-confidence sources available.".
Proof.
  intros Hfin Hd Hn.
  destruct (filtered_results_top r rs d n Hfin Hd Hn)
    as (first & rest & kept & Es & Ek).
  rewrite Ek, Es. split; [discriminate|]. split; [reflexivity|].
  unfold format_context_from_tavily. cbn [results]. rewrite Ek.
  destruct (format_parts (first :: kept)) as [ps|e] eqn:Ep; [|discriminate].
  destruct (format_parts_end_with_newline _ _ Ep) as [Hall Hlen].
  destruct (join_ends_with_newline (Py.nl +:+ Py.nl) ps) as [x Hx];
    [destruct ps; [discriminate Hlen | discriminate] | assumption |].
  rewrite Hx. intros [= E].
  apply (f_equal Py.last_char) in E.
  unfold Py.nl, Py.chr in E. rewrite last_char_append in E.
  vm_compute in E. discriminate.
Qed.

Lemma no_high_confidence_branch_is_dead_witness :
  Forall (fun x => is_finite (get_score x) = true)
    (map as_result example_results)
  /\ PrimFloat.leb 0 default_score_max_diff = true
  /\ (1 <= default_max_results)%Z
  /\ format_context_from_tavily
       {| results := Some (map as_result example_results) |}
       default_score_max_diff default_max_results
     <> Ok "No high-confidence sources available.".
Proof.
  unfold example_results. cbn [map].
  lazymatch goal with
  | |- Forall ?P ?l /\ _ =>
      assert (Hfin : Forall P l) by (repeat constructor)
  end.
  assert (Hd : PrimFloat.leb 0 default_score_max_diff = true)
    by reflexivity.
  assert (Hn : (1 <= default_max_results)%Z) by (vm_compute; discriminate).
  repeat split; try assumption.
  exact (proj2 (proj2 (no_high_confidence_branch_is_dead _ _
                         default_score_max_diff default_max_results
                         Hfin Hd Hn))).
Defined.

Lemma finite_numbers {B : Type} (key : B -> float) (l : list B) :
  Forall (fun x => is_finite (key x) = true) l ->
  Forall (fun x => is_nan (key x) = false) l.
Proof. apply List.Forall_impl. intros x. apply finite_not_nan. Qed.

(** On entries that have their three fields and finite scores, the filter
    computes the reference algorithm. *)
Lemma filter_is_reference (rs : list Evidence) (d : float) (n : nat) :
  Forall (fun e => is_finite (ev_score e) = true) rs ->
  PrimFloat.leb 0 d = true -> 1 <= n ->
  format_context_from_tavily {| results := Some (map as_result rs) |} d
    (Z.of_nat n)
  = Ok (reference_filter rs d n).
Proof.
  intros Hfin Hd Hn.
  destruct rs as [|e rs]; [reflexivity|].
  pose proof (finite_numbers ev_score _ Hfin) as Hnum.
  pose proof (sorted_reverse_is_sort_descending ev_score _ Hnum) as Hsort.
  unfold format_context_from_tavily, reference_filter.
  cbn [results map].
  change (as_result e :: map as_result rs) with (map as_result (e :: rs)).
  rewrite (filtered_results_map as_result (e :: rs) d (Z.of_nat n)).
  change (fun y => get_score (as_result y)) with ev_score.
  rewrite Hsort.
  destruct (sort_descending ev_score (e :: rs)) as [|first rest] eqn:Es.
  { apply sorted_reverse_nil in Hsort. discriminate. }
  assert (Hfirst : is_finite (ev_score first) = true).
  { rewrite List.Forall_forall in Hfin. apply Hfin.
    apply (Permutation_in first (sorted_reverse_perm ev_score (e :: rs))).
    rewrite Hsort. now left. }
  change (fun r => PrimFloat.leb
                     (PrimFloat.sub (get_score (as_result first))
                        (get_score (as_result r))) d)
    with (fun r => PrimFloat.leb
                     (PrimFloat.sub (ev_score first) (ev_score r)) d).
  destruct (top_result_is_kept ev_score first rest d (Z.of_nat n)
              Hfirst Hd ltac:(lia)) as [kept Hkept].
  rewrite <- slice_to_of_nat. rewrite Hkept.
  change (map as_result (first :: kept))
    with (as_result first :: map as_result kept).
  cbv iota.
  change (as_result first :: map as_result kept)
    with (map as_result (first :: kept)).
  now rewrite format_parts_complete.
Qed.

(** C6.  On every list of entries with finite scores the filter returns
    what the reference algorithm returns: the entries sorted by score,
    descending; those within [scoreMaxDiff] of the top score; the first
    [maxResults] of them; each formatted as title, colon, newline, content
    and two newlines; the parts joined by two newlines.  An empty list gives
    "No relevant information found.".  On the scores 0.9, 0.85, 0.83, 0.5,
    0.4 with the defaults 0.08 and 4, exactly the entries scoring 0.9, 0.85
    and 0.83 are kept. *)
Theorem evidence_filter_is_reference_algorithm :
  (forall (rs : list Evidence) (d : float) (n : nat),
      Forall (fun e => is_finite (ev_score e) = true) rs ->
      PrimFloat.leb 0 d = true -> 1 <= n ->
      format_context_from_tavily {| results := Some (map as_result rs) |} d
        (Z.of_nat n)
      = Ok (reference_filter rs d n))
  /\ (forall (l : list Evidence),
         Forall (fun e => is_nan (ev_score e) = false) l ->
         Permutation (sort_descending ev_score l) l
         /\ StronglySorted
              (fun a b => PrimFloat.ltb (ev_score a) (ev_score b) = false)
              (sort_descending ev_score l))
  /\ format_context_from_tavily {| results := Some [] |}
       default_score_max_diff default_max_results
     = Ok "No relevant information found."
  /\ format_context_from_tavily {| results := None |}
       default_score_max_diff default_max_results
     = Ok "No relevant information found."
  /\ filtered_results (map as_result example_results)
       default_score_max_diff default_max_results
     = map as_result (firstn 3 example_results)
  /\ format_context_from_tavily
       {| results := Some (map as_result example_results) |}
       default_score_max_diff default_max_results
     = Ok (reference_filter example_results default_score_max_diff 4)
  /\ reference_filter example_results default_score_max_diff 4
     = Py.join (Py.nl +:+ Py.nl)
         ["A:" +:+ Py.nl +:+ "a" +:+ Py.nl +:+ Py.nl;
          "B:" +:+ Py.nl +:+ "b" +:+ Py.nl +:+ Py.nl;
          "C:" +:+ Py.nl +:+ "c" +:+ Py.nl +:+ Py.nl].
Proof.
  split; [exact filter_is_reference|].
  split.
  { intros l Hl.
    rewrite <- sorted_reverse_is_sort_descending by assumption.
    split; [apply sorted_reverse_perm | now apply sorted_reverse_descending]. }
  repeat split; vm_compute; reflexivity.
Qed.

Lemma filtered_results_with_score (rs : list tavily_result) (d : float)
    (n : Z) :
  filtered_results (map with_score rs) d n
  = map with_score (filtered_results rs d n).
Proof.
  rewrite filtered_results_map. unfold filtered_results.
  change (fun y => get_score (with_score y)) with get_score.
  destruct (sorted_reverse get_score rs); reflexivity.
Qed.

Lemma format_parts_with_score (l : list tavily_result) :
  format_parts (map with_score l) = format_parts l.
Proof.
  induction l as [|x l IH]; [reflexivity|].
  simpl. rewrite IH. reflexivity.
Qed.

(** Writing the default score into the entries changes nothing. *)
Lemma missing_score_is_zero (rs : list tavily_result) (d : float) (n : Z) :
  format_context_from_tavily {| results := Some (map with_score rs) |} d n
  = format_context_from_tavily {| results := Some rs |} d n.
Proof.
  destruct rs as [|r rs]; [reflexivity|].
  unfold format_context_from_tavily. cbn [results].
  change (map with_score (r :: rs))
    with (with_score r :: map with_score rs) at 1.
  cbv iota.
  change (with_score r :: map with_score rs)
    with (map with_score (r :: rs)).
  rewrite filtered_results_with_score.
  destruct (filtered_results (r :: rs) d n) as [|k ks]; [reflexivity|].
  change (map with_score (k :: ks))
    with (with_score k :: map with_score ks) at 1.
  cbv iota.
  change (with_score k :: map with_score ks)
    with (map with_score (k :: ks)).
  now rewrite format_parts_with_score.
Qed.

(** After a result without score, the ranking holds no result with a
    positive score. *)
Lemma missing_score_ranks_last (rs before after : list tavily_result)
    (r : tavily_result) :
  Forall (fun x => is_nan (get_score x) = false) rs ->
  sorted_reverse get_score rs = before ++ r :: after ->
  score r = None ->
  Forall (fun x => PrimFloat.ltb 0 (get_score x) = false) after.
Proof.
  intros Hnum Es Hr.
  pose proof (sorted_reverse_descending get_score rs Hnum) as Hs.
  rewrite Es in Hs. clear Es.
  induction before as [|b before IH]; simpl in Hs.
  - apply StronglySorted_inv in Hs as [_ Hafter].
    unfold get_score at 1 in Hafter. now rewrite Hr in Hafter.
  - apply StronglySorted_inv in Hs as [Hs _]. now apply IH.
Qed.

(** C10.  A result without "score" is handled as one with score 0: the
    filter returns the same with the 0 written in, and no result with a
    positive score is ranked after it.  A kept result without "title" or
    without "content" makes the filter raise [KeyError] for that key, the
    title being looked up first; non-empty inputs on which this happens
    exist. *)
Theorem evidence_filter_missing_keys :
  (forall rs d n,
      format_context_from_tavily {| results := Some (map with_score rs) |}
        d n
      = format_context_from_tavily {| results := Some rs |} d n)
  /\ (forall r, score r = None -> get_score r = 0%float)
  /\ (forall rs before after r,
         Forall (fun x => is_nan (get_score x) = false) rs ->
         sorted_reverse get_score rs = before ++ r :: after ->
         score r = None ->
         Forall (fun x => PrimFloat.ltb 0 (get_score x) = false) after)
  /\ (forall rs d n r,
         In r (filtered_results rs d n) ->
         title r = None \/ content r = None ->
         exists k,
           (k = "title" \/ k = "content")
           /\ format_context_from_tavily {| results := Some rs |} d n
              = Raise (KeyError k))
  /\ format_context_from_tavily
       {| results := Some [ {| title := None; content := Some "text";
                               score := Some 1%float |} ] |}
       default_score_max_diff default_max_results
     = Raise (KeyError "title")
  /\ format_context_from_tavily
       {| results := Some [ {| title := Some "Top"; content := None;
                               score := None |} ] |}
       default_score_max_diff default_max_results
     = Raise (KeyError "content")
  /\ format_context_from_tavily
       {| results := Some [ {| title := Some "Unscored";
                               content := Some "u"; score := None |};
                            {| title := Some "Scored";
                               content := Some "s";
                               score := Some 0.0625%float |} ] |}
       default_score_max_diff default_max_results
     = Ok (Py.join (Py.nl +:+ Py.nl)
             ["Scored:" +:+ Py.nl +:+ "s" +:+ Py.nl +:+ Py.nl;
              "Unscored:" +:+ Py.nl +:+ "u" +:+ Py.nl +:+ Py.nl]).
Proof.
  split; [exact missing_score_is_zero|].
  split; [intros r Hr; unfold get_score; now rewrite Hr|].
  split; [exact missing_score_ranks_last|].
  split.
  { intros rs d n r Hin Hr.
    destruct (format_parts_incomplete _ r Hin Hr) as (k & Hk & Ek).
    exists k. split; [assumption|].
    unfold format_context_from_tavily. cbn [results].
    destruct rs as [|r0 rs]; [destruct Hin|].
    destruct (filtered_results (r0 :: rs) d n) as [|x xs];
      [destruct Hin|].
    now rewrite Ek. }
  repeat split; vm_compute; reflexivity.
Qed.

(** * Decomposition *)

Section Decomposition.
Context `{Providers}.

(** The strings the decoder finds in the cleaned output, if it finds a list
    of strings. *)
Lemma generate_subqueries_decoded (query raw : string) (n : Z)
    (parsed : json) (l : list string) (w w1 : world) :
  cohere_invoke (subqueries_prompt query n) w = (Ok raw, w1) ->
  json_loads (clean_response raw) = Ok parsed ->
  list_of_strings parsed = Some l ->
  generate_subqueries query n w = (Ok (slice_to n l), w1).
Proof.
  intros Ecall Eparse Elist. unfold generate_subqueries, llm_call.
  now rewrite Ecall, Eparse, Elist.
Qed.

Lemma generate_subqueries_fallback (query raw : string) (n : Z)
    (w w1 : world) :
  cohere_invoke (subqueries_prompt query n) w = (Ok raw, w1) ->
  (exists e, json_loads (clean_response raw) = Raise e
             /\ is_Exception e = true)
  \/ (exists parsed, json_loads (clean_response raw) = Ok parsed
                     /\ list_of_strings parsed = None) ->
  generate_subqueries query n w = (Ok [query], w1).
Proof.
  intros Ecall Hbad. unfold generate_subqueries, llm_call. rewrite Ecall.
  destruct Hbad as [(e & -> & ->)|(parsed & -> & ->)]; reflexivity.
Qed.

Lemma generate_subqueries_call_failed (query : string) (n : Z) (e : exn)
    (w w1 : world) :
  cohere_invoke (subqueries_prompt query n) w = (Raise e, w1) ->
  is_Exception e = true ->
  generate_subqueries query n w = (Ok [query], w1).
Proof.
  intros Ecall He. unfold generate_subqueries, llm_call.
  now rewrite Ecall, He.
Qed.

End Decomposition.

(** C4 (as the code has it).  Provided the provider call and the decoder
    raise nothing outside [Exception], decomposition with the default cap of
    15 returns: the first 15 strings of the decoded list, when the cleaned
    output of the provider decodes to a list of strings; and exactly
    [[query]] otherwise, that is when the call or the decoder raises or the
    decoded value is not a list of strings.  The sequence returned has at
    most 15 elements, and it is empty exactly when the output decodes to the
    empty list. *)
Theorem decomposition_contract `{Providers} (query : string)
    (r : result string) (w w1 : world) :
  cohere_invoke (subqueries_prompt query default_max_subqueries) w
  = (r, w1) ->
  (forall e, r = Raise e -> is_Exception e = true) ->
  (forall raw e, r = Ok raw -> json_loads (clean_response raw) = Raise e ->
                 is_Exception e = true) ->
  exists l,
    generate_subqueries query default_max_subqueries w = (Ok l, w1)
    /\ l = match decoded_strings r with
           | Some strings => firstn 15 strings
           | None => [query]
           end
    /\ length l <= 15
    /\ (l = [] <-> decoded_strings r = Some []).
Proof.
  intros Ecall Hcall Hdecode.
  destruct r as [raw|e].
  - destruct (json_loads (clean_response raw)) as [parsed|e] eqn:Eparse.
    + destruct (list_of_strings parsed) as [strings|] eqn:Elist.
      * exists (firstn 15 strings).
        split.
        { rewrite (generate_subqueries_decoded query raw _ parsed strings
                     w w1 Ecall Eparse Elist).
          change default_max_subqueries with (Z.of_nat 15).
          now rewrite slice_to_of_nat. }
        unfold decoded_strings. rewrite Eparse, Elist.
        split; [reflexivity|]. split; [apply firstn_le_length|].
        split; [|now intros [= ->]].
        destruct strings; [reflexivity | discriminate].
      * exists [query].
        split.
        { apply (generate_subqueries_fallback query raw); [assumption|].
          right. eauto. }
        unfold decoded_strings. rewrite Eparse, Elist.
        split; [reflexivity|]. split; [simpl; lia|].
        split; discriminate.
    + exists [query].
      split.
      { apply (generate_subqueries_fallback query raw); [assumption|].
        left. exists e. split; [exact Eparse | now apply (Hdecode raw)]. }
      unfold decoded_strings. rewrite Eparse.
      split; [reflexivity|]. split; [simpl; lia|].
      split; discriminate.
  - exists [query].
    split.
    { apply (generate_subqueries_call_failed query _ e); [assumption|].
      now apply Hcall. }
    split; [reflexivity|]. split; [simpl; lia|].
    split; discriminate.
Qed.

Lemma decode_string_array_raises (s : string) (e : exn) :
  decode_string_array s = Raise e -> is_Exception e = true.
Proof.
  unfold decode_string_array.
  destruct (decode_array BeforeArray [] s); [discriminate|].
  now intros [= <-].
Qed.

Lemma decomposition_contract_witness :
  exists l,
    @generate_subqueries (stub None (Ok "[]") (Ok one_source))
      "What is LangGraph?" default_max_subqueries no_calls
    = (Ok l, {| generation_calls := 1; retrieval_calls := 0 |})
    /\ length l <= 15.
Proof.
  destruct (@decomposition_contract (stub None (Ok "[]") (Ok one_source))
              "What is LangGraph?" (Ok "[]") no_calls
              {| generation_calls := 1; retrieval_calls := 0 |})
    as (l & E & _ & Hlen & _).
  - reflexivity.
  - discriminate.
  - intros raw e _. apply decode_string_array_raises.
  - exists l. split; assumption.
Defined.

Example decomposition_of_fenced_output :
  fst (@generate_subqueries
         (stub None
            (Ok ("```json" +:+ Py.nl
                 +:+ "[" +:+ Py.dq +:+ "Tell me the revenue of company X"
                 +:+ Py.dq +:+ ", " +:+ Py.dq
                 +:+ "Tell me the location of company X" +:+ Py.dq +:+ "]"
                 +:+ Py.nl +:+ "```"))
            (Ok one_source))
         "Tell me the revenue and location of company X"
         default_max_subqueries no_calls)
  = Ok ["Tell me the revenue of company X";
        "Tell me the location of company X"].
Proof. vm_compute. reflexivity. Qed.

Example decomposition_of_prose_output :
  fst (@generate_subqueries
         (stub None (Ok "Sure! Here are the sub-queries you asked for.")
            (Ok one_source))
         "What is LangGraph?" default_max_subqueries no_calls)
  = Ok ["What is LangGraph?"].
Proof. vm_compute. reflexivity. Qed.

(** C4 (as stated) fails: when the provider answers with the empty JSON
    list, bare or inside a code fence, decomposition returns the empty
    sequence. *)
Lemma decomposition_can_be_empty :
  fst (@generate_subqueries (stub None (Ok "[]") (Ok one_source))
         "What is LangGraph?" default_max_subqueries no_calls)
  = Ok []
  /\ fst (@generate_subqueries
            (stub None (Ok ("```json" +:+ Py.nl +:+ "[]" +:+ Py.nl +:+ "```"))
               (Ok one_source))
            "What is LangGraph?" default_max_subqueries no_calls)
     = Ok [].
Proof. split; vm_compute; reflexivity. Qed.

(** * The topology *)

Section Topology.
Context `{Providers}.

Lemma forallb_elements (P : string -> Prop) `{!forall n, Decision (P n)}
    (X : gset string) :
  forallb (fun n => bool_decide (P n)) (elements X) = true
  <-> forall n, n ∈ X -> P n.
Proof.
  rewrite forallb_forall. split.
  - intros Hall n Hn. apply (bool_decide_unpack (P n)), Is_true_true, Hall.
    now apply list_elem_of_In, elem_of_elements.
  - intros Hall n Hn. apply bool_decide_eq_true, Hall.
    now apply elem_of_elements, list_elem_of_In.
Qed.

(** [compile] accepts exactly the valid topologies, and returns them
    unchanged. *)
Lemma compile_valid (g : StateGraph) : compile g = Ok g <-> valid_topology g.
Proof.
  unfold compile, validate, valid_topology. split.
  - intros E.
    destruct (forallb _ (elements (all_sources g))) eqn:E1;
      [|discriminate E].
    destruct (bool_decide_reflect (START ∈ all_sources g)) as [E2|E2];
      [|discriminate E].
    destruct (forallb _ (elements (all_targets g))) eqn:E3;
      [|discriminate E].
    split; [now apply (forallb_elements (known_source g))|].
    split; [assumption | now apply (forallb_elements (known_target g))].
  - intros (H1 & H2 & H3).
    apply (forallb_elements (known_source g)) in H1.
    apply (forallb_elements (known_target g)) in H3.
    rewrite H1, H3.
    now rewrite (bool_decide_eq_true_2 _ H2).
Qed.

(** Whatever [compile] refuses, it refuses with a [ValueError]. *)
Lemma compile_rejects (g : StateGraph) (e : exn) :
  compile g = Raise e -> exists msg, e = ValueError msg.
Proof.
  unfold compile, validate. intros E.
  repeat match type of E with
         | (if ?b then _ else _) = _ => destruct b
         end; try discriminate E; injection E as <-; eauto.
Qed.

Lemma compile_pipeline : compile pipeline_graph = Ok pipeline_graph.
Proof.
  unfold pipeline_graph.
  generalize _query_parser_node _search_and_context_node _llm_node
    _critique_and_revise_node _publish_node _critique_condition.
  intros parse search llm critique publish condition.
  vm_compute. reflexivity.
Qed.

Lemma pipeline_has_both_edges :
  has_both_edges pipeline_graph "critique_and_revise".
Proof.
  split.
  - exists "publish". unfold pipeline_graph. cbn [edges]. set_solver.
  - unfold pipeline_graph. cbn [branches map fst]. set_solver.
Qed.

End Topology.

(** * Runs of the pipeline *)

Section Runs.
Context `{Providers}.

Local Abbreviation state_of q cc resp rev :=
  {| query := Some q; subqueries := Some [q]; combined_context := cc;
     response := resp; revised_response := rev |}.

(** One superstep that raises nothing, spelled out. *)
Lemma run_supersteps_step (g : StateGraph) (limit : nat)
    (tasks next : list string) (state state' : AgentState) (w w1 : world)
    (ran : list (string * AgentState)) (targets : gset string) :
  tasks <> [] ->
  run_tasks g tasks state w = (Ok ran, w1) ->
  write_updates state [] (map snd ran) = Ok state' ->
  triggered g state ran = Ok targets ->
  next_tasks g targets = next ->
  run_supersteps g (S limit) tasks state w
  = after_step tasks (run_supersteps g limit next state' w1).
Proof.
  intros Hne Erun Ewrite Etrig <-.
  destruct tasks as [|t tasks]; [contradiction|].
  cbn [run_supersteps]. rewrite Erun, Ewrite, Etrig. reflexivity.
Qed.

Lemma run_out_of_steps (g : StateGraph) (tasks : list string)
    (state : AgentState) (w : world) :
  tasks <> [] ->
  run_supersteps g 0 tasks state w = ended (Raise GraphRecursionError) w.
Proof. destruct tasks; [contradiction | reflexivity]. Qed.

(** Where the edges of the pipeline lead. *)
Lemma after_parse (state update : AgentState) :
  triggered pipeline_graph state [("parse", update)]
  = Ok {[ "search_context" ]}.
Proof. vm_compute. reflexivity. Qed.

Lemma after_search (state update : AgentState) :
  triggered pipeline_graph state [("search_context", update)]
  = Ok {[ "llm" ]}.
Proof. vm_compute. reflexivity. Qed.

Lemma after_search_and_publish (state u1 u2 : AgentState) :
  triggered pipeline_graph state [("search_context", u1); ("publish", u2)]
  = Ok {[ "llm"; END ]}.
Proof. vm_compute. reflexivity. Qed.

Lemma after_llm (state update : AgentState) :
  triggered pipeline_graph state [("llm", update)]
  = Ok {[ "critique_and_revise" ]}.
Proof. vm_compute. reflexivity. Qed.

(** After the critique node the unconditional edge triggers publish, and
    the conditional edge triggers what the routing predicate names. *)
Lemma after_critique (state update : AgentState) (label : string) :
  _critique_condition (apply_update state update) = Ok label ->
  label = "search_context" \/ label = "publish" ->
  triggered pipeline_graph state [("critique_and_revise", update)]
  = Ok ({[ "publish" ]} ∪ {[ label ]}).
Proof.
  intros Eroute Hlabel.
  unfold triggered, pipeline_graph. cbn [branches branch_choices].
  rewrite bool_decide_eq_true_2 by reflexivity.
  cbn [path ends]. rewrite Eroute.
  destruct Hlabel as [-> | ->]; vm_compute; reflexivity.
Qed.

Lemma next_search : next_tasks pipeline_graph {[ "search_context" ]}
                    = ["search_context"].
Proof. vm_compute. reflexivity. Qed.

Lemma next_llm : next_tasks pipeline_graph {[ "llm" ]} = ["llm"].
Proof. vm_compute. reflexivity. Qed.

Lemma next_llm_end : next_tasks pipeline_graph {[ "llm"; END ]} = ["llm"].
Proof. vm_compute. reflexivity. Qed.

Lemma next_critique :
  next_tasks pipeline_graph {[ "critique_and_revise" ]}
  = ["critique_and_revise"].
Proof. vm_compute. reflexivity. Qed.

Lemma next_retry :
  next_tasks pipeline_graph ({[ "publish" ]} ∪ {[ "search_context" ]})
  = ["search_context"; "publish"].
Proof. vm_compute. reflexivity. Qed.

Lemma next_publish :
  next_tasks pipeline_graph ({[ "publish" ]} ∪ {[ "publish" ]})
  = ["publish"].
Proof. vm_compute. reflexivity. Qed.

Lemma next_start :
  next_tasks pipeline_graph (edge_targets pipeline_graph START) = ["parse"].
Proof. vm_compute. reflexivity. Qed.

(** The nodes of a run in which generation always answers "inaccurate",
    the decoder refuses that text, and the search of the query succeeds. *)
Section AlwaysInaccurate.
Variable q : string.
Hypothesis generation :
  forall prompt w, exists w1, cohere_invoke prompt w = (Ok "inaccurate", w1).
Hypothesis decoder :
  exists e, json_loads "inaccurate" = Raise e /\ is_Exception e = true.
Hypothesis retrieval :
  forall depth w, exists context w1,
    tavily_search q depth w = (Ok context, w1).

Lemma parse_falls_back (w : world) :
  exists w1,
    _query_parser_node (input q) w
    = (Ok {| query := None; subqueries := Some [q];
             combined_context := None; response := None;
             revised_response := None |}, w1).
Proof.
  unfold _query_parser_node, input. cbn [getitem query].
  unfold generate_subqueries, llm_call.
  destruct (generation (subqueries_prompt q default_max_subqueries) w)
    as [w1 ->].
  change (clean_response "inaccurate") with "inaccurate".
  destruct decoder as (e & -> & ->). eauto.
Qed.

Lemma search_succeeds cc resp rev (w : world) :
  exists context w1,
    _search_and_context_node (state_of q cc resp rev) w
    = (Ok {| query := None; subqueries := None;
             combined_context := Some context; response := None;
             revised_response := None |}, w1).
Proof.
  unfold _search_and_context_node. cbn [getitem subqueries search_each].
  destruct (retrieval (search_depth q [q]) w) as (context & w1 & ->).
  exists context, w1. reflexivity.
Qed.

Lemma llm_answers context resp rev (w : world) :
  exists w1,
    _llm_node (state_of q (Some context) resp rev) w
    = (Ok {| query := None; subqueries := None; combined_context := None;
             response := Some "inaccurate"; revised_response := None |},
       w1).
Proof.
  unfold _llm_node. cbn [getitem query combined_context mbind result_bind].
  unfold generate_answer, llm_call.
  destruct (generation (answer_prompt q context) w) as [w1 ->]. eauto.
Qed.

Lemma critique_answers context resp rev (w : world) :
  exists w1,
    _critique_and_revise_node (state_of q (Some context) (Some resp) rev) w
    = (Ok {| query := None; subqueries := None; combined_context := None;
             response := None; revised_response := Some "inaccurate" |},
       w1).
Proof.
  unfold _critique_and_revise_node.
  cbn [getitem query combined_context response mbind result_bind].
  unfold generate_answer, llm_call.
  destruct (generation
              (answer_prompt (critique_prompt q context resp) context) w)
    as [w1 ->]. eauto.
Qed.

Lemma run_one_task (g : StateGraph) (n : string) (action : node_action)
    (state update : AgentState) (w w1 : world) :
  lookup_node g n = Some action ->
  action state w = (Ok update, w1) ->
  run_tasks g [n] state w = (Ok [(n, update)], w1).
Proof. intros El Ea. cbn [run_tasks]. now rewrite El, Ea. Qed.

Lemma run_two_tasks (g : StateGraph) (n1 n2 : string)
    (a1 a2 : node_action) (state u1 u2 : AgentState) (w w1 w2 : world) :
  lookup_node g n1 = Some a1 -> lookup_node g n2 = Some a2 ->
  a1 state w = (Ok u1, w1) -> a2 state w1 = (Ok u2, w2) ->
  run_tasks g [n1; n2] state w = (Ok [(n1, u1); (n2, u2)], w2).
Proof.
  intros E1 E2 Ea1 Ea2. cbn [run_tasks]. now rewrite E1, Ea1, E2, Ea2.
Qed.

Lemma pipeline_nodes :
  lookup_node pipeline_graph "parse" = Some _query_parser_node
  /\ lookup_node pipeline_graph "search_context"
     = Some _search_and_context_node
  /\ lookup_node pipeline_graph "llm" = Some _llm_node
  /\ lookup_node pipeline_graph "critique_and_revise"
     = Some _critique_and_revise_node
  /\ lookup_node pipeline_graph "publish" = Some _publish_node.
Proof. repeat split. Qed.

(** The four kinds of superstep of such a run. *)
Lemma superstep_parse (limit : nat) (w : world) :
  exists w1,
    run_supersteps pipeline_graph (S limit) ["parse"] (input q) w
    = after_step ["parse"]
        (run_supersteps pipeline_graph limit ["search_context"]
           (state_of q None None None) w1).
Proof.
  destruct (parse_falls_back w) as [w1 E]. exists w1.
  eapply run_supersteps_step;
    [discriminate
    | eapply run_one_task; [apply pipeline_nodes | exact E]
    | reflexivity | apply after_parse | exact next_search].
Qed.

Lemma superstep_search (limit : nat) cc resp rev (w : world) :
  exists context w1,
    run_supersteps pipeline_graph (S limit) ["search_context"]
      (state_of q cc resp rev) w
    = after_step ["search_context"]
        (run_supersteps pipeline_graph limit ["llm"]
           (state_of q (Some context) resp rev) w1).
Proof.
  destruct (search_succeeds cc resp rev w) as (context & w1 & E).
  exists context, w1.
  eapply run_supersteps_step;
    [discriminate
    | eapply run_one_task; [apply pipeline_nodes | exact E]
    | reflexivity | apply after_search | exact next_llm].
Qed.

Lemma superstep_search_and_publish (limit : nat) cc resp rev (w : world) :
  exists context w1,
    run_supersteps pipeline_graph (S limit) ["search_context"; "publish"]
      (state_of q cc (Some resp) rev) w
    = after_step ["search_context"; "publish"]
        (run_supersteps pipeline_graph limit ["llm"]
           (state_of q (Some context) (Some resp) rev) w1).
Proof.
  destruct (search_succeeds cc (Some resp) rev w) as (context & w1 & E).
  exists context, w1.
  eapply run_supersteps_step;
    [discriminate
    | eapply run_two_tasks;
      [apply pipeline_nodes | apply pipeline_nodes | exact E | reflexivity]
    | reflexivity | apply after_search_and_publish | exact next_llm_end].
Qed.

Lemma superstep_llm (limit : nat) context resp rev (w : world) :
  exists w1,
    run_supersteps pipeline_graph (S limit) ["llm"]
      (state_of q (Some context) resp rev) w
    = after_step ["llm"]
        (run_supersteps pipeline_graph limit ["critique_and_revise"]
           (state_of q (Some context) (Some "inaccurate") rev) w1).
Proof.
  destruct (llm_answers context resp rev w) as [w1 E]. exists w1.
  eapply run_supersteps_step;
    [discriminate
    | eapply run_one_task; [apply pipeline_nodes | exact E]
    | reflexivity | apply after_llm | exact next_critique].
Qed.

Lemma superstep_critique (limit : nat) context rev (w : world) :
  exists w1,
    run_supersteps pipeline_graph (S limit) ["critique_and_revise"]
      (state_of q (Some context) (Some "inaccurate") rev) w
    = after_step ["critique_and_revise"]
        (run_supersteps pipeline_graph limit ["search_context"; "publish"]
           (state_of q (Some context) (Some "inaccurate")
              (Some "inaccurate")) w1).
Proof.
  destruct (critique_answers context "inaccurate" rev w) as [w1 E].
  exists w1.
  eapply run_supersteps_step;
    [discriminate
    | eapply run_one_task; [apply pipeline_nodes | exact E]
    | reflexivity
    | apply (after_critique _ _ "search_context"); [reflexivity | now left]
    | exact next_retry].
Qed.

Lemma after_step_passes (tasks : list string) (r : run_result) :
  outcome (after_step tasks r) = outcome r
  /\ length (supersteps (after_step tasks r)) = S (length (supersteps r))
  /\ retrieval_passes (after_step tasks r)
     = (if bool_decide ("search_context" ∈ tasks) then 1 else 0)
       + retrieval_passes r.
Proof.
  repeat split. unfold retrieval_passes, after_step. cbn [supersteps].
  cbn [List.filter]. now destruct (bool_decide ("search_context" ∈ tasks)).
Qed.

Lemma third_of_next (n : nat) : (S n + 2) / 3 = S (n / 3).
Proof.
  replace (S n + 2) with (n + 1 * 3) by lia.
  rewrite Nat.div_add by lia. lia.
Qed.

(** Such a run never leaves the cycle: it uses up whatever number of
    supersteps it is given. *)
Lemma cycle_runs_out (limit : nat) :
  (forall cc resp rev w,
      let r := run_supersteps pipeline_graph limit ["search_context"]
                 (state_of q cc resp rev) w in
      outcome r = Raise GraphRecursionError
      /\ length (supersteps r) = limit
      /\ retrieval_passes r = (limit + 2) / 3)
  /\ (forall cc resp rev w,
         let r := run_supersteps pipeline_graph limit
                    ["search_context"; "publish"]
                    (state_of q cc (Some resp) rev) w in
         outcome r = Raise GraphRecursionError
         /\ length (supersteps r) = limit
         /\ retrieval_passes r = (limit + 2) / 3)
  /\ (forall context resp rev w,
         let r := run_supersteps pipeline_graph limit ["llm"]
                    (state_of q (Some context) resp rev) w in
         outcome r = Raise GraphRecursionError
         /\ length (supersteps r) = limit
         /\ retrieval_passes r = limit / 3)
  /\ (forall context rev w,
         let r := run_supersteps pipeline_graph limit
                    ["critique_and_revise"]
                    (state_of q (Some context) (Some "inaccurate") rev) w in
         outcome r = Raise GraphRecursionError
         /\ length (supersteps r) = limit
         /\ retrieval_passes r = (limit + 1) / 3).
Proof.
  induction limit as [|limit (IHs & IHsp & IHl & IHc)].
  - repeat split; intros; rewrite run_out_of_steps by discriminate;
      reflexivity.
  - split; [|split; [|split]].
    + intros cc resp rev w r. subst r.
      destruct (superstep_search limit cc resp rev w) as (c & w1 & ->).
      destruct (after_step_passes ["search_context"]
                  (run_supersteps pipeline_graph limit ["llm"]
                     (state_of q (Some c) resp rev) w1))
        as (-> & -> & ->).
      destruct (IHl c resp rev w1) as (-> & -> & ->).
      rewrite third_of_next. repeat split.
    + intros cc resp rev w r. subst r.
      destruct (superstep_search_and_publish limit cc resp rev w)
        as (c & w1 & ->).
      destruct (after_step_passes ["search_context"; "publish"]
                  (run_supersteps pipeline_graph limit ["llm"]
                     (state_of q (Some c) (Some resp) rev) w1))
        as (-> & -> & ->).
      destruct (IHl c (Some resp) rev w1) as (-> & -> & ->).
      rewrite third_of_next. repeat split.
    + intros c resp rev w r. subst r.
      destruct (superstep_llm limit c resp rev w) as (w1 & ->).
      destruct (after_step_passes ["llm"]
                  (run_supersteps pipeline_graph limit
                     ["critique_and_revise"]
                     (state_of q (Some c) (Some "inaccurate") rev) w1))
        as (-> & -> & ->).
      destruct (IHc c rev w1) as (-> & -> & ->).
      repeat split.
      change (if bool_decide ("search_context" ∈ ["llm"]) then 1 else 0)
        with 0.
      rewrite Nat.add_0_l. f_equal. lia.
    + intros c rev w r. subst r.
      destruct (superstep_critique limit c rev w) as (w1 & ->).
      destruct (after_step_passes ["critique_and_revise"]
                  (run_supersteps pipeline_graph limit
                     ["search_context"; "publish"]
                     (state_of q (Some c) (Some "inaccurate")
                        (Some "inaccurate")) w1))
        as (-> & -> & ->).
      destruct (IHsp (Some c) "inaccurate" (Some "inaccurate") w1)
        as (-> & -> & ->).
      repeat split.
      change (if bool_decide ("search_context" ∈ ["critique_and_revise"])
              then 1 else 0) with 0.
      rewrite Nat.add_0_l. f_equal. lia.
Qed.

End AlwaysInaccurate.



End Runs.

(** C7 (as the code has it).  [compile] checks the end points of the edges
    and nothing else: it accepts a topology exactly when every edge starts
    at a declared node or at [START], ends at a declared node or at [END],
    and some edge leaves [START]; what it refuses, it refuses with a
    [ValueError].  A node with both an unconditional and a conditional edge
    is no obstacle, and the topology that [_build_graph] compiles has one:
    the critique node.  In a run both edges take effect: publish is
    triggered after every critique, and retrieval with it when the routing
    predicate says so. *)
Theorem compile_accepts_both_kinds_of_edge `{Providers} :
  (forall g, compile g = Ok g <-> valid_topology g)
  /\ (forall g e, compile g = Raise e -> exists msg, e = ValueError msg)
  /\ (forall g n, has_both_edges g n -> valid_topology g -> compile g = Ok g)
  /\ _build_graph = Ok pipeline_graph
  /\ has_both_edges pipeline_graph "critique_and_revise"
  /\ (forall state update label,
         _critique_condition (apply_update state update) = Ok label ->
         label = "search_context" \/ label = "publish" ->
         exists targets,
           triggered pipeline_graph state [("critique_and_revise", update)]
           = Ok targets
           /\ next_tasks pipeline_graph targets
              = if String.eqb label "search_context"
                then ["search_context"; "publish"] else ["publish"]).
Proof.
  split; [exact compile_valid|].
  split; [exact compile_rejects|].
  split; [intros g n _ Hv; now apply compile_valid|].
  split; [exact build_graph_pipeline|].
  split; [exact pipeline_has_both_edges|].
  intros state update label Eroute Hlabel.
  eexists. split; [now apply (after_critique state update label)|].
  destruct Hlabel as [-> | ->]; [exact next_retry | exact next_publish].
Qed.

(** C7 (as stated) fails: the topology of the pipeline has a node with both
    kinds of edge, and [compile] returns it. *)
Lemma pipeline_with_both_edges_compiles :
  let P := stub (Some "tvly-key") (Ok "ok") (Ok one_source) in
  @has_both_edges P (@pipeline_graph P) "critique_and_revise"
  /\ @compile P (@pipeline_graph P) = Ok (@pipeline_graph P)
  /\ @_build_graph P = Ok (@pipeline_graph P).
Proof.
  intros P. split; [apply pipeline_has_both_edges|].
  split; [apply compile_pipeline | apply build_graph_pipeline].
Qed.

(** C3 (as the code has it).  The pipeline keeps no iteration counter and
    takes no bound on the number of retries.  When generation always
    answers "inaccurate", a text the decoder refuses, and the search of the
    query succeeds, routing leads back to retrieval after every critique:
    whatever number of supersteps, at least one, the engine is allowed, the
    run uses them all and ends with the engine's [GraphRecursionError],
    never with a state, after [(limit + 1) / 3] retrieval passes.  (A limit
    of 0 is refused by the engine before anything runs:
    [limit_zero_is_refused] below.) *)
Theorem retry_cycle_is_bounded_by_the_step_limit_only `{Providers}
    (q : string) (limit : nat) (w : world) :
  1 <= limit ->
  (forall prompt w0,
      exists w1, cohere_invoke prompt w0 = (Ok "inaccurate", w1)) ->
  (exists e, json_loads "inaccurate" = Raise e /\ is_Exception e = true) ->
  (forall depth w0,
      exists context w1, tavily_search q depth w0 = (Ok context, w1)) ->
  let run := invoke pipeline_graph (input q) limit w in
  outcome run = Raise GraphRecursionError
  /\ length (supersteps run) = limit
  /\ retrieval_passes run = (limit + 1) / 3.
Proof.
  intros Hlimit Hgen Hdec Hret run. subst run.
  unfold invoke. rewrite next_start.
  destruct limit as [|limit]; [lia|].
  change (S limit <? 1)%nat with false. cbv iota.
  destruct (superstep_parse q Hgen Hdec limit w) as (w1 & ->).
  destruct (after_step_passes ["parse"]
              (run_supersteps pipeline_graph limit ["search_context"]
                 {| query := Some q; subqueries := Some [q];
                    combined_context := None; response := None;
                    revised_response := None |} w1))
    as (-> & -> & ->).
  destruct (cycle_runs_out q Hgen Hret limit) as (Hs & _).
  destruct (Hs None None None w1) as (-> & -> & ->).
  repeat split.
  change (if bool_decide ("search_context" ∈ ["parse"]) then 1 else 0)
    with 0.
  rewrite Nat.add_0_l. f_equal. lia.
Qed.

Lemma retry_cycle_is_bounded_by_the_step_limit_only_witness :
  let P := stub (Some "tvly-key") (Ok "inaccurate") (Ok one_source) in
  let run := @invoke P (@pipeline_graph P) (input "What is LangGraph?") 25
               no_calls in
  1 <= 25
  /\ outcome run = Raise GraphRecursionError
  /\ length (supersteps run) = 25
  /\ retrieval_passes run = (25 + 1) / 3.
Proof.
  intros P. split; [lia|].
  apply (@retry_cycle_is_bounded_by_the_step_limit_only P
           "What is LangGraph?" 25 no_calls).
  - lia.
  - intros prompt w0. eexists. reflexivity.
  - eexists. split; reflexivity.
  - intros depth w0. do 2 eexists. reflexivity.
Defined.

(** C3 (as stated) fails.  With generation always answering "inaccurate",
    the run makes 8 retrieval passes when the engine allows 25 supersteps,
    and it ends with an exception; allowed 9 supersteps it makes 3 passes
    and ends with the same exception, not with a response; allowed 3 it
    makes one pass. *)
Lemma always_inaccurate_run_has_no_degraded_end :
  let P := stub (Some "tvly-key") (Ok "inaccurate") (Ok one_source) in
  let run limit := @invoke P (@pipeline_graph P)
                     (input "What is LangGraph?") limit no_calls in
  (retrieval_passes (run 25) = 8
   /\ outcome (run 25) = Raise GraphRecursionError)
  /\ (retrieval_passes (run 9) = 3
      /\ outcome (run 9) = Raise GraphRecursionError)
  /\ (retrieval_passes (run 3) = 1
      /\ outcome (run 3) = Raise GraphRecursionError).
Proof. vm_compute. repeat split. Qed.

(** A limit of 0 is refused before any node runs, whatever the graph and
    the providers; and a run that needs five supersteps returns under a
    limit of 6, not under a limit of 5. *)
Lemma limit_zero_is_refused `{Providers} (g : StateGraph)
    (input : AgentState) (w : world) :
  invoke g input 0 w
  = ended (Raise (ValueError "recursion_limit must be at least 1")) w.
Proof. reflexivity. Qed.

Example run_of_five_supersteps_needs_a_limit_of_six :
  let P := critic_stub "Paris is the capital of France." "ok" one_source in
  let run limit := @invoke P (@pipeline_graph P)
                     (input "What is the capital of France?") limit
                     no_calls in
  outcome (run 5) = Raise GraphRecursionError
  /\ length (supersteps (run 5)) = 5
  /\ (exists state, outcome (run 6) = Ok state)
  /\ length (supersteps (run 6)) = 5.
Proof.
  vm_compute. repeat split; try reflexivity. eexists. reflexivity.
Qed.

(** * More on the evidence filter *)

Lemma nan_spec (x : float) : is_nan x = true -> Prim2SF x = S754_nan.
Proof.
  unfold is_nan. intros Hx. apply negb_true_iff in Hx.
  rewrite FloatAxioms.eqb_spec in Hx.
  destruct (Prim2SF x) as [s|s| |s m e]; [| |reflexivity|]; exfalso;
    unfold SFeqb, SFcompare in Hx; destruct s;
    rewrite ?Z.compare_refl in Hx;
    change (Pos.compare_cont Eq ?p ?q) with (Pos.compare p q) in Hx;
    rewrite ?Pos.compare_refl in Hx; cbn in Hx; discriminate.
Qed.

Lemma leb_nan_l (x y : float) : is_nan x = true -> PrimFloat.leb x y = false.
Proof.
  intros Hx. rewrite FloatAxioms.leb_spec, (nan_spec x Hx). reflexivity.
Qed.

Lemma leb_nan_r (x y : float) : is_nan y = true -> PrimFloat.leb x y = false.
Proof.
  intros Hy. rewrite FloatAxioms.leb_spec, (nan_spec y Hy).
  destruct (Prim2SF x); reflexivity.
Qed.

Lemma sub_nan_l (x y : float) :
  is_nan x = true -> is_nan (PrimFloat.sub x y) = true.
Proof.
  intros Hx. unfold is_nan.
  rewrite FloatAxioms.eqb_spec, FloatAxioms.sub_spec, (nan_spec x Hx).
  reflexivity.
Qed.

Lemma ltb_irrefl (x : float) : PrimFloat.ltb x x = false.
Proof.
  destruct (PrimFloat.ltb x x) eqn:E; [|reflexivity].
  rewrite (ltb_asym x x E) in E. discriminate E.
Qed.

Lemma slice_to_In {A : Type} (n : Z) (l : list A) (x : A) :
  In x (slice_to n l) -> In x l.
Proof.
  unfold slice_to. intros Hx.
  destruct (0 <=? n)%Z;
    match type of Hx with
    | In _ (firstn ?k _) =>
        rewrite <- (firstn_skipn k l); apply in_or_app; left; exact Hx
    end.
Qed.

Lemma slice_to_length {A : Type} (n : Z) (l : list A) :
  (0 <= n)%Z -> length (slice_to n l) <= Z.to_nat n.
Proof.
  intros Hn. unfold slice_to.
  destruct (Z.leb_spec 0 n); [apply firstn_le_length | lia].
Qed.

Lemma slice_to_nil {A : Type} (n : Z) : slice_to n (@nil A) = [].
Proof. unfold slice_to. destruct (0 <=? n)%Z; apply firstn_nil. Qed.

Lemma filter_none {A : Type} (p : A -> bool) (l : list A) :
  (forall x, In x l -> p x = false) -> List.filter p l = [].
Proof.
  induction l as [|y l IH]; intros Hp; cbn [List.filter]; [reflexivity|].
  rewrite (Hp y (or_introl eq_refl)). apply IH.
  intros x Hx. apply Hp. right. exact Hx.
Qed.

Lemma StronglySorted_filter {A : Type} (R : A -> A -> Prop) (p : A -> bool)
    (l : list A) :
  StronglySorted R l -> StronglySorted R (List.filter p l).
Proof.
  induction 1 as [|x l Hs IH Hx]; cbn [List.filter]; [constructor|].
  destruct (p x); [|exact IH]. constructor; [exact IH|].
  rewrite List.Forall_forall in *. intros y [Hy _]%filter_In.
  apply Hx, Hy.
Qed.

Lemma StronglySorted_firstn {A : Type} (R : A -> A -> Prop) (k : nat)
    (l : list A) :
  StronglySorted R l -> StronglySorted R (firstn k l).
Proof.
  intros Hs. revert k. induction Hs as [|x l Hs IH Hx]; intros [|k];
    cbn [firstn]; try constructor; [apply IH|].
  rewrite List.Forall_forall in *. intros y Hy. apply Hx.
  rewrite <- (firstn_skipn k l). apply in_or_app. left. exact Hy.
Qed.

Lemma StronglySorted_slice_to {A : Type} (R : A -> A -> Prop) (n : Z)
    (l : list A) :
  StronglySorted R l -> StronglySorted R (slice_to n l).
Proof.
  intros Hs. unfold slice_to.
  destruct (0 <=? n)%Z; apply StronglySorted_firstn, Hs.
Qed.

(** The first entry of the sorted list has the highest score. *)
Lemma sorted_reverse_head (rs : list tavily_result) (first : tavily_result)
    (rest : list tavily_result) :
  Forall (fun r => is_nan (get_score r) = false) rs ->
  sorted_reverse get_score rs = first :: rest ->
  In first rs
  /\ Forall (fun x => PrimFloat.ltb (get_score first) (get_score x) = false)
       rs.
Proof.
  intros Hrs E.
  pose proof (sorted_reverse_perm get_score rs) as Hperm.
  pose proof (sorted_reverse_descending get_score rs Hrs) as Hsorted.
  rewrite E in Hperm, Hsorted. split.
  - apply (Permutation_in _ Hperm). left. reflexivity.
  - apply StronglySorted_inv in Hsorted as [_ Hfirst].
    rewrite List.Forall_forall in *. intros x Hx.
    apply (Permutation_in _ (Permutation_sym Hperm)) in Hx as [<-|Hx];
      [apply ltb_irrefl | apply Hfirst, Hx].
Qed.

Lemma filtered_results_kept (rs : list tavily_result) (d : float) (n : Z)
    (r : tavily_result) :
  In r (filtered_results rs d n) ->
  exists first rest,
    sorted_reverse get_score rs = first :: rest
    /\ In r rs
    /\ PrimFloat.leb (PrimFloat.sub (get_score first) (get_score r)) d = true.
Proof.
  unfold filtered_results.
  pose proof (sorted_reverse_perm get_score rs) as Hperm.
  destruct (sorted_reverse get_score rs) as [|first rest]; [intros []|].
  intros [Hr Htest]%slice_to_In%filter_In.
  exists first, rest. split; [reflexivity|]. split; [|exact Htest].
  apply (Permutation_in _ Hperm), Hr.
Qed.

Lemma filtered_results_descending (rs : list tavily_result) (d : float)
    (n : Z) :
  Forall (fun r => is_nan (get_score r) = false) rs ->
  StronglySorted
    (fun a b => PrimFloat.ltb (get_score a) (get_score b) = false)
    (filtered_results rs d n).
Proof.
  intros Hrs. unfold filtered_results.
  pose proof (sorted_reverse_descending get_score rs Hrs) as Hsorted.
  destruct (sorted_reverse get_score rs) as [|first rest]; [constructor|].
  apply StronglySorted_slice_to, StronglySorted_filter, Hsorted.
Qed.

Lemma filtered_results_none (rs : list tavily_result) (d : float) (n : Z) :
  n = 0%Z \/ is_nan d = true
  \/ Forall (fun x => is_nan (get_score x) = true) rs ->
  filtered_results rs d n = [].
Proof.
  unfold filtered_results.
  pose proof (sorted_reverse_perm get_score rs) as Hperm.
  destruct (sorted_reverse get_score rs) as [|first rest]; [reflexivity|].
  intros [->|[Hd|Hnan]]; [reflexivity| |].
  - rewrite filter_none; [apply slice_to_nil|].
    intros x _. apply leb_nan_r, Hd.
  - rewrite filter_none; [apply slice_to_nil|].
    intros x _. apply leb_nan_l, sub_nan_l.
    rewrite List.Forall_forall in Hnan. apply Hnan.
    apply (Permutation_in _ Hperm). left. reflexivity.
Qed.

Lemma format_part_raises (r : tavily_result) (e : exn) :
  format_part r = Raise e ->
  (e = KeyError "title" \/ e = KeyError "content")
  /\ (title r = None \/ content r = None).
Proof.
  unfold format_part. destruct (title r); [destruct (content r)|];
    [discriminate| |]; intros [= <-]; auto.
Qed.

Lemma format_parts_raises (l : list tavily_result) (e : exn) :
  format_parts l = Raise e ->
  (e = KeyError "title" \/ e = KeyError "content")
  /\ Exists (fun r => title r = None \/ content r = None) l.
Proof.
  induction l as [|r l IH]; cbn [format_parts]; [discriminate|].
  destruct (format_part r) as [p|e0] eqn:Er.
  - destruct (format_parts l) as [ps|e1]; [discriminate|].
    intros [= <-]. destruct (IH eq_refl) as [He Hl].
    split; [exact He | right; exact Hl].
  - intros [= <-]. destruct (format_part_raises r e0 Er) as [He Hr].
    split; [exact He | left; exact Hr].
Qed.

Lemma format_context_raises (response : tavily_response) (d : float) (n : Z) :
  ((exists e, format_context_from_tavily response d n = Raise e)
   <-> Exists (fun r => title r = None \/ content r = None)
         (filtered_results (default [] (results response)) d n))
  /\ (forall e, format_context_from_tavily response d n = Raise e ->
                e = KeyError "title" \/ e = KeyError "content").
Proof.
  unfold format_context_from_tavily.
  change (match results response with Some l => l | None => [] end)
    with (default [] (results response)).
  destruct (default [] (results response)) as [|r rs] eqn:Ers.
  { split; [split|]; [intros [e [=]] | | discriminate].
    intros Hex. apply List.Exists_exists in Hex as (x & Hx & _).
    assert (Hnil : filtered_results [] d n = []) by reflexivity.
    rewrite Hnil in Hx. destruct Hx. }
  destruct (filtered_results (r :: rs) d n) as [|k kept] eqn:Ek.
  { split; [split|]; [intros [e [=]] | | discriminate].
    intros Hex. apply List.Exists_exists in Hex as (x & [] & _). }
  destruct (format_parts (k :: kept)) as [ps|e0] eqn:Ep.
  - split; [split|]; [intros [e [=]] | | discriminate].
    intros Hex. apply List.Exists_exists in Hex as (x & Hx & Hmiss).
    destruct (format_parts_incomplete _ x Hx Hmiss) as (key & _ & E).
    rewrite E in Ep. discriminate Ep.
  - destruct (format_parts_raises _ _ Ep) as [He Hex].
    split; [split|]; [intros _; exact Hex | intros _; eexists; reflexivity|].
    intros e [= <-]. exact He.
Qed.

(** X1. The filter keeps at most [max_results] entries, each of them an
    entry of the response whose score is within [score_max_diff] of the
    score of an entry that no other entry of the response exceeds (scores
    that are numbers). *)
Theorem kept_entries_are_close_to_the_top (rs : list tavily_result)
    (score_max_diff : float) (max_results : Z) :
  (0 <= max_results)%Z ->
  Forall (fun r => is_nan (get_score r) = false) rs ->
  length (filtered_results rs score_max_diff max_results)
  <= Z.to_nat max_results
  /\ forall r,
       In r (filtered_results rs score_max_diff max_results) ->
       In r rs
       /\ exists top,
            In top rs
            /\ Forall (fun x => PrimFloat.ltb (get_score top) (get_score x)
                                = false) rs
            /\ PrimFloat.leb (PrimFloat.sub (get_score top) (get_score r))
                 score_max_diff = true.
Proof.
  intros Hn Hrs. split.
  - unfold filtered_results.
    destruct (sorted_reverse get_score rs); [cbn; lia|].
    apply slice_to_length, Hn.
  - intros r Hr.
    destruct (filtered_results_kept _ _ _ _ Hr)
      as (first & rest & E & Hin & Htest).
    split; [exact Hin|]. exists first.
    destruct (sorted_reverse_head rs first rest Hrs E) as [Hfirst Htop].
    repeat split; assumption.
Qed.

Lemma kept_entries_are_close_to_the_top_witness :
  (0 <= 4)%Z
  /\ Forall (fun r => is_nan (get_score r) = false)
       (map as_result example_results)
  /\ length (filtered_results (map as_result example_results)
               default_score_max_diff 4) <= Z.to_nat 4.
Proof.
  assert (Hrs : Forall (fun r => is_nan (get_score r) = false)
                  (map as_result example_results))
    by (repeat constructor).
  split; [lia|]. split; [exact Hrs|].
  apply (kept_entries_are_close_to_the_top (map as_result example_results)
           default_score_max_diff 4 ltac:(lia) Hrs).
Defined.

(** X2. The kept entries stand in descending order of score: no entry has
    a score below that of an entry after it (scores that are numbers). *)
Theorem kept_entries_are_in_descending_order (rs : list tavily_result)
    (score_max_diff : float) (max_results : Z) :
  Forall (fun r => is_nan (get_score r) = false) rs ->
  StronglySorted
    (fun a b => PrimFloat.ltb (get_score a) (get_score b) = false)
    (filtered_results rs score_max_diff max_results).
Proof. apply filtered_results_descending. Qed.

Lemma kept_entries_are_in_descending_order_witness :
  Forall (fun r => is_nan (get_score r) = false)
    (map as_result example_results)
  /\ StronglySorted
       (fun a b => PrimFloat.ltb (get_score a) (get_score b) = false)
       (filtered_results (map as_result example_results)
          default_score_max_diff 4).
Proof.
  assert (Hrs : Forall (fun r => is_nan (get_score r) = false)
                  (map as_result example_results))
    by (repeat constructor).
  split; [exact Hrs|].
  apply (kept_entries_are_in_descending_order _ _ _ Hrs).
Defined.

(** X3. The answer for a response in which no entry passes the filter can
    be reached: a response with entries gives it when [max_results] is 0,
    when [score_max_diff] is not a number, and when no score is a
    number. *)
Theorem no_high_confidence_answer_is_reachable (r : tavily_result)
    (rs : list tavily_result) (score_max_diff : float) (max_results : Z) :
  max_results = 0%Z \/ is_nan score_max_diff = true
  \/ Forall (fun x => is_nan (get_score x) = true) (r :: rs) ->
  format_context_from_tavily {| results := Some (r :: rs) |}
    score_max_diff max_results
  = Ok "No high-confidence sources available.".
Proof.
  intros Hcase. unfold format_context_from_tavily. cbn [results].
  rewrite (filtered_results_none _ _ _ Hcase). reflexivity.
Qed.

Lemma no_high_confidence_answer_is_reachable_witness :
  (0%Z = 0%Z \/ is_nan default_score_max_diff = true
   \/ Forall (fun x => is_nan (get_score x) = true)
        (map as_result example_results))
  /\ format_context_from_tavily
       {| results := Some (map as_result example_results) |}
       default_score_max_diff 0
     = Ok "No high-confidence sources available.".
Proof.
  split; [left; reflexivity|].
  apply (no_high_confidence_answer_is_reachable
           (as_result {| ev_title := "A"; ev_content := "a";
                         ev_score := _ |})).
  left. reflexivity.
Defined.

(** X4. The filter raises exactly when an entry it keeps has no title or
    no content, and then a [KeyError] for that key; an entry without them
    that the filter drops does no harm. *)
Theorem filter_raises_only_for_kept_entries (response : tavily_response)
    (score_max_diff : float) (max_results : Z) :
  ((exists e, format_context_from_tavily response score_max_diff max_results
              = Raise e)
   <-> Exists (fun r => title r = None \/ content r = None)
         (filtered_results (default [] (results response))
            score_max_diff max_results))
  /\ (forall e,
        format_context_from_tavily response score_max_diff max_results
        = Raise e ->
        e = KeyError "title" \/ e = KeyError "content").
Proof. apply format_context_raises. Qed.

(** * What a caller of [tavily_search] can get *)

Lemma retry_loop_reraise {S A : Type} (P : result A -> Prop) (r : Retrying)
    (fn : S -> result A * S) (fuel n : nat) (w w' : S) (res : result A)
    (evs : list (event A)) :
  reraise r = true ->
  (forall w0, P (fst (fn w0))) ->
  retry_loop fuel r fn n w = Some (res, evs, w') -> P res.
Proof.
  intros Hreraise Hfn. revert n w w' res evs.
  induction fuel as [|fuel IH]; intros n w w' res evs; cbn [retry_loop];
    [discriminate|].
  pose proof (Hfn w) as Hw. destruct (fn w) as [[a|e] w1]; cbn [fst] in Hw.
  - intros [= <- _ _]. exact Hw.
  - destruct (negb (retry r e)); [intros [= <- _ _]; exact Hw|].
    destruct (stop r n).
    + rewrite Hreraise. intros [= <- _ _]. exact Hw.
    + destruct (retry_loop fuel r fn (Datatypes.S n) w1)
        as [[[res' evs'] w2]|] eqn:E; [|discriminate].
      intros [= <- _ _]. exact (IH _ _ _ _ _ E).
Qed.

Lemma not_Exception (e : exn) :
  is_Exception e = false -> exists msg, e = PyBaseException msg.
Proof. destruct e; try discriminate. eauto. Qed.

Lemma search_error (e : exn) :
  is_TavilySearchError e = true -> exists msg, e = TavilySearchError msg.
Proof. destruct e; try discriminate. eauto. Qed.

Section SearchOutcome.
Context `{Providers}.

Lemma search_and_format_outcome (key query depth : string) (w : world) :
  match fst (search_and_format key query depth w) with
  | Ok text =>
      exists response,
        fst (tavily_client_search key query depth w) = Ok response
        /\ format_context_from_tavily response
             default_score_max_diff default_max_results = Ok text
  | Raise e => is_TavilySearchError e = true \/ is_Exception e = false
  end.
Proof.
  unfold search_and_format.
  destruct (tavily_client_search key query depth w) as [[response|e] w1];
    cbn [fst].
  - destruct (format_context_from_tavily response _ _) as [text|e] eqn:E;
      cbn [fst].
    + exists response. split; [reflexivity | exact E].
    + destruct (is_Exception e) eqn:Ee; cbn [fst]; auto.
  - destruct (is_Exception e) eqn:Ee; cbn [fst]; auto.
Qed.

Lemma tavily_search_body_outcome (query depth : string) (w : world) :
  match fst (tavily_search_body query depth w) with
  | Ok text =>
      String.length query <= 400
      /\ exists key response w0,
           TAVILY_API_KEY = Some key /\ key <> ""
           /\ fst (tavily_client_search key query depth w0) = Ok response
           /\ format_context_from_tavily response
                default_score_max_diff default_max_results = Ok text
  | Raise e => is_TavilySearchError e = true \/ is_Exception e = false
  end.
Proof.
  unfold tavily_search_body.
  destruct (Nat.ltb_spec 400 (String.length query)) as [Hlong|Hshort];
    [left; reflexivity|].
  destruct TAVILY_API_KEY as [key|] eqn:Ekey; [|left; reflexivity].
  destruct (String.eqb_spec key "") as [->|Hkey]; [left; reflexivity|].
  pose proof (search_and_format_outcome key query depth w) as Houtcome.
  destruct (fst (search_and_format key query depth w)) as [text|e];
    [|exact Houtcome].
  destruct Houtcome as (response & E & Ef).
  split; [exact Hshort|]. exists key, response, w.
  repeat split; assumption.
Qed.

Lemma tavily_search_outcome (query depth : string) (w : world) :
  match fst (tavily_search query depth w) with
  | Ok text =>
      String.length query <= 400
      /\ exists key response w0,
           TAVILY_API_KEY = Some key /\ key <> ""
           /\ fst (tavily_client_search key query depth w0) = Ok response
           /\ format_context_from_tavily response
                default_score_max_diff default_max_results = Ok text
  | Raise e => is_TavilySearchError e = true \/ is_Exception e = false
  end.
Proof.
  destruct (tavily_search_total query depth w) as (res & evs & w1 & E & ->).
  cbn [fst]. unfold tavily_search_trace in E.
  pattern res.
  eapply (retry_loop_reraise _ tavily_retrying); [reflexivity | | exact E].
  intros w0. apply tavily_search_body_outcome.
Qed.

(** A response that the filter cannot format costs three calls of the
    provider. *)
Lemma malformed_response_trace (key query depth k : string) (w : world) :
  String.length query <= 400 ->
  TAVILY_API_KEY = Some key -> key <> "" ->
  (forall w0, exists response,
      fst (tavily_client_search key query depth w0) = Ok response
      /\ format_context_from_tavily response
           default_score_max_diff default_max_results
         = Raise (KeyError k)) ->
  let error :=
    Raise (TavilySearchError ("[Tavily SDK Error] '" +:+ k +:+ "'")) in
  let w1 := snd (tavily_client_search key query depth w) in
  let w2 := snd (tavily_client_search key query depth w1) in
  let w3 := snd (tavily_client_search key query depth w2) in
  tavily_search_trace 3 query depth w
  = Some (error,
          [Attempt 1 error; Sleep 2; Attempt 2 error; Sleep 2;
           Attempt 3 error],
          w3).
Proof.
  intros Hlen Hkey Hne Hresp error w1 w2 w3.
  assert (Hbody : forall w0,
             tavily_search_body query depth w0
             = (error, snd (tavily_client_search key query depth w0))).
  { intros w0. unfold tavily_search_body.
    destruct (Nat.ltb_spec 400 (String.length query)); [lia|].
    rewrite Hkey. destruct (String.eqb_spec key ""); [contradiction|].
    unfold search_and_format. destruct (Hresp w0) as (response & E & Ef).
    destruct (tavily_client_search key query depth w0) as [r w'].
    cbn [fst snd] in *. subst r. rewrite Ef. reflexivity. }
  unfold tavily_search_trace. cbn [retry_loop].
  rewrite (Hbody w). fold w1. subst error.
  cbn [tavily_retrying retry stop reraise wait is_TavilySearchError negb
       stop_after_attempt Nat.leb].
  rewrite (Hbody w1). fold w2.
  cbn [tavily_retrying retry stop reraise wait is_TavilySearchError negb
       stop_after_attempt Nat.leb].
  rewrite (Hbody w2). fold w3.
  cbn [tavily_retrying retry stop reraise wait is_TavilySearchError negb
       stop_after_attempt Nat.leb].
  reflexivity.
Qed.

(** The loop of the retrieval node. *)
Lemma search_each_outcome (all_subqueries todo : list string) (w : world) :
  match fst (search_each all_subqueries todo w) with
  | Ok snippets =>
      Forall2 (fun subquery snippet =>
                 exists w0,
                   fst (tavily_search subquery
                          (search_depth subquery all_subqueries) w0)
                   = Ok snippet)
        todo snippets
  | Raise e =>
      exists subquery w0,
        In subquery todo
        /\ fst (tavily_search subquery
                  (search_depth subquery all_subqueries) w0)
           = Raise e
  end.
Proof.
  revert w; induction todo as [|subquery todo IH]; intros w;
    cbn [search_each fst]; [constructor|].
  destruct (tavily_search subquery (search_depth subquery all_subqueries) w)
    as [[context|e] w1] eqn:E.
  - specialize (IH w1).
    destruct (search_each all_subqueries todo w1) as [[snippets|e] w2];
      cbn [fst mbind result_bind] in *.
    + constructor; [|exact IH]. exists w. rewrite E. reflexivity.
    + destruct IH as (sq & w0 & Hin & E0). exists sq, w0.
      split; [right; exact Hin | exact E0].
  - cbn [fst]. exists subquery, w. split; [left; reflexivity|].
    rewrite E. reflexivity.
Qed.

Lemma search_each_in_turn (all_subqueries todo snippets : list string)
    (w w' : world) :
  search_each all_subqueries todo w = (Ok snippets, w')
  <-> searched_in_turn all_subqueries todo w snippets w'.
Proof.
  split.
  - revert w snippets. induction todo as [|subquery todo IH];
      intros w snippets; cbn [search_each].
    + intros [= <- <-]. constructor.
    + destruct (tavily_search subquery
                  (search_depth subquery all_subqueries) w)
        as [[snippet|e] w1] eqn:E; [|discriminate].
      destruct (search_each all_subqueries todo w1) as [[rest|e] w2] eqn:Er;
        cbn [mbind result_bind]; [|discriminate].
      intros [= <- <-]. econstructor; [exact E | apply IH, Er].
  - induction 1 as [w0|subquery todo snippet snippets w0 w1 w2 E _ IH];
      cbn [search_each]; [reflexivity|].
    rewrite E, IH. reflexivity.
Qed.

Lemma searched_in_turn_length (all_subqueries todo snippets : list string)
    (w w' : world) :
  searched_in_turn all_subqueries todo w snippets w' ->
  length snippets = length todo.
Proof. induction 1; cbn [length]; congruence. Qed.

Lemma search_each_nil (all_subqueries : list string) (w : world) :
  search_each all_subqueries [] w = (Ok [], w).
Proof. reflexivity. Qed.

Lemma search_and_context_node_outcome (state : AgentState) (w : world) :
  match fst (_search_and_context_node state w) with
  | Ok update =>
      exists sqs snippets,
        subqueries state = Some sqs
        /\ update = {| query := None; subqueries := None;
                       combined_context :=
                         Some (Py.join (Py.nl +:+ Py.nl) snippets);
                       response := None; revised_response := None |}
        /\ Forall2 (fun subquery snippet =>
                      exists w0,
                        fst (tavily_search subquery
                               (search_depth subquery sqs) w0)
                        = Ok snippet)
             sqs snippets
  | Raise e =>
      (subqueries state = None /\ e = KeyError "subqueries")
      \/ is_TavilySearchError e = true \/ is_Exception e = false
  end.
Proof.
  unfold _search_and_context_node.
  destruct (subqueries state) as [sqs|]; cbn [getitem fst];
    [|left; split; reflexivity].
  pose proof (search_each_outcome sqs sqs w) as Heach.
  destruct (search_each sqs sqs w) as [[snippets|e] w1];
    cbn [fst mbind result_bind] in *.
  - exists sqs, snippets. repeat split. exact Heach.
  - right. destruct Heach as (sq & w0 & _ & E).
    pose proof (tavily_search_outcome sq (search_depth sq sqs) w0) as Hout.
    rewrite E in Hout. exact Hout.
Qed.

Lemma search_and_context_node_in_turn (state update : AgentState)
    (w w' : world) :
  _search_and_context_node state w = (Ok update, w')
  <-> exists sqs snippets,
        subqueries state = Some sqs
        /\ searched_in_turn sqs sqs w snippets w'
        /\ update = {| query := None; subqueries := None;
                       combined_context :=
                         Some (Py.join (Py.nl +:+ Py.nl) snippets);
                       response := None; revised_response := None |}.
Proof.
  unfold _search_and_context_node.
  destruct (subqueries state) as [sqs|]; cbn [getitem].
  - split.
    + destruct (search_each sqs sqs w) as [[snippets|e] w1] eqn:E;
        cbn [mbind result_bind]; [|discriminate].
      intros [= <- <-]. exists sqs, snippets.
      split; [reflexivity|]. split; [apply search_each_in_turn, E|].
      reflexivity.
    + intros (sqs' & snippets & [= <-] & Hturn & ->).
      apply search_each_in_turn in Hturn. rewrite Hturn. reflexivity.
  - split; [discriminate | intros (sqs & _ & [=] & _)].
Qed.

End SearchOutcome.

(** X5. [tavily_search] raises nothing but [TavilySearchError], apart from
    an exception outside [Exception] that the provider let through: every
    failure of the provider and every failure of the filter reaches the
    caller as a [TavilySearchError]. *)
Theorem tavily_search_raises_search_errors_only `{Providers}
    (query depth : string) (w w' : world) (e : exn) :
  tavily_search query depth w = (Raise e, w') ->
  (exists msg, e = TavilySearchError msg)
  \/ (exists msg, e = PyBaseException msg).
Proof.
  intros E. pose proof (tavily_search_outcome query depth w) as Hout.
  rewrite E in Hout. cbn [fst] in Hout.
  destruct Hout as [He|He];
    [left; apply search_error, He | right; apply not_Exception, He].
Qed.

Lemma tavily_search_raises_search_errors_only_witness :
  @tavily_search
    (stub (Some "tvly-key") (Ok "ok") (Raise (PyException "503")))
    "capital of France" "basic" no_calls
  = (Raise (TavilySearchError "[Tavily SDK Error] 503"),
     {| generation_calls := 0; retrieval_calls := 3 |})
  /\ ((exists msg, TavilySearchError "[Tavily SDK Error] 503"
                   = TavilySearchError msg)
      \/ (exists msg, TavilySearchError "[Tavily SDK Error] 503"
                      = PyBaseException msg)).
Proof.
  split; [reflexivity|].
  apply (@tavily_search_raises_search_errors_only
           (stub (Some "tvly-key") (Ok "ok") (Raise (PyException "503")))
           "capital of France" "basic" no_calls
           {| generation_calls := 0; retrieval_calls := 3 |}).
  reflexivity.
Defined.

(** X6. A text that [tavily_search] returns is what the filter, with its
    default arguments, made of a response of the provider; the query then
    has at most 400 characters and the credential is set and not empty. *)
Theorem tavily_search_returns_filtered_context `{Providers}
    (query depth : string) (w w' : world) (text : string) :
  tavily_search query depth w = (Ok text, w') ->
  String.length query <= 400
  /\ exists key response w0,
       TAVILY_API_KEY = Some key /\ key <> ""
       /\ fst (tavily_client_search key query depth w0) = Ok response
       /\ format_context_from_tavily response
            default_score_max_diff default_max_results = Ok text.
Proof.
  intros E. pose proof (tavily_search_outcome query depth w) as Hout.
  rewrite E in Hout. exact Hout.
Qed.

Lemma tavily_search_returns_filtered_context_witness :
  @tavily_search (stub (Some "tvly-key") (Ok "ok") (Ok one_source))
    "capital of France" "basic" no_calls
  = (Ok ("Paris:" +:+ Py.nl +:+ "Paris is the capital of France."
         +:+ Py.nl +:+ Py.nl),
     {| generation_calls := 0; retrieval_calls := 1 |})
  /\ String.length "capital of France" <= 400.
Proof.
  split; [reflexivity|].
  apply (@tavily_search_returns_filtered_context
           (stub (Some "tvly-key") (Ok "ok") (Ok one_source))
           "capital of France" "basic" no_calls
           {| generation_calls := 0; retrieval_calls := 1 |}
           ("Paris:" +:+ Py.nl +:+ "Paris is the capital of France."
            +:+ Py.nl +:+ Py.nl)).
  reflexivity.
Defined.

(** X7. A response in which an entry that the filter keeps has no title
    or no content is handled like a failure of the provider: the
    [KeyError] comes out as a [TavilySearchError] that quotes the key, the
    provider is called three times, with the two sleeps of the policy, and
    the third error goes to the caller. *)
Theorem malformed_response_is_searched_three_times `{Providers}
    (key query depth k : string) (w : world) :
  String.length query <= 400 ->
  TAVILY_API_KEY = Some key -> key <> "" ->
  (forall w0, exists response,
      fst (tavily_client_search key query depth w0) = Ok response
      /\ format_context_from_tavily response
           default_score_max_diff default_max_results
         = Raise (KeyError k)) ->
  let error :=
    Raise (TavilySearchError ("[Tavily SDK Error] '" +:+ k +:+ "'")) in
  let w1 := snd (tavily_client_search key query depth w) in
  let w2 := snd (tavily_client_search key query depth w1) in
  let w3 := snd (tavily_client_search key query depth w2) in
  tavily_search_trace 3 query depth w
  = Some (error,
          [Attempt 1 error; Sleep 2; Attempt 2 error; Sleep 2;
           Attempt 3 error],
          w3).
Proof. apply malformed_response_trace. Qed.

Lemma malformed_response_is_searched_three_times_witness :
  let untitled :=
    {| results := Some [ {| title := None; content := Some "Paris.";
                            score := Some 0.5%float |} ] |} in
  let error := Raise (TavilySearchError "[Tavily SDK Error] 'title'") in
  @tavily_search_trace (stub (Some "tvly-key") (Ok "ok") (Ok untitled))
    3 "capital of France" "basic" no_calls
  = Some (error,
          [Attempt 1 error; Sleep 2; Attempt 2 error; Sleep 2;
           Attempt 3 error],
          {| generation_calls := 0; retrieval_calls := 3 |}).
Proof.
  intros untitled error.
  apply (@malformed_response_is_searched_three_times
           (stub (Some "tvly-key") (Ok "ok") (Ok untitled))
           "tvly-key" "capital of France" "basic" "title" no_calls).
  - vm_compute. lia.
  - reflexivity.
  - discriminate.
  - intros w0. exists untitled. split; reflexivity.
Defined.

(** X8. The retrieval node returns exactly when the state has sub-queries
    and every one of them, searched once, in the order of the list, at the
    depth of the rule, each search from the world that the search before it
    left, returns a text.  It then writes one key: these texts, one for
    each sub-query, joined by an empty line; and it leaves the world that
    the last search left.  Without sub-queries it calls no provider and
    writes the empty text. *)
Theorem retrieval_node_joins_one_snippet_per_subquery `{Providers}
    (state update : AgentState) (w w' : world) :
  (_search_and_context_node state w = (Ok update, w')
   <-> exists sqs snippets,
         subqueries state = Some sqs
         /\ searched_in_turn sqs sqs w snippets w'
         /\ update = {| query := None; subqueries := None;
                        combined_context :=
                          Some (Py.join (Py.nl +:+ Py.nl) snippets);
                        response := None; revised_response := None |})
  /\ (_search_and_context_node state w = (Ok update, w') ->
      exists sqs snippets,
        subqueries state = Some sqs
        /\ length snippets = length sqs
        /\ written_keys update = ["combined_context"]
        /\ combined_context update
           = Some (Py.join (Py.nl +:+ Py.nl) snippets)
        /\ (sqs = [] -> combined_context update = Some "" /\ w' = w)).
Proof.
  split; [apply search_and_context_node_in_turn|].
  intros E. apply search_and_context_node_in_turn in E
    as (sqs & snippets & Esqs & Hturn & ->).
  exists sqs, snippets. split; [exact Esqs|].
  split; [exact (searched_in_turn_length _ _ _ _ _ Hturn)|].
  split; [reflexivity|]. split; [reflexivity|].
  intros ->. inversion Hturn. split; reflexivity.
Qed.

Lemma retrieval_node_joins_one_snippet_per_subquery_witness :
  let P := stub (Some "tvly-key") (Ok "ok") (Ok one_source) in
  let state :=
    {| query := Some "q"; subqueries := Some ["capital of France"];
       combined_context := None; response := None;
       revised_response := None |} in
  exists update w',
    @_search_and_context_node P state no_calls = (Ok update, w')
    /\ exists snippets,
         @searched_in_turn P ["capital of France"] ["capital of France"]
           no_calls snippets w'
         /\ length snippets = 1.
Proof.
  intros P state. eexists _, _. split; [reflexivity|].
  destruct (proj1 (proj1 (@retrieval_node_joins_one_snippet_per_subquery
                            P state _ no_calls _)) eq_refl)
    as (sqs & snippets & [= <-] & Hturn & _).
  exists snippets. split; [exact Hturn|].
  exact (searched_in_turn_length _ _ _ _ _ Hturn).
Defined.

(** Three sub-queries cost three calls of the provider, and the node
    leaves the world of the third. *)
Example retrieval_node_calls_the_provider_once_for_each_subquery :
  let P := stub (Some "tvly-key") (Ok "ok") (Ok one_source) in
  snd (@_search_and_context_node P
         {| query := Some "q";
            subqueries := Some ["capital of France"; "capital of Spain";
                                "capital of Italy"];
            combined_context := None; response := None;
            revised_response := None |} no_calls)
  = {| generation_calls := 0; retrieval_calls := 3 |}.
Proof. vm_compute. reflexivity. Qed.

(** * More on texts *)

Lemma length_append (a b : string) :
  String.length (a +:+ b) = String.length a + String.length b.
Proof.
  induction a as [|c a IH]; autorewrite with pystr; cbn [String.length];
    [reflexivity | rewrite IH; reflexivity].
Qed.

Lemma length_times (c : ascii) (n : nat) :
  String.length (Py.times (String c "") n) = n.
Proof.
  induction n as [|n IH]; cbn [Py.times]; [reflexivity|].
  rewrite length_append, IH. reflexivity.
Qed.

Lemma take_drop (n : nat) (s : string) : take n s +:+ Py.drop n s = s.
Proof.
  revert s; induction n as [|n IH]; intros [|c s];
    cbn [take Py.drop]; autorewrite with pystr; try reflexivity.
  rewrite IH. reflexivity.
Qed.

Lemma length_take (n : nat) (s : string) :
  String.length (take n s) = Nat.min n (String.length s).
Proof.
  revert s; induction n as [|n IH]; intros [|c s];
    cbn [take String.length]; try reflexivity.
  rewrite IH. reflexivity.
Qed.

Lemma length_drop (n : nat) (s : string) :
  String.length (Py.drop n s) = String.length s - n.
Proof.
  revert s; induction n as [|n IH]; intros [|c s];
    cbn [Py.drop String.length]; try reflexivity.
  apply IH.
Qed.

Lemma length_lstrip_by (p : ascii -> bool) (s : string) :
  String.length (Py.lstrip_by p s) <= String.length s.
Proof.
  induction s as [|c s IH]; cbn [Py.lstrip_by String.length]; [lia|].
  destruct (p c); cbn [String.length]; lia.
Qed.

Lemma list_ascii_of_string_append (a b : string) :
  list_ascii_of_string (a +:+ b)
  = list_ascii_of_string a ++ list_ascii_of_string b.
Proof.
  induction a as [|c a IH]; autorewrite with pystr;
    cbn [list_ascii_of_string app]; [reflexivity | rewrite IH; reflexivity].
Qed.

Lemma string_of_list_ascii_app (l m : list ascii) :
  string_of_list_ascii (l ++ m)
  = string_of_list_ascii l +:+ string_of_list_ascii m.
Proof.
  induction l as [|c l IH]; cbn [string_of_list_ascii app];
    autorewrite with pystr; [reflexivity | rewrite IH; reflexivity].
Qed.

Lemma rev_string_append (a b : string) :
  Py.rev_string (a +:+ b) = Py.rev_string b +:+ Py.rev_string a.
Proof.
  unfold Py.rev_string.
  rewrite list_ascii_of_string_append, rev_app_distr.
  apply string_of_list_ascii_app.
Qed.

Lemma rev_string_involutive (s : string) :
  Py.rev_string (Py.rev_string s) = s.
Proof.
  unfold Py.rev_string.
  rewrite list_ascii_of_string_of_list_ascii, rev_involutive.
  apply string_of_list_ascii_of_string.
Qed.

Lemma length_string_of_list_ascii (l : list ascii) :
  String.length (string_of_list_ascii l) = length l.
Proof.
  induction l as [|c l IH]; cbn [string_of_list_ascii String.length length];
    [reflexivity | rewrite IH; reflexivity].
Qed.

Lemma length_list_ascii_of_string (s : string) :
  length (list_ascii_of_string s) = String.length s.
Proof.
  induction s as [|c s IH]; cbn [list_ascii_of_string String.length length];
    [reflexivity | rewrite IH; reflexivity].
Qed.

Lemma length_rev_string (s : string) :
  String.length (Py.rev_string s) = String.length s.
Proof.
  unfold Py.rev_string.
  rewrite length_string_of_list_ascii, length_rev.
  apply length_list_ascii_of_string.
Qed.

Lemma length_rstrip_by (p : ascii -> bool) (s : string) :
  String.length (Py.rstrip_by p s) <= String.length s.
Proof.
  unfold Py.rstrip_by. rewrite length_rev_string.
  etransitivity; [apply length_lstrip_by|]. rewrite length_rev_string. lia.
Qed.

Lemma lstrip_by_split (p : ascii -> bool) (s : string) :
  exists t, s = t +:+ Py.lstrip_by p s /\ all_chars p t = true.
Proof.
  induction s as [|c s (t & E & Ht)]; cbn [Py.lstrip_by].
  - exists "". split; reflexivity.
  - destruct (p c) eqn:Ec.
    + exists (String c t). autorewrite with pystr. split.
      * f_equal. exact E.
      * unfold all_chars in *. cbn [list_ascii_of_string forallb].
        rewrite Ec, Ht. reflexivity.
    + exists "". split; reflexivity.
Qed.

Lemma all_chars_rev_string (p : ascii -> bool) (s : string) :
  all_chars p s = true -> all_chars p (Py.rev_string s) = true.
Proof.
  unfold all_chars, Py.rev_string.
  rewrite list_ascii_of_string_of_list_ascii.
  rewrite !forallb_forall. intros Hs c Hc. apply Hs.
  apply in_rev. exact Hc.
Qed.

Lemma rstrip_by_split (p : ascii -> bool) (s : string) :
  exists t, s = Py.rstrip_by p s +:+ t /\ all_chars p t = true.
Proof.
  destruct (lstrip_by_split p (Py.rev_string s)) as (t & E & Ht).
  exists (Py.rev_string t). split.
  - unfold Py.rstrip_by. rewrite <- rev_string_append, <- E.
    symmetry. apply rev_string_involutive.
  - apply all_chars_rev_string. exact Ht.
Qed.

Lemma squeeze_append (a b : string) :
  squeeze (a +:+ b) = squeeze a +:+ squeeze b.
Proof.
  induction a as [|c a IH]; autorewrite with pystr; cbn [squeeze];
    [reflexivity|].
  destruct (Py.isspace c); autorewrite with pystr; rewrite IH; reflexivity.
Qed.

Lemma squeeze_all_space (t : string) :
  all_chars Py.isspace t = true -> squeeze t = "".
Proof.
  unfold all_chars. induction t as [|c t IH];
    cbn [list_ascii_of_string forallb squeeze]; [reflexivity|].
  intros [Hc Ht]%andb_true_iff. rewrite Hc. apply IH, Ht.
Qed.

Lemma squeeze_lstrip (s : string) :
  squeeze (Py.lstrip_by Py.isspace s) = squeeze s.
Proof.
  destruct (lstrip_by_split Py.isspace s) as (t & E & Ht).
  rewrite E at 2. rewrite squeeze_append, (squeeze_all_space t Ht).
  autorewrite with pystr. reflexivity.
Qed.

Lemma squeeze_rstrip (s : string) :
  squeeze (Py.rstrip_by Py.isspace s) = squeeze s.
Proof.
  destruct (rstrip_by_split Py.isspace s) as (t & E & Ht).
  rewrite E at 2. rewrite squeeze_append, (squeeze_all_space t Ht).
  rewrite append_empty_r. reflexivity.
Qed.

Lemma squeeze_strip (s : string) : squeeze (Py.strip s) = squeeze s.
Proof. unfold Py.strip. rewrite squeeze_rstrip. apply squeeze_lstrip. Qed.

Lemma strip_empty_all_space (s : string) :
  Py.strip s = "" -> squeeze s = "".
Proof. intros E. rewrite <- squeeze_strip, E. reflexivity. Qed.

(** * The routing predicate on texts *)

Lemma prefix_spec (a s : string) :
  String.prefix a s = true <-> exists t, s = a +:+ t.
Proof.
  revert a; induction s as [|d s IH]; intros [|c a]; cbn [String.prefix].
  - split; [intros _; exists ""; reflexivity | reflexivity].
  - split; [discriminate | intros [t Ht]; discriminate Ht].
  - split; [intros _; exists (String d s); reflexivity | reflexivity].
  - destruct (ascii_dec c d) as [->|Hne].
    + rewrite IH. split; intros [t Ht]; exists t.
      * autorewrite with pystr. f_equal. exact Ht.
      * autorewrite with pystr in Ht. congruence.
    + split; [discriminate|]. intros [t Ht].
      autorewrite with pystr in Ht. congruence.
Qed.

Lemma contains_spec (needle hay : string) :
  Py.contains needle hay = true
  <-> exists pre post, hay = pre +:+ needle +:+ post.
Proof.
  induction hay as [|c hay IH]; cbn [Py.contains];
    rewrite orb_true_iff, prefix_spec.
  - split.
    + intros [[t Ht]|]; [|discriminate]. exists "", t. exact Ht.
    + intros (pre & post & E). left. destruct pre; [|discriminate E].
      exists post. exact E.
  - rewrite IH. split.
    + intros [[t Ht]|(pre & post & E)].
      * exists "", t. exact Ht.
      * exists (String c pre), post. autorewrite with pystr. f_equal. exact E.
    + intros ([|d pre] & post & E).
      * left. exists post. exact E.
      * right. exists pre, post. autorewrite with pystr in E. congruence.
Qed.

Lemma lower_append (a b : string) :
  Py.lower (a +:+ b) = Py.lower a +:+ Py.lower b.
Proof.
  induction a as [|c a IH]; autorewrite with pystr; cbn [Py.lower];
    autorewrite with pystr; [reflexivity | rewrite IH; reflexivity].
Qed.

Lemma critique_condition_cases (st : AgentState) :
  (_critique_condition st = Ok "search_context"
   <-> exists r pre post,
         response st = Some r
         /\ Py.lower r = pre +:+ "inaccurate" +:+ post)
  /\ (_critique_condition st = Ok "publish"
      <-> exists r,
            response st = Some r
            /\ forall pre post, Py.lower r <> pre +:+ "inaccurate" +:+ post)
  /\ (forall e, _critique_condition st = Raise e
                <-> response st = None /\ e = KeyError "response").
Proof.
  unfold _critique_condition. destruct (response st) as [r|];
    cbn [getitem mbind result_bind].
  - pose proof (contains_spec "inaccurate" (Py.lower r)) as Hc.
    destruct (Py.contains "inaccurate" (Py.lower r)).
    + destruct (proj1 Hc eq_refl) as (pre & post & E).
      split; [|split].
      * split; [intros _; exists r, pre, post; split; [reflexivity|exact E]
               | reflexivity].
      * split; [discriminate|]. intros (r' & [= <-] & Hno).
        destruct (Hno pre post E).
      * intros e. split; [discriminate | intros [[=] _]].
    + split; [|split].
      * split; [discriminate|]. intros (r' & pre & post & [= <-] & E).
        assert (false = true) by (apply Hc; exists pre, post; exact E).
        discriminate.
      * split; [|reflexivity]. intros _. exists r. split; [reflexivity|].
        intros pre post E.
        assert (false = true) by (apply Hc; exists pre, post; exact E).
        discriminate.
      * intros e. split; [discriminate | intros [[=] _]].
  - split; [|split].
    + split; [discriminate | intros (r & _ & _ & [=] & _)].
    + split; [discriminate | intros (r & [=] & _)].
    + intros e. split; [intros [= <-]; split; reflexivity
                       | intros [_ ->]; reflexivity].
Qed.

(** * Cleaning the output of the generation provider *)

Lemma prefix_cons (a c : ascii) (p s : string) :
  String.prefix (String a p) (String c s)
  = if ascii_dec a c then String.prefix p s else false.
Proof. reflexivity. Qed.

Lemma prefix_nil (s : string) : String.prefix "" s = true.
Proof. destruct s; reflexivity. Qed.

Lemma prefix_append_false (p q s : string) :
  String.prefix p s = false -> String.prefix (p +:+ q) s = false.
Proof.
  rewrite <- !not_true_iff_false, !prefix_spec. intros Hp [t Ht]. apply Hp.
  exists (q +:+ t). rewrite Ht. apply append_assoc.
Qed.

Lemma contains_cons (needle : string) (c : ascii) (hay : string) :
  Py.contains needle (String c hay)
  = String.prefix needle (String c hay) || Py.contains needle hay.
Proof. reflexivity. Qed.

Lemma contains_inside (needle a s b : string) :
  Py.contains needle (a +:+ s +:+ b) = false -> Py.contains needle s = false.
Proof.
  rewrite <- !not_true_iff_false, !contains_spec.
  intros Hno (pre & post & E). apply Hno.
  exists (a +:+ pre), (post +:+ b). rewrite E, !append_assoc. reflexivity.
Qed.

Lemma strip_inside (s : string) :
  exists a b, s = a +:+ Py.strip s +:+ b.
Proof.
  destruct (lstrip_by_split Py.isspace s) as (a & Ea & _).
  destruct (rstrip_by_split Py.isspace (Py.lstrip_by Py.isspace s))
    as (b & Eb & _).
  exists a, b. unfold Py.strip. rewrite <- Eb. exact Ea.
Qed.

Lemma remove_fences_tick (fuel : nat) (s : string) :
  String.length s <= fuel ->
  String.prefix "`" s = false ->
  String.prefix "`" (remove_fences fuel s) = false.
Proof.
  intros Hlen Hs. destruct fuel as [|fuel], s as [|c s];
    cbn [remove_fences String.length] in *; try reflexivity; [lia|].
  assert (E3 : String.prefix "```" (String c s) = false)
    by exact (prefix_append_false "`" "``" _ Hs).
  rewrite E3.
  rewrite prefix_cons in *. destruct (ascii_dec "`" c); [|reflexivity].
  rewrite prefix_nil in Hs. discriminate Hs.
Qed.

Lemma remove_fences_two_ticks (fuel : nat) (s : string) :
  String.length s <= fuel ->
  String.prefix "``" s = false ->
  String.prefix "``" (remove_fences fuel s) = false.
Proof.
  intros Hlen Hs. destruct fuel as [|fuel], s as [|c s];
    cbn [remove_fences String.length] in *; try reflexivity; [lia|].
  assert (E3 : String.prefix "```" (String c s) = false)
    by exact (prefix_append_false "``" "`" _ Hs).
  rewrite E3.
  rewrite prefix_cons in *. destruct (ascii_dec "`" c); [|reflexivity].
  apply remove_fences_tick; [lia | exact Hs].
Qed.

Lemma remove_fences_clean (fuel : nat) (s : string) :
  String.length s <= fuel ->
  Py.contains "```" (remove_fences fuel s) = false.
Proof.
  revert s; induction fuel as [|fuel IH]; intros [|c s] Hlen;
    cbn [remove_fences String.length] in *; try reflexivity; [lia|].
  destruct (String.prefix "```" (String c s)) eqn:E.
  - apply IH.
    etransitivity; [apply length_lstrip_by|].
    destruct (String.prefix "json" (Py.drop 3 (String c s)));
      rewrite ?length_drop; cbn [String.length]; lia.
  - rewrite contains_cons, (IH s ltac:(lia)), orb_false_r.
    rewrite prefix_cons in *. destruct (ascii_dec "`" c); [|reflexivity].
    apply remove_fences_two_ticks; [lia | exact E].
Qed.

Lemma remove_fences_unchanged (fuel : nat) (s : string) :
  Py.contains "```" s = false -> remove_fences fuel s = s.
Proof.
  revert s; induction fuel as [|fuel IH]; intros [|c s];
    cbn [remove_fences]; try reflexivity.
  rewrite contains_cons. intros [-> Hs]%orb_false_iff.
  rewrite (IH s Hs). reflexivity.
Qed.

Lemma lstrip_by_head (p : ascii -> bool) (s : string) (c : ascii)
    (t : string) :
  Py.lstrip_by p s = String c t -> p c = false.
Proof.
  induction s as [|d s IH]; cbn [Py.lstrip_by]; [discriminate|].
  destruct (p d) eqn:Ed; [exact IH|]. intros [= <- _]. exact Ed.
Qed.

Lemma rev_string_cons (c : ascii) (s : string) :
  Py.rev_string (String c s) = Py.rev_string s +:+ String c "".
Proof.
  unfold Py.rev_string. cbn [list_ascii_of_string rev].
  apply string_of_list_ascii_app.
Qed.

Lemma rstrip_by_last (p : ascii -> bool) (s : string) (c : ascii) :
  Py.last_char (Py.rstrip_by p s) = Some c -> p c = false.
Proof.
  unfold Py.rstrip_by.
  destruct (Py.lstrip_by p (Py.rev_string s)) as [|d t] eqn:E.
  - discriminate.
  - rewrite rev_string_cons, last_char_append. intros [= <-].
    exact (lstrip_by_head _ _ _ _ E).
Qed.

Lemma clean_response_no_fence (raw_response : string) :
  Py.contains "```" (clean_response raw_response) = false
  /\ Py.last_char (clean_response raw_response) <> Some "`"%char.
Proof.
  unfold clean_response, Py.rstrip_char. split.
  - destruct (rstrip_by_split (Ascii.eqb "`")
                (re_sub_fences (Py.strip raw_response))) as (t & E & _).
    apply (contains_inside _ "" _ t). autorewrite with pystr.
    rewrite <- E. apply remove_fences_clean. reflexivity.
  - intros Hlast. apply rstrip_by_last in Hlast. discriminate Hlast.
Qed.

Section CallsOfTheProvider.
Context `{Providers}.

Lemma generate_subqueries_raises (query : string) (n : Z) (w : world)
    (e : exn) :
  fst (generate_subqueries query n w) = Raise e -> is_Exception e = false.
Proof.
  unfold generate_subqueries.
  destruct (llm_call (subqueries_prompt query n) w) as [[raw|e0] w1].
  - destruct (json_loads (clean_response raw)) as [parsed|e1].
    + destruct (list_of_strings parsed); discriminate.
    + destruct (is_Exception e1) eqn:E1; [discriminate|].
      intros [= <-]. exact E1.
  - destruct (is_Exception e0) eqn:E0; [discriminate|].
    intros [= <-]. exact E0.
Qed.

Lemma generate_answer_raises (question context : string) (w : world)
    (e : exn) :
  fst (generate_answer question context w) = Raise e ->
  (exists msg, e = PyException msg) \/ is_Exception e = false.
Proof.
  unfold generate_answer.
  destruct (llm_call (answer_prompt question context) w) as [[a|e0] w1];
    [discriminate|].
  destruct (is_Exception e0) eqn:E0; intros [= <-];
    [left; eexists; reflexivity | right; exact E0].
Qed.

End CallsOfTheProvider.

(** X9. What [generate_subqueries] hands to the JSON decoder holds no code
    fence and does not end with a backtick, whatever the generation
    provider wrote. *)
Theorem decoder_input_has_no_fence (raw_response : string) :
  Py.contains "```" (clean_response raw_response) = false
  /\ Py.last_char (clean_response raw_response) <> Some "`"%char.
Proof. apply clean_response_no_fence. Qed.

(** X10. An output without a code fence reaches the decoder as it is, but
    for the white space around it and the backticks at its end. *)
Theorem output_without_fence_is_only_stripped (raw_response : string) :
  Py.contains "```" raw_response = false ->
  clean_response raw_response = Py.rstrip_char "`" (Py.strip raw_response).
Proof.
  intros Hraw. unfold clean_response, re_sub_fences.
  rewrite remove_fences_unchanged; [reflexivity|].
  destruct (strip_inside raw_response) as (a & b & E).
  apply (contains_inside _ a _ b). rewrite <- E. exact Hraw.
Qed.

Lemma output_without_fence_is_only_stripped_witness :
  Py.contains "```" "  [1, 2]`  " = false
  /\ clean_response "  [1, 2]`  " = Py.rstrip_char "`" (Py.strip "  [1, 2]`  ").
Proof.
  split; [reflexivity|].
  apply output_without_fence_is_only_stripped. reflexivity.
Defined.

(** X11. [generate_subqueries] raises no [Exception]: a failure of the
    provider call or of the decoder ends in the fallback, and only an
    exception outside [Exception] (a cancellation) goes through. *)
Theorem generate_subqueries_raises_no_exception `{Providers}
    (query : string) (max_subqueries : Z) (w : world) (e : exn) :
  fst (generate_subqueries query max_subqueries w) = Raise e ->
  is_Exception e = false.
Proof. apply generate_subqueries_raises. Qed.

Lemma generate_subqueries_raises_no_exception_witness :
  fst (@generate_subqueries
         (stub None (Raise (PyBaseException "cancelled")) (Ok one_source))
         "What is LangGraph?" default_max_subqueries no_calls)
  = Raise (PyBaseException "cancelled")
  /\ is_Exception (PyBaseException "cancelled") = false.
Proof.
  split; [reflexivity|].
  apply (@generate_subqueries_raises_no_exception
           (stub None (Raise (PyBaseException "cancelled")) (Ok one_source))
           "What is LangGraph?" default_max_subqueries no_calls).
  reflexivity.
Defined.

(** * A fenced answer *)

Lemma remove_fences_empty (fuel : nat) : remove_fences fuel "" = "".
Proof. destruct fuel; reflexivity. Qed.

Lemma prefix_fence_before_newline (s t : string) :
  String.prefix "```" s = false ->
  String.prefix "```" (s +:+ Py.nl +:+ t) = false.
Proof.
  intros Hs.
  destruct s as [|c1 [|c2 [|c3 s]]]; autorewrite with pystr;
    unfold Py.nl, Py.chr; rewrite ?prefix_cons in *;
    repeat match goal with
      | |- context [ascii_dec ?a ?b] => destruct (ascii_dec a b)
      end; try reflexivity; try discriminate.
  rewrite prefix_nil in Hs. discriminate Hs.
Qed.

Lemma remove_fences_closing (fuel : nat) (body : string) :
  Py.contains "```" body = false ->
  String.length body + 2 <= fuel ->
  remove_fences fuel (body +:+ Py.nl +:+ "```") = body +:+ Py.nl.
Proof.
  revert fuel; induction body as [|c body IH]; intros fuel Hbody Hfuel.
  - destruct fuel as [|[|fuel]]; cbn [String.length] in Hfuel; try lia.
    change ("" +:+ Py.nl +:+ "```") with (String (ascii_of_nat 10) "```").
    change ("" +:+ Py.nl) with (String (ascii_of_nat 10) "").
    cbn. apply f_equal, remove_fences_empty.
  - rewrite contains_cons in Hbody.
    apply orb_false_iff in Hbody as [Hprefix Hbody].
    destruct fuel as [|fuel]; cbn [String.length] in Hfuel; [lia|].
    pose proof (prefix_fence_before_newline _ "```" Hprefix) as Hno.
    autorewrite with pystr in *. cbn [remove_fences]. rewrite Hno.
    rewrite IH by (assumption || lia). reflexivity.
Qed.

Lemma rstrip_by_keeps (p : ascii -> bool) (a : string) (c : ascii) :
  p c = false ->
  Py.rstrip_by p (a +:+ String c "") = a +:+ String c "".
Proof.
  intros Hc. unfold Py.rstrip_by. rewrite rev_string_append.
  change (Py.rev_string (String c "")) with (String c "").
  autorewrite with pystr. cbn [Py.lstrip_by]. rewrite Hc.
  rewrite rev_string_cons, rev_string_involutive. reflexivity.
Qed.

Lemma remove_fences_json (fuel : nat) (rest : string) :
  remove_fences (S fuel) ("```json" +:+ rest)
  = remove_fences fuel (Py.lstrip_by Py.isspace rest).
Proof.
  change ("```json" +:+ rest)
    with (String "`" (String "`" (String "`" (String "j" (String "s"
            (String "o" (String "n" rest))))))).
  cbn [remove_fences Py.drop].
  repeat (rewrite prefix_cons; destruct (ascii_dec _ _); [|congruence]).
  rewrite prefix_nil.
  repeat (rewrite prefix_cons; destruct (ascii_dec _ _); [|congruence]).
  rewrite prefix_nil. reflexivity.
Qed.

Lemma clean_response_fenced (c : ascii) (b : string) :
  Py.isspace c = false ->
  Py.contains "```" (String c b) = false ->
  clean_response ("```json" +:+ Py.nl +:+ String c b +:+ Py.nl +:+ "```")
  = String c b +:+ Py.nl.
Proof.
  intros Hc Hbody. unfold clean_response.
  assert (Estrip :
    Py.strip ("```json" +:+ Py.nl +:+ String c b +:+ Py.nl +:+ "```")
    = "```json" +:+ Py.nl +:+ String c b +:+ Py.nl +:+ "```").
  { unfold Py.strip.
    replace ("```json" +:+ Py.nl +:+ String c b +:+ Py.nl +:+ "```")
      with (("```json" +:+ Py.nl +:+ String c b +:+ Py.nl +:+ "``")
            +:+ String "`" "")
      by (rewrite !append_assoc; reflexivity).
    set (a := "```json" +:+ Py.nl +:+ String c b +:+ Py.nl +:+ "``").
    assert (Ea : Py.lstrip_by Py.isspace (a +:+ String "`" "")
                 = a +:+ String "`" "")
      by (subst a; autorewrite with pystr; reflexivity).
    rewrite Ea. apply rstrip_by_keeps. reflexivity. }
  rewrite Estrip. unfold re_sub_fences.
  rewrite !length_append.
  change (String.length "```json" + (String.length Py.nl
            + (String.length (String c b)
               + (String.length Py.nl + String.length "```"))))
    with (S (7 + String.length (String c b) + 4)).
  rewrite remove_fences_json.
  change (Py.lstrip_by Py.isspace
            (Py.nl +:+ String c b +:+ Py.nl +:+ "```"))
    with (if Py.isspace c
          then Py.lstrip_by Py.isspace (b +:+ Py.nl +:+ "```")
          else String c b +:+ Py.nl +:+ "```").
  rewrite Hc, remove_fences_closing; [| exact Hbody | lia].
  unfold Py.rstrip_char.
  change (String c b +:+ Py.nl)
    with (String c b +:+ String (ascii_of_nat 10) "").
  apply rstrip_by_keeps. reflexivity.
Qed.

(** X12. An answer of the generation provider that is wrapped in a json
    code fence reaches the decoder as its body, followed by the line break
    that stood before the closing fence: the body starts with a character
    that is not white space and holds no fence of its own. *)
Theorem fenced_output_reaches_the_decoder_bare (c : ascii) (b : string) :
  Py.isspace c = false ->
  Py.contains "```" (String c b) = false ->
  clean_response ("```json" +:+ Py.nl +:+ String c b +:+ Py.nl +:+ "```")
  = String c b +:+ Py.nl.
Proof. apply clean_response_fenced. Qed.

Lemma fenced_output_reaches_the_decoder_bare_witness :
  Py.isspace "[" = false
  /\ Py.contains "```" "[1, 2]" = false
  /\ clean_response ("```json" +:+ Py.nl +:+ "[1, 2]" +:+ Py.nl +:+ "```")
     = "[1, 2]" +:+ Py.nl.
Proof.
  split; [reflexivity|]. split; [reflexivity|].
  apply (fenced_output_reaches_the_decoder_bare "[" "1, 2]"); reflexivity.
Defined.

(** X13. [_critique_condition] sends the run back to the retrieval node
    exactly when the response, in lower case, has the word inaccurate
    somewhere in it (inside a longer word too); it ends at the publish node
    for every other response, and raises [KeyError] when the state has no
    response. *)
Theorem critique_condition_is_a_substring_test (st : AgentState) :
  (_critique_condition st = Ok "search_context"
   <-> exists r pre post,
         response st = Some r
         /\ Py.lower r = pre +:+ "inaccurate" +:+ post)
  /\ (_critique_condition st = Ok "publish"
      <-> exists r,
            response st = Some r
            /\ forall pre post, Py.lower r <> pre +:+ "inaccurate" +:+ post)
  /\ (forall e, _critique_condition st = Raise e
                <-> response st = None /\ e = KeyError "response").
Proof. apply critique_condition_cases. Qed.

(** An answer that quotes the word in capitals is sent back as well. *)
Example critique_condition_ignores_case (pre post : string) :
  _critique_condition
    {| query := None; subqueries := None; combined_context := None;
       response := Some (pre +:+ "Inaccurate" +:+ post);
       revised_response := None |}
  = Ok "search_context".
Proof.
  apply critique_condition_cases.
  exists (pre +:+ "Inaccurate" +:+ post), (Py.lower pre), (Py.lower post).
  split; [reflexivity|]. rewrite !lower_append. reflexivity.
Qed.

(** * Runs with any providers *)

Section AnyProviders.
Context `{Providers}.

Lemma query_parser_node_outcome (state : AgentState) (q : string)
    (w : world) :
  query state = Some q ->
  match fst (_query_parser_node state w) with
  | Ok update =>
      exists sqs,
        update = {| query := None; subqueries := Some sqs;
                    combined_context := None; response := None;
                    revised_response := None |}
  | Raise e => is_Exception e = false
  end.
Proof.
  intros Eq. unfold _query_parser_node. rewrite Eq. cbn [getitem].
  pose proof (generate_subqueries_raises q default_max_subqueries w) as Hr.
  destruct (generate_subqueries q default_max_subqueries w) as [[l|e] w1];
    cbn [fst mbind result_bind] in *; [eauto | apply Hr; reflexivity].
Qed.

Lemma llm_node_outcome (state : AgentState) (q context : string)
    (w : world) :
  query state = Some q -> combined_context state = Some context ->
  match fst (_llm_node state w) with
  | Ok update =>
      exists answer,
        update = {| query := None; subqueries := None;
                    combined_context := None; response := Some answer;
                    revised_response := None |}
  | Raise e => (exists msg, e = PyException msg) \/ is_Exception e = false
  end.
Proof.
  intros Eq Ec. unfold _llm_node. rewrite Eq, Ec.
  cbn [getitem mbind result_bind].
  pose proof (generate_answer_raises q context w) as Hr.
  destruct (generate_answer q context w) as [[a|e] w1];
    cbn [fst mbind result_bind] in *; [eauto | apply Hr; reflexivity].
Qed.

Lemma critique_and_revise_node_outcome (state : AgentState)
    (q context answer : string) (w : world) :
  query state = Some q -> combined_context state = Some context ->
  response state = Some answer ->
  match fst (_critique_and_revise_node state w) with
  | Ok update =>
      exists verdict,
        update = {| query := None; subqueries := None;
                    combined_context := None; response := None;
                    revised_response := Some verdict |}
  | Raise e => (exists msg, e = PyException msg) \/ is_Exception e = false
  end.
Proof.
  intros Eq Ec Er. unfold _critique_and_revise_node. rewrite Eq, Ec, Er.
  cbn [getitem mbind result_bind].
  pose proof (generate_answer_raises (critique_prompt q context answer)
                context w) as Hr.
  destruct (generate_answer (critique_prompt q context answer) context w)
    as [[a|e] w1];
    cbn [fst mbind result_bind] in *; [eauto | apply Hr; reflexivity].
Qed.

Lemma run_one_task_raises (g : StateGraph) (n : string)
    (action : node_action) (state : AgentState) (w w1 : world) (e : exn)
    (limit : nat) :
  lookup_node g n = Some action ->
  action state w = (Raise e, w1) ->
  run_supersteps g (S limit) [n] state w
  = after_step [n] (ended (Raise e) w1).
Proof.
  intros El Ea. cbn [run_supersteps run_tasks]. rewrite El, Ea. reflexivity.
Qed.

Lemma run_first_task_raises (g : StateGraph) (n : string)
    (rest : list string) (action : node_action) (state : AgentState)
    (w w1 : world) (e : exn) (limit : nat) :
  lookup_node g n = Some action ->
  action state w = (Raise e, w1) ->
  outcome (run_supersteps g (S limit) (n :: rest) state w) = Raise e.
Proof.
  intros El Ea. cbn [run_supersteps run_tasks]. rewrite El, Ea. reflexivity.
Qed.

Lemma run_no_tasks (g : StateGraph) (limit : nat) (state : AgentState)
    (w : world) :
  run_supersteps g (S limit) [] state w = ended (Ok state) w.
Proof. reflexivity. Qed.

Lemma after_publish (state update : AgentState) :
  triggered pipeline_graph state [("publish", update)] = Ok {[ END ]}.
Proof. vm_compute. reflexivity. Qed.

Lemma next_end : next_tasks pipeline_graph {[ END ]} = [].
Proof. vm_compute. reflexivity. Qed.

Lemma ends_as_meant_after_step (q : string) (tasks : list string)
    (r : run_result) :
  ends_as_meant q r -> ends_as_meant q (after_step tasks r).
Proof.
  unfold ends_as_meant, after_step. cbn [outcome supersteps].
  destruct (outcome r); [|exact id].
  intros [[before E] Hstate]. split; [|exact Hstate].
  exists (tasks :: before). rewrite E. reflexivity.
Qed.

Lemma ends_as_meant_raise (q : string) (r : run_result) (e : exn) :
  outcome r = Raise e -> ends_a_run e -> ends_as_meant q r.
Proof. unfold ends_as_meant. intros ->. exact id. Qed.

Local Abbreviation all_of q sqs cc resp rev :=
  {| query := Some q; subqueries := Some sqs; combined_context := cc;
     response := resp; revised_response := rev |}.

Lemma pipeline_run_ends_as_meant (q : string) (limit : nat) :
  (forall state w,
      query state = Some q ->
      ends_as_meant q (run_supersteps pipeline_graph limit ["parse"] state w))
  /\ (forall sqs cc resp rev w,
         ends_as_meant q
           (run_supersteps pipeline_graph limit ["search_context"]
              (all_of q sqs cc resp rev) w))
  /\ (forall sqs c resp rev w,
         ends_as_meant q
           (run_supersteps pipeline_graph limit ["llm"]
              (all_of q sqs (Some c) resp rev) w))
  /\ (forall sqs c a rev w,
         ends_as_meant q
           (run_supersteps pipeline_graph limit ["critique_and_revise"]
              (all_of q sqs (Some c) (Some a) rev) w))
  /\ (forall sqs c a v w,
         ends_as_meant q
           (run_supersteps pipeline_graph limit ["search_context"; "publish"]
              (all_of q sqs (Some c) (Some a) (Some v)) w))
  /\ (forall sqs c a v w,
         Py.contains "inaccurate" (Py.lower a) = false ->
         ends_as_meant q
           (run_supersteps pipeline_graph limit ["publish"]
              (all_of q sqs (Some c) (Some a) (Some v)) w)).
Proof.
  assert (Hlimit : ends_a_run GraphRecursionError)
    by (right; right; right; reflexivity).
  destruct pipeline_nodes as (Nparse & Nsearch & Nllm & Ncritique & Npublish).
  induction limit as [|limit (IHparse & IHsearch & IHllm & IHcritique
                              & IHretry & IHpublish)].
  { repeat split; intros;
      (eapply ends_as_meant_raise;
       [rewrite run_out_of_steps by discriminate; reflexivity
       | exact Hlimit]). }
  split; [|split; [|split; [|split; [|split]]]].
  - (* parse *)
    intros state w Eq.
    pose proof (query_parser_node_outcome state q w Eq) as Hout.
    destruct (_query_parser_node state w) as [[update|e] w1] eqn:E;
      cbn [fst] in Hout.
    + destruct Hout as [sqs ->].
      destruct state as [q0 sq0 cc0 resp0 rev0]. cbn [query] in Eq. subst q0.
      erewrite run_supersteps_step;
        [apply ends_as_meant_after_step, (IHsearch sqs cc0 resp0 rev0 w1)
        | discriminate
        | eapply run_one_task; [exact Nparse | exact E]
        | reflexivity | apply after_parse | exact next_search].
    + eapply ends_as_meant_raise;
        [rewrite (run_one_task_raises _ _ _ _ _ _ _ _ Nparse E); reflexivity|].
      right; right; left. apply not_Exception, Hout.
  - (* search_context *)
    intros sqs cc resp rev w.
    pose proof (search_and_context_node_outcome
                  (all_of q sqs cc resp rev) w) as Hout.
    destruct (_search_and_context_node (all_of q sqs cc resp rev) w)
      as [[update|e] w1] eqn:E; cbn [fst] in Hout.
    + destruct Hout as (sqs' & snippets & _ & -> & _).
      erewrite run_supersteps_step;
        [apply ends_as_meant_after_step,
           (IHllm sqs (Py.join (Py.nl +:+ Py.nl) snippets) resp rev w1)
        | discriminate
        | eapply run_one_task; [exact Nsearch | exact E]
        | reflexivity | apply after_search | exact next_llm].
    + eapply ends_as_meant_raise;
        [rewrite (run_one_task_raises _ _ _ _ _ _ _ _ Nsearch E); reflexivity|].
      destruct Hout as [[[=] _]|[He|He]];
        [left; apply search_error, He
        | right; right; left; apply not_Exception, He].
  - (* llm *)
    intros sqs c resp rev w.
    pose proof (llm_node_outcome (all_of q sqs (Some c) resp rev) q c w
                  eq_refl eq_refl) as Hout.
    destruct (_llm_node (all_of q sqs (Some c) resp rev) w)
      as [[update|e] w1] eqn:E; cbn [fst] in Hout.
    + destruct Hout as [answer ->].
      erewrite run_supersteps_step;
        [apply ends_as_meant_after_step, (IHcritique sqs c answer rev w1)
        | discriminate
        | eapply run_one_task; [exact Nllm | exact E]
        | reflexivity | apply after_llm | exact next_critique].
    + eapply ends_as_meant_raise;
        [rewrite (run_one_task_raises _ _ _ _ _ _ _ _ Nllm E); reflexivity|].
      destruct Hout as [He|He];
        [right; left; exact He
        | right; right; left; apply not_Exception, He].
  - (* critique_and_revise *)
    intros sqs c a rev w.
    pose proof (critique_and_revise_node_outcome
                  (all_of q sqs (Some c) (Some a) rev) q c a w
                  eq_refl eq_refl eq_refl) as Hout.
    destruct (_critique_and_revise_node
                (all_of q sqs (Some c) (Some a) rev) w)
      as [[update|e] w1] eqn:E; cbn [fst] in Hout.
    + destruct Hout as [verdict ->].
      destruct (Py.contains "inaccurate" (Py.lower a)) eqn:Ea.
      * erewrite run_supersteps_step;
          [apply ends_as_meant_after_step, (IHretry sqs c a verdict w1)
          | discriminate
          | eapply run_one_task; [exact Ncritique | exact E]
          | reflexivity
          | apply (after_critique _ _ "search_context");
            [unfold _critique_condition;
             cbn [apply_update response getitem mbind result_bind];
             rewrite Ea; reflexivity
            | left; reflexivity]
          | exact next_retry].
      * erewrite run_supersteps_step;
          [apply ends_as_meant_after_step,
             (IHpublish sqs c a verdict w1 Ea)
          | discriminate
          | eapply run_one_task; [exact Ncritique | exact E]
          | reflexivity
          | apply (after_critique _ _ "publish");
            [unfold _critique_condition;
             cbn [apply_update response getitem mbind result_bind];
             rewrite Ea; reflexivity
            | right; reflexivity]
          | exact next_publish].
    + eapply ends_as_meant_raise;
        [rewrite (run_one_task_raises _ _ _ _ _ _ _ _ Ncritique E);
         reflexivity|].
      destruct Hout as [He|He];
        [right; left; exact He
        | right; right; left; apply not_Exception, He].
  - (* search_context and publish *)
    intros sqs c a v w.
    pose proof (search_and_context_node_outcome
                  (all_of q sqs (Some c) (Some a) (Some v)) w) as Hout.
    destruct (_search_and_context_node
                (all_of q sqs (Some c) (Some a) (Some v)) w)
      as [[update|e] w1] eqn:E; cbn [fst] in Hout.
    + destruct Hout as (sqs' & snippets & _ & -> & _).
      erewrite run_supersteps_step;
        [apply ends_as_meant_after_step,
           (IHllm sqs (Py.join (Py.nl +:+ Py.nl) snippets) (Some a) (Some v)
              w1)
        | discriminate
        | eapply run_two_tasks;
          [exact Nsearch | exact Npublish | exact E | reflexivity]
        | reflexivity | apply after_search_and_publish | exact next_llm_end].
    + eapply ends_as_meant_raise;
        [apply (run_first_task_raises _ _ _ _ _ _ _ _ _ Nsearch E)|].
      destruct Hout as [[[=] _]|[He|He]];
        [left; apply search_error, He
        | right; right; left; apply not_Exception, He].
  - (* publish *)
    intros sqs c a v w Ea.
    erewrite run_supersteps_step;
      [
      | discriminate
      | eapply run_one_task; [exact Npublish | reflexivity]
      | reflexivity | apply after_publish | exact next_end].
    destruct limit as [|limit];
      [apply ends_as_meant_after_step;
       eapply ends_as_meant_raise; [reflexivity | exact Hlimit]|].
    unfold ends_as_meant. rewrite run_no_tasks.
    cbn [after_step ended outcome supersteps apply_update query subqueries
         combined_context response revised_response].
    split; [exists []; reflexivity|].
    exists sqs, c, a, v. split; [reflexivity | exact Ea].
Qed.

End AnyProviders.

(** X14. A run of the compiled pipeline on a query never fails on its own
    state: no key is read before it is written and no key is written twice
    in a superstep.  A limit of 0 is refused with the engine's
    [ValueError] before anything runs.  Under every other limit, a run
    that raises ends with the error of the retried search, with the error
    that [generate_answer] raises, with an exception outside [Exception]
    that a provider let through, or with the step limit of the engine. *)
Theorem run_raises_only_what_providers_or_the_limit_raise `{Providers}
    (g : StateGraph) (q : string) (recursion_limit : nat) (w : world)
    (e : exn) :
  _build_graph = Ok g ->
  outcome (invoke g (input q) recursion_limit w) = Raise e ->
  (recursion_limit = 0
   /\ e = ValueError "recursion_limit must be at least 1")
  \/ (1 <= recursion_limit /\ ends_a_run e).
Proof.
  rewrite build_graph_pipeline. intros [= <-] E.
  destruct recursion_limit as [|limit].
  - left. split; [reflexivity|]. cbn in E. congruence.
  - right. split; [lia|].
    pose proof (proj1 (pipeline_run_ends_as_meant q (S limit))
                  (input q) w eq_refl) as Hrun.
    unfold invoke in E. change (S limit <? 1)%nat with false in E.
    cbv iota in E. rewrite next_start in E.
    unfold ends_as_meant in Hrun. rewrite E in Hrun. exact Hrun.
Qed.

Lemma run_raises_only_what_providers_or_the_limit_raise_witness :
  let P := stub None (Ok "ok") (Ok one_source) in
  @_build_graph P = Ok (@pipeline_graph P)
  /\ outcome (@invoke P (@pipeline_graph P)
                (input "What is the capital of France?") 25 no_calls)
     = Raise (TavilySearchError "Tavily API key not found.")
  /\ ((25 = 0
       /\ TavilySearchError "Tavily API key not found."
          = ValueError "recursion_limit must be at least 1")
      \/ (1 <= 25
          /\ ends_a_run (TavilySearchError "Tavily API key not found."))).
Proof.
  intros P.
  assert (E : outcome (@invoke P (@pipeline_graph P)
                         (input "What is the capital of France?") 25
                         no_calls)
              = Raise (TavilySearchError "Tavily API key not found."))
    by (vm_compute; reflexivity).
  split; [apply build_graph_pipeline|]. split; [exact E|].
  exact (@run_raises_only_what_providers_or_the_limit_raise P
           (@pipeline_graph P) "What is the capital of France?" 25 no_calls
           _ build_graph_pipeline E).
Defined.

(** X15. A run of the compiled pipeline that returns has ended with a
    superstep of the publish node alone, and its state has every key: the
    query it was given, the sub-queries, the context, a response in which
    the routing predicate finds nothing to retry, and the critic's
    verdict. *)
Theorem run_that_returns_has_published `{Providers}
    (g : StateGraph) (q : string) (recursion_limit : nat) (w : world)
    (state : AgentState) :
  _build_graph = Ok g ->
  outcome (invoke g (input q) recursion_limit w) = Ok state ->
  (exists before,
      supersteps (invoke g (input q) recursion_limit w)
      = before ++ [["publish"]])
  /\ exists sqs context answer verdict,
       state = {| query := Some q; subqueries := Some sqs;
                  combined_context := Some context;
                  response := Some answer;
                  revised_response := Some verdict |}
       /\ Py.contains "inaccurate" (Py.lower answer) = false.
Proof.
  rewrite build_graph_pipeline. intros [= <-] E.
  destruct recursion_limit as [|limit]; [discriminate E|].
  pose proof (proj1 (pipeline_run_ends_as_meant q (S limit))
                (input q) w eq_refl) as Hrun.
  unfold invoke in *. change (S limit <? 1)%nat with false in *.
  cbv iota in *. rewrite next_start in *.
  unfold ends_as_meant in Hrun. rewrite E in Hrun. exact Hrun.
Qed.

Lemma run_that_returns_has_published_witness :
  let P := critic_stub "Paris is the capital of France." "ok" one_source in
  exists state,
    @_build_graph P = Ok (@pipeline_graph P)
    /\ outcome (@invoke P (@pipeline_graph P)
                  (input "What is the capital of France?") 25 no_calls)
       = Ok state
    /\ exists before,
         supersteps (@invoke P (@pipeline_graph P)
                       (input "What is the capital of France?") 25 no_calls)
         = before ++ [["publish"]].
Proof.
  intros P. eexists.
  assert (E : outcome (@invoke P (@pipeline_graph P)
                         (input "What is the capital of France?") 25
                         no_calls)
              = Ok _)
    by (vm_compute; reflexivity).
  split; [apply build_graph_pipeline|]. split; [exact E|].
  exact (proj1 (@run_that_returns_has_published P (@pipeline_graph P)
                  "What is the capital of France?" 25 no_calls _
                  build_graph_pipeline E)).
Defined.

(** * The frame of [pretty_print] *)

Lemma center_shape (s : string) (width : nat) (c : ascii) :
  exists l r,
    center s width (String c "")
    = Py.times (String c "") l +:+ s +:+ Py.times (String c "") r
    /\ l + String.length s + r = Nat.max width (String.length s)
    /\ (l = r \/ (S l = r /\ Nat.even width = true)
        \/ (l = S r /\ Nat.odd width = true)).
Proof.
  unfold center. destruct (Nat.leb_spec width (String.length s)) as [Hle|Hlt].
  - exists 0, 0. cbn [Py.times]. autorewrite with pystr.
    rewrite append_empty_r. repeat split; [lia | left; reflexivity].
  - set (marg := width - String.length s).
    set (extra := if Nat.odd marg && Nat.odd width then 1 else 0).
    exists (marg / 2 + extra), (marg - (marg / 2 + extra)).
    split; [reflexivity|].
    assert (Hmarg : marg = width - String.length s) by reflexivity.
    clearbody marg.
    pose proof (Nat.div_mod_eq marg 2) as Hdiv.
    pose proof (Nat.mod_upper_bound marg 2 ltac:(lia)) as Hmod.
    assert (Hodd : Nat.odd marg = true -> marg mod 2 = 1).
    { intros [k Hk]%Nat.odd_spec. lia. }
    assert (Heven : Nat.odd marg = false -> marg mod 2 = 0).
    { rewrite <- Nat.negb_even, negb_false_iff.
      intros [k Hk]%Nat.even_spec. lia. }
    destruct (Nat.odd marg); [specialize (Hodd eq_refl)
                             | specialize (Heven eq_refl)].
    + destruct (Nat.odd width) eqn:Ew; cbn [andb] in extra; subst extra.
      * split; [lia|]. right. right. split; [lia | reflexivity].
      * split; [lia|]. right. left. split; [lia|].
        rewrite <- Nat.negb_odd, Ew. reflexivity.
    + cbn [andb] in extra. subst extra. split; [lia|]. left. lia.
Qed.

Lemma pretty_print_frame_shape (text subtext color : string) :
  exists l r,
    pretty_print text subtext color
    = [Py.times "=" 80;
       Py.chr 27 +:+ "[" +:+ color +:+ "m"
       +:+ (Py.times "=" l +:+ (" " +:+ subtext +:+ " ") +:+ Py.times "=" r)
       +:+ Py.chr 27 +:+ "[0m";
       Py.times "=" 80]
      ++ (if String.eqb text "" then [] else [Py.nl +:+ text +:+ Py.nl])
    /\ l + (String.length subtext + 2) + r
       = Nat.max 80 (String.length subtext + 2)
    /\ (r = l \/ r = S l).
Proof.
  destruct (center_shape (" " +:+ subtext +:+ " ") 80 "=")
    as (l & r & E & Hlen & Hlr).
  exists l, r. unfold pretty_print. cbv zeta.
  rewrite (length_times "=" 80), E. split; [reflexivity|].
  rewrite !length_append in Hlen. cbn [String.length] in Hlen.
  split; [lia|].
  destruct Hlr as [->|[[<- _]|[_ Hodd]]]; [left | right | discriminate Hodd];
    reflexivity.
Qed.

(** X16. [pretty_print] prints a bar of 80 signs, the label between two
    blanks, centred in a line of 80 columns that is filled with the same
    sign (one more on the right when the label has an odd length) and
    wrapped in the colour codes, the bar again, and then the text between
    two line breaks unless it is empty.  A label of more than 78 characters
    is printed whole, in a line longer than the bars. *)
Theorem pretty_print_frame (text subtext color : string) :
  exists l r,
    pretty_print text subtext color
    = [Py.times "=" 80;
       Py.chr 27 +:+ "[" +:+ color +:+ "m"
       +:+ (Py.times "=" l +:+ (" " +:+ subtext +:+ " ") +:+ Py.times "=" r)
       +:+ Py.chr 27 +:+ "[0m";
       Py.times "=" 80]
      ++ (if String.eqb text "" then [] else [Py.nl +:+ text +:+ Py.nl])
    /\ l + (String.length subtext + 2) + r
       = Nat.max 80 (String.length subtext + 2)
    /\ (r = l \/ r = S l).
Proof. apply pretty_print_frame_shape. Qed.

(** * Wrapping the response *)

Lemma rfind_space_shrinks (s : string) (stop i : nat) :
  rfind_space s stop = Some i ->
  i < stop
  /\ String.length (Py.lstrip_by Py.isspace (Py.drop i s)) < String.length s.
Proof.
  revert s i; induction stop as [|stop IH]; intros [|c s] i;
    cbn [rfind_space]; try discriminate.
  destruct (rfind_space s stop) as [j|] eqn:Ej.
  - intros [= <-]. destruct (IH s j Ej) as [Hj Hlen].
    cbn [Py.drop String.length]. lia.
  - destruct (Ascii.eqb_spec c " ") as [->|]; [|discriminate].
    intros [= <-]. cbn [Py.drop Py.lstrip_by String.length].
    change (Py.isspace " ") with true. cbv iota.
    pose proof (length_lstrip_by Py.isspace s). lia.
Qed.

Lemma wrap_round_shrinks (max_width : nat) (buffer : string) :
  1 <= max_width -> max_width <= String.length buffer ->
  let break_idx := match rfind_space buffer max_width with
                   | Some i => i
                   | None => max_width
                   end in
  break_idx <= max_width
  /\ String.length (Py.lstrip_by Py.isspace (Py.drop break_idx buffer))
     < String.length buffer.
Proof.
  intros Hw Hlen. destruct (rfind_space buffer max_width) as [i|] eqn:Ei;
    cbv zeta.
  - destruct (rfind_space_shrinks _ _ _ Ei). lia.
  - split; [lia|].
    pose proof (length_lstrip_by Py.isspace (Py.drop max_width buffer)).
    rewrite length_drop in *. lia.
Qed.

Lemma wrap_loop_ends (fuel max_width : nat) (buffer : string) :
  1 <= max_width -> String.length buffer <= fuel ->
  exists lines rest,
    wrap_loop fuel max_width buffer = Some (lines, rest)
    /\ Forall (fun line => String.length line <= max_width) lines
    /\ String.length rest < max_width
    /\ squeeze (concat_lines lines +:+ rest) = squeeze buffer.
Proof.
  intros Hw. revert buffer.
  induction fuel as [|fuel IH]; intros buffer Hfuel.
  - exists [], buffer. cbn [wrap_loop].
    destruct (Nat.ltb_spec (String.length buffer) max_width); [|lia].
    repeat split; [constructor | assumption].
  - cbn [wrap_loop].
    destruct (Nat.ltb_spec (String.length buffer) max_width) as [Hlt|Hge].
    { exists [], buffer. repeat split; [constructor | assumption]. }
    destruct (wrap_round_shrinks max_width buffer Hw Hge) as [Hidx Hshrink].
    set (break_idx := match rfind_space buffer max_width with
                      | Some i => i
                      | None => max_width
                      end) in *.
    destruct (IH (Py.lstrip_by Py.isspace (Py.drop break_idx buffer)))
      as (lines & rest & -> & Hlines & Hrest & Hsq); [lia|].
    eexists _, rest. split; [reflexivity|]. split; [|split; [exact Hrest|]].
    + constructor; [|exact Hlines].
      etransitivity; [apply length_rstrip_by|].
      rewrite length_take. lia.
    + cbn [concat_lines fold_right]. fold (concat_lines lines).
      rewrite append_assoc, squeeze_append, Hsq.
      rewrite squeeze_rstrip, squeeze_lstrip, <- squeeze_append, take_drop.
      reflexivity.
Qed.

Lemma wrap_loop_never_ends (fuel : nat) (buffer : string) :
  wrap_loop fuel 0 buffer = None.
Proof.
  revert buffer; induction fuel as [|fuel IH]; intros buffer;
    cbn [wrap_loop]; change (String.length buffer <? 0)%nat with false;
    cbv iota; [reflexivity|].
  rewrite IH. reflexivity.
Qed.

Lemma concat_lines_app (a b : list string) :
  concat_lines (a ++ b) = concat_lines a +:+ concat_lines b.
Proof.
  induction a as [|x a IH]; cbn [app concat_lines fold_right].
  - autorewrite with pystr. reflexivity.
  - fold (concat_lines (a ++ b)) (concat_lines a).
    rewrite IH, append_assoc. reflexivity.
Qed.

(** X17. [_print_wrapped_under_bar] with a width of at least one column
    returns, and it has then printed lines of at most [max_width]
    characters and left fewer than [max_width] characters in the buffer. *)
Theorem print_wrapped_lines_fit (fuel : nat) (char_buffer : option string)
    (text : string) (max_width : nat) :
  1 <= max_width ->
  String.length (default "" char_buffer +:+ text) <= fuel ->
  exists lines rest,
    _print_wrapped_under_bar fuel char_buffer text max_width
    = Some (lines, rest)
    /\ Forall (fun line => String.length line <= max_width) lines
    /\ String.length rest < max_width.
Proof.
  intros Hw Hfuel.
  destruct (wrap_loop_ends fuel max_width (default "" char_buffer +:+ text)
              Hw Hfuel) as (lines & rest & E & Hlines & Hrest & _).
  exists lines, rest. repeat split; assumption.
Qed.

Lemma print_wrapped_lines_fit_witness :
  1 <= 20
  /\ String.length (default "" (Some "the quick ")
                    +:+ "brown fox jumps over the lazy dog") <= 43
  /\ exists lines rest,
       _print_wrapped_under_bar 43 (Some "the quick ")
         "brown fox jumps over the lazy dog" 20
       = Some (lines, rest)
       /\ Forall (fun line => String.length line <= 20) lines
       /\ String.length rest < 20.
Proof.
  split; [lia|]. split; [vm_compute; lia|].
  apply print_wrapped_lines_fit; [lia | vm_compute; lia].
Defined.

(** X18. Wrapping loses no text: when [_print_wrapped_under_bar] returns,
    the lines printed, followed by the buffer that is left, hold the
    characters of the old buffer and the new text that are not white space,
    in their order, and nothing else but white space. *)
Theorem print_wrapped_keeps_the_text (fuel : nat)
    (char_buffer : option string) (text : string) (max_width : nat) :
  1 <= max_width ->
  String.length (default "" char_buffer +:+ text) <= fuel ->
  exists lines rest,
    _print_wrapped_under_bar fuel char_buffer text max_width
    = Some (lines, rest)
    /\ squeeze (concat_lines lines +:+ rest)
       = squeeze (default "" char_buffer +:+ text).
Proof.
  intros Hw Hfuel.
  destruct (wrap_loop_ends fuel max_width (default "" char_buffer +:+ text)
              Hw Hfuel) as (lines & rest & E & _ & _ & Hsq).
  exists lines, rest. split; assumption.
Qed.

Lemma print_wrapped_keeps_the_text_witness :
  1 <= 20
  /\ String.length (default "" (Some "the quick ")
                    +:+ "brown fox jumps over the lazy dog") <= 43
  /\ exists lines rest,
       _print_wrapped_under_bar 43 (Some "the quick ")
         "brown fox jumps over the lazy dog" 20
       = Some (lines, rest)
       /\ squeeze (concat_lines lines +:+ rest)
          = squeeze (default "" (Some "the quick ")
                     +:+ "brown fox jumps over the lazy dog").
Proof.
  split; [lia|]. split; [vm_compute; lia|].
  apply print_wrapped_keeps_the_text; [lia | vm_compute; lia].
Defined.

(** X19. With a width of zero, [_print_wrapped_under_bar] does not return:
    the test of its loop holds for every buffer, and no number of rounds
    ends it. *)
Theorem print_wrapped_width_zero_never_returns (fuel : nat)
    (char_buffer : option string) (text : string) :
  _print_wrapped_under_bar fuel char_buffer text 0 = None.
Proof. apply wrap_loop_never_ends. Qed.

(** X20. [_publish_node] prints the header, then the whole response: what
    follows the header holds the characters of the buffer and the response
    that are not white space, in lines of at most 80 characters, and no
    text is left waiting in the buffer. *)
Theorem publish_prints_the_whole_response (fuel : nat)
    (char_buffer : option string) (response : string) :
  String.length (default "" char_buffer +:+ response) <= fuel ->
  exists out attribute,
    publish_console fuel char_buffer response
    = Some (pretty_print "" "AI Response" "96" ++ out, attribute)
    /\ squeeze (concat_lines out)
       = squeeze (default "" char_buffer +:+ response)
    /\ Forall (fun line => String.length line <= 80) out
    /\ squeeze (default "" attribute) = "".
Proof.
  intros Hfuel. unfold publish_console.
  assert (Hw : 1 <= 80) by lia.
  destruct (wrap_loop_ends fuel 80 (default "" char_buffer +:+ response)
              Hw Hfuel) as (lines & rest & E & Hlines & Hrest & Hsq).
  unfold _print_wrapped_under_bar.
  change (match char_buffer with Some b => b | None => "" end)
    with (default "" char_buffer).
  rewrite E. destruct (String.eqb_spec (Py.strip rest) "") as [Hstrip|Hstrip].
  - exists lines, (Some rest). split; [reflexivity|].
    pose proof (strip_empty_all_space _ Hstrip) as Hrest0.
    rewrite squeeze_append, Hrest0, append_empty_r in Hsq.
    repeat split; assumption.
  - exists (lines ++ [Py.strip rest +:+ Py.nl]), None.
    split; [reflexivity|]. split; [|split; [|reflexivity]].
    + rewrite <- Hsq, concat_lines_app, !squeeze_append. f_equal.
      change (concat_lines [Py.strip rest +:+ Py.nl])
        with ((Py.strip rest +:+ Py.nl) +:+ "").
      rewrite append_empty_r, squeeze_append, squeeze_strip.
      change (squeeze Py.nl) with "". apply append_empty_r.
    + apply Forall_app. split; [exact Hlines|].
      constructor; [|constructor].
      rewrite length_append. change (String.length Py.nl) with 1.
      unfold Py.strip.
      pose proof (length_rstrip_by Py.isspace (Py.lstrip_by Py.isspace rest)).
      pose proof (length_lstrip_by Py.isspace rest). lia.
Qed.

Lemma publish_prints_the_whole_response_witness :
  String.length (default "" None +:+ "Paris is the capital of France.") <= 31
  /\ exists out attribute,
       publish_console 31 None "Paris is the capital of France."
       = Some (pretty_print "" "AI Response" "96" ++ out, attribute)
       /\ squeeze (concat_lines out)
          = squeeze (default "" None +:+ "Paris is the capital of France.")
       /\ Forall (fun line => String.length line <= 80) out
       /\ squeeze (default "" attribute) = "".
Proof.
  split; [vm_compute; lia|].
  apply publish_prints_the_whole_response. vm_compute. lia.
Defined.
